(** * XtermOrchestrator: session registry, command interceptor, message router

    A shallow embedding of three backend services of the orchestrator:

    - [OrchestratorCommands._handleTerminalInput]
      (backend/services/OrchestratorCommands.js), the command interceptor;
    - [TerminalManager] (the terminal manager service), the session
      registry with its idle timers, handoff records and output monitor;
    - [MessageRouter] (backend/services/MessageRouter.js), the message
      gateway.

    Further on, [handleConnection] and the callbacks of the gateway, the
    senders of backend/utils/WebSocketUtils.js, and the dispatcher
    [handleOrchestratorCommand] with the handlers of [send], [broadcast],
    [handoff] and [spawn] are embedded the same way.

    JavaScript strings are modelled as [string]; a character stands for a
    UTF-16 code unit in the range 0..255.  Handlers run to completion on a
    single thread, so every handler is a function from the state before to
    the state after, together with the trace of calls it made on its
    collaborators (pseudo-terminal, timers, client socket).  A call on a
    collaborator that may raise takes its outcome from a script of outcomes
    carried by the world, one entry per call.  The interceptor awaits the
    directive it executes: its handler is modelled in two parts, the call up
    to the [await] and the rest of the call, and between the two any other
    call may run. *)

From Stdlib Require Import ZArith Ascii String List Bool Lia.
From stdpp Require Import gmap strings list fin_maps pretty.

Local Open Scope Z_scope.

(** ** Handlers as state transformers with exceptions *)

Module Eff.

Inductive result (A : Type) : Type :=
| Returned (a : A)
| Thrown (err : string).
Arguments Returned {A} a.
Arguments Thrown {A} err.

(** A computation over a world [W]: it ends normally with a value or with an
    exception in flight, and leaves a world either way. *)
Definition Eff (W A : Type) : Type := W -> result A * W.

Definition ret {W A} (a : A) : Eff W A := fun w => (Returned a, w).

Definition bind {W A B} (m : Eff W A) (k : A -> Eff W B) : Eff W B :=
  fun w =>
    match m w with
    | (Returned a, w') => k a w'
    | (Thrown e, w') => (Thrown e, w')
    end.

Definition throw {W A} (err : string) : Eff W A := fun w => (Thrown err, w).

(** [try { body } catch (error) { handler(error) }] *)
Definition tryCatch {W A} (body : Eff W A) (handler : string -> Eff W A)
  : Eff W A :=
  fun w =>
    match body w with
    | (Returned a, w') => (Returned a, w')
    | (Thrown e, w') => handler e w'
    end.

Definition get {W} : Eff W W := fun w => (Returned w, w).
Definition modify {W} (f : W -> W) : Eff W unit := fun w => (Returned tt, f w).

Definition when {W} (b : bool) (m : Eff W unit) : Eff W unit :=
  if b then m else ret tt.

#[global] Instance Eff_ret {W} : MRet (Eff W) := fun A a => ret a.
#[global] Instance Eff_bind {W} : MBind (Eff W) := fun A B k m => bind m k.

End Eff.
Import Eff.

(** ** JavaScript string methods used by the services *)

Module Js.

Definition code (c : ascii) : N := N_of_ascii c.

(** WhiteSpace and LineTerminator code units below 256: TAB, LF, VT, FF, CR,
    SP and NBSP.  [String.prototype.trim] and the regular expression class
    [\s] use this set. *)
Definition isWhiteSpace (c : ascii) : bool :=
  let n := code c in
  ((9 <=? n) && (n <=? 13) || (n =? 32) || (n =? 160))%N.

(** LineTerminator code units below 256; [.] in a regular expression
    matches every other code unit. *)
Definition isLineTerminator (c : ascii) : bool :=
  let n := code c in ((n =? 10) || (n =? 13))%N.

(** The regular expression class [\w]: [A-Za-z0-9_]. *)
Definition isWordChar (c : ascii) : bool :=
  let n := code c in
  ((65 <=? n) && (n <=? 90) || (97 <=? n) && (n <=? 122)
   || (48 <=? n) && (n <=? 57) || (n =? 95))%N.

(** [toLowerCase] on one code unit: A-Z, and the upper-case letters of the
    Latin-1 block (all of 192..222 but the multiplication sign 215). *)
Definition lowerChar (c : ascii) : ascii :=
  let n := code c in
  if ((65 <=? n) && (n <=? 90)
      || (192 <=? n) && (n <=? 222) && negb (n =? 215))%N
  then ascii_of_N (n + 32) else c.

Fixpoint toLowerCase (s : string) : string :=
  match s with
  | EmptyString => EmptyString
  | String c r => String (lowerChar c) (toLowerCase r)
  end.

(** [s.includes(c)] for a one-character needle. *)
Fixpoint includes (c : ascii) (s : string) : bool :=
  match s with
  | EmptyString => false
  | String d r => if Ascii.eqb d c then true else includes c r
  end.

Fixpoint trimStart (s : string) : string :=
  match s with
  | EmptyString => EmptyString
  | String c r => if isWhiteSpace c then trimStart r else s
  end.

Definition trimEnd (s : string) : string :=
  String.rev (trimStart (String.rev s)).

Definition trim (s : string) : string := trimEnd (trimStart s).

(** [s.split(sep)[0]] for a one-character separator: the characters before
    the first separator, the whole string when there is none. *)
Fixpoint splitHead (sep : ascii) (s : string) : string :=
  match s with
  | EmptyString => EmptyString
  | String c r => if Ascii.eqb c sep then EmptyString
                  else String c (splitHead sep r)
  end.

(** The longest prefix of characters satisfying [p], and what follows. *)
Fixpoint span (p : ascii -> bool) (s : string) : string * string :=
  match s with
  | EmptyString => (EmptyString, EmptyString)
  | String c r =>
      if p c then let '(a, b) := span p r in (String c a, b)
      else (EmptyString, s)
  end.

(** [s.slice(0, -1)]: all but the last character. *)
Fixpoint sliceInit (s : string) : string :=
  match s with
  | EmptyString => EmptyString
  | String c EmptyString => EmptyString
  | String c r => String c (sliceInit r)
  end.

(** [array.includes(x)] on an array of strings. *)
Definition arrayIncludes (l : list string) (x : string) : bool :=
  existsb (String.eqb x) l.

(** Truthiness of an optional string: [undefined] and the empty string are
    falsy. *)
Definition truthy (o : option string) : bool :=
  match o with
  | Some s => negb (String.eqb s "")
  | None => false
  end.

(** [a || b] on strings. *)
Definition orElse (o : option string) (d : string) : string :=
  match o with
  | Some s => if String.eqb s "" then d else s
  | None => d
  end.

Definition CR : ascii := ascii_of_N 13.
Definition LF : ascii := ascii_of_N 10.
Definition BS : ascii := ascii_of_N 8.
Definition DEL : ascii := ascii_of_N 127.
Definition SP : ascii := ascii_of_N 32.

(** One-character strings and the line ends the services write. *)
Definition chr (c : ascii) : string := String c EmptyString.
Definition CRLF : string := String CR (String LF EmptyString).

(** *** [parseInt]

    A Number as [parseInt] returns it: [NaN], or the Number value of an
    integer, held by its sign and its magnitude; [-0] is [Integer true 0].
    Up to [2^53] the Number is the integer itself; above, it is the double
    nearest to it. *)
Inductive number : Type :=
| NaN
| Integer (negative : bool) (magnitude : N).

(** The value of a digit: [0-9], [a-z] and [A-Z]. *)
Definition digitValue (c : ascii) : option N :=
  let n := code c in
  if ((48 <=? n) && (n <=? 57))%N then Some (n - 48)%N
  else if ((97 <=? n) && (n <=? 122))%N then Some (n - 87)%N
  else if ((65 <=? n) && (n <=? 90))%N then Some (n - 55)%N
  else None.

(** The integer that the longest prefix of digits of the radix denotes,
    [None] when that prefix is empty. *)
Fixpoint readDigits (radix : N) (s : string) (acc : N) (seen : bool)
  : option N :=
  match s with
  | EmptyString => if seen then Some acc else None
  | String c r =>
      match digitValue c with
      | Some d =>
          if (d <? radix)%N then readDigits radix r (acc * radix + d)%N true
          else if seen then Some acc else None
      | None => if seen then Some acc else None
      end
  end.

(** The sign that [parseInt] reads and removes. *)
Definition signOf (s : string) : bool * string :=
  match s with
  | String c r =>
      if Ascii.eqb c "-" then (true, r)
      else if Ascii.eqb c "+" then (false, r)
      else (false, s)
  | EmptyString => (false, s)
  end.

(** The radix, none being passed: 16 after the prefix [0x] or [0X], which
    is removed, and 10 otherwise. *)
Definition radixOf (s : string) : N * string :=
  match s with
  | String c (String x r) =>
      if Ascii.eqb c "0" && (Ascii.eqb x "x" || Ascii.eqb x "X")
      then (16%N, r) else (10%N, s)
  | _ => (10%N, s)
  end.

(** [parseInt(s)]: leading white space is skipped, then a sign is read,
    then the radix, then the digits; what follows the digits is ignored,
    and without a digit the result is [NaN]. *)
Definition parseInt (s : string) : number :=
  let '(negative, s1) := signOf (trimStart s) in
  let '(radix, s2) := radixOf s1 in
  match readDigits radix s2 0 false with
  | Some m => Integer negative m
  | None => NaN
  end.

End Js.

(** ** The command interceptor

    [OrchestratorCommands._handleTerminalInput(ws, data)]. *)

Module Interceptor.

(** Calls the handler makes on its collaborators, in order. *)
Inductive effect : Type :=
| PtyWrite (data : string)         (* ptyProcess.write(data) returned *)
| PtyWriteThrew (data : string)    (* ptyProcess.write(data) raised *)
| HandleOrchestratorCommand (command : string)
    (* await this.handleOrchestratorCommand(ws, {command, terminalId}) *)
| ConsoleWarn
| ConsoleError.

(** The terminal info object held in [this.orchestratorTerminal]. *)
Record terminalRef : Type := {
  terminalId : string;
  ptyProcess : bool  (* whether the [ptyProcess] field is set *)
}.

(** The fields of [this] the handler reads and writes. *)
Record OrchestratorCommands : Type := {
  orchestratorTerminal : option terminalRef;
  inputBuffer : string
}.

Record world : Type := {
  self : OrchestratorCommands;
  trace : list effect;
  writeThrows : list bool
    (* outcomes of the coming [ptyProcess.write] calls: [true] raises;
       past the end of the script every write returns *)
}.

Definition emit (e : effect) : Eff world unit :=
  modify (fun w => {| self := self w; trace := trace w ++ [e];
                      writeThrows := writeThrows w |}).

Definition getBuffer : Eff world string :=
  w ← get; mret (inputBuffer (self w)).

Definition setBuffer (b : string) : Eff world unit :=
  modify (fun w =>
    {| self := {| orchestratorTerminal := orchestratorTerminal (self w);
                  inputBuffer := b |};
       trace := trace w; writeThrows := writeThrows w |}).

(** [this.orchestratorTerminal.ptyProcess.write(data)] *)
Definition ptyWrite (data : string) : Eff world unit :=
  fun w =>
    match writeThrows w with
    | true :: rest =>
        (Thrown "write failed",
         {| self := self w; trace := trace w ++ [PtyWriteThrew data];
            writeThrows := rest |})
    | _ =>
        (Returned tt,
         {| self := self w; trace := trace w ++ [PtyWrite data];
            writeThrows := tl (writeThrows w) |})
    end.

(** The list literal of the handler. *)
Definition orchestratorCommands : list string :=
  ["ohelp"; "status"; "spawn"; "spawn-claude"; "spawn-hidden";
   "send"; "broadcast"; "logs"; "destroy"; "handoff"; "queue"; "gordon"].

Definition prompt : string := "[Orchestrator]$ ".

Definition hasTerminator (data : string) : bool :=
  Js.includes Js.CR data || Js.includes Js.LF data.

Definition isBackspace (data : string) : bool :=
  String.eqb data (Js.chr Js.DEL) || String.eqb data (Js.chr Js.BS).

(** [fullCommand.split(' ')[0].toLowerCase()] *)
Definition firstWord (fullCommand : string) : string :=
  Js.toLowerCase (Js.splitHead Js.SP fullCommand).

Definition guard (this : OrchestratorCommands) : bool :=
  match orchestratorTerminal this with
  | Some t => ptyProcess t
  | None => false
  end.

(** Where a call of the handler stands when it gives up control: at its
    end, or at [await this.handleOrchestratorCommand(...)]. *)
Inductive progress : Type :=
| Finished
| Awaiting.

(** [_handleTerminalInput(ws, data)] up to its [await]: an [async] function
    runs without interruption from its call to its first [await]. *)
Definition _handleTerminalInput (data : string) : Eff world progress :=
  w ← get;
  if negb (guard (self w)) then emit ConsoleWarn;; mret Finished
  else
    tryCatch
      (buf ← getBuffer;
       setBuffer (buf +:+ data);;
       if hasTerminator data then
         buf ← getBuffer;
         let fullCommand := Js.trim buf in
         setBuffer "";;
         if Js.arrayIncludes orchestratorCommands (firstWord fullCommand)
         then
           ptyWrite (fullCommand +:+ Js.CRLF);;
           emit (HandleOrchestratorCommand fullCommand);;
           mret Awaiting
         else ptyWrite data;; mret Finished
       else if isBackspace data then
         buf ← getBuffer;
         when (0 <? String.length buf)%nat (setBuffer (Js.sliceInit buf));;
         ptyWrite data;; mret Finished
       else ptyWrite data;; mret Finished)
      (fun _ => emit ConsoleError;; mret Finished).

(** The rest of a call that awaited a directive, run once the promise of
    [handleOrchestratorCommand] has settled, still inside the [try] of the
    handler.  When the promise is rejected the [await] raises.  Otherwise
    the prompt is written, to the terminal read from [this] anew. *)
Definition afterCommand (rejected : bool) : Eff world unit :=
  tryCatch
    (if rejected then throw "handleOrchestratorCommand rejected"
     else
       w ← get;
       match orchestratorTerminal (self w) with
       | None => throw "Cannot read properties of null (reading 'ptyProcess')"
       | Some t =>
           if ptyProcess t then ptyWrite prompt
           else throw "Cannot read properties of undefined (reading 'write')"
       end)
    (fun _ => emit ConsoleError).

(** One call of the handler on the object [this], up to its [await] or its
    end: the object it leaves and the calls it made. *)
Definition handleInput (throws : list bool) (this : OrchestratorCommands)
    (data : string) : OrchestratorCommands * list effect :=
  let '(_, w) := _handleTerminalInput data
                   {| self := this; trace := []; writeThrows := throws |} in
  (self w, trace w).

(** Where that call stands. *)
Definition progressOf (throws : list bool) (this : OrchestratorCommands)
    (data : string) : progress :=
  match fst (_handleTerminalInput data
               {| self := this; trace := []; writeThrows := throws |}) with
  | Returned p => p
  | Thrown _ => Finished
  end.

(** The rest of a call that awaited, on the object [this] as it is by
    then. *)
Definition resumed (rejected : bool) (throws : list bool)
    (this : OrchestratorCommands) : OrchestratorCommands * list effect :=
  let '(_, w) := afterCommand rejected
                   {| self := this; trace := []; writeThrows := throws |} in
  (self w, trace w).

(** The data handed to the process by a trace. *)
Definition written (tr : list effect) : list string :=
  omap (fun e => match e with PtyWrite d => Some d | _ => None end) tr.

(** The directives a trace executes. *)
Definition executed (tr : list effect) : list string :=
  omap (fun e => match e with
                 | HandleOrchestratorCommand c => Some c
                 | _ => None
                 end) tr.

(** What the event loop runs on the object: a chunk is delivered, which
    runs a call of the handler up to its [await] or its end; or the
    directive awaited by a suspended call has settled, fulfilled or
    rejected, and the rest of that call runs.  Each comes with the outcomes
    of its writes. *)
Inductive event : Type :=
| Deliver (throws : list bool) (data : string)
| Settle (rejected : bool) (throws : list bool).

(** The object, the number of calls suspended at their [await], and what
    each event did. *)
Record session : Type := {
  object : OrchestratorCommands;
  suspended : nat;
  log : list (event * list effect)
}.

Definition step (s : session) (ev : event) : session :=
  match ev with
  | Deliver throws data =>
      let '(this', tr) := handleInput throws (object s) data in
      {| object := this';
         suspended :=
           match progressOf throws (object s) data with
           | Awaiting => S (suspended s)
           | Finished => suspended s
           end;
         log := log s ++ [(ev, tr)] |}
  | Settle rejected throws =>
      match suspended s with
      | O => s
      | S n =>
          let '(this', tr) := resumed rejected throws (object s) in
          {| object := this'; suspended := n; log := log s ++ [(ev, tr)] |}
      end
  end.

(** The events of a run, in the order the event loop takes them. *)
Definition run (evs : list event) (s : session) : session :=
  fold_left step evs s.

(** A session with [n] calls suspended. *)
Definition started (this : OrchestratorCommands) (n : nat) : session :=
  {| object := this; suspended := n; log := [] |}.

(** The chunks a run delivers. *)
Definition delivered (evs : list event) : list string :=
  omap (fun ev => match ev with
                  | Deliver _ data => Some data
                  | Settle _ _ => None
                  end) evs.




(** [handleOrchestratorInit] stores in [this.orchestratorTerminal] a record
    of the manager's table, which always carries its process, or leaves the
    field as it was when no terminal could be found. *)
Definition initWith (t : terminalRef) (this : OrchestratorCommands)
  : OrchestratorCommands :=
  {| orchestratorTerminal := Some t; inputBuffer := inputBuffer this |}.

(** [new OrchestratorCommands(terminalManager, claudeService)] *)
Definition constructor : OrchestratorCommands :=
  {| orchestratorTerminal := None; inputBuffer := "" |}.

(** The objects the service can be in. *)
Inductive reachable : OrchestratorCommands -> Prop :=
| reachable_new : reachable constructor
| reachable_init t this :
    reachable this -> ptyProcess t = true -> reachable (initWith t this)
| reachable_input throws this data :
    reachable this -> reachable (fst (handleInput throws this data))
| reachable_settle rejected throws this :
    reachable this -> reachable (fst (resumed rejected throws this)).

(** The object after the buffer has been cleared. *)
Definition cleared (this : OrchestratorCommands) : OrchestratorCommands :=
  {| orchestratorTerminal := orchestratorTerminal this; inputBuffer := "" |}.

(** An object whose terminal is in place, with [b] buffered. *)
Definition ready (b : string) : OrchestratorCommands :=
  {| orchestratorTerminal := Some {| terminalId := "orchestrator-1";
                                     ptyProcess := true |};
     inputBuffer := b |}.


(** The buffer an unterminated chunk leaves. *)
Definition buffered (b data : string) : string :=
  if isBackspace data
  then (if (0 <? String.length (b +:+ data))%nat
        then Js.sliceInit (b +:+ data) else b +:+ data)
  else b +:+ data.

Definition unterminated (data : string) : Prop := hasTerminator data = false.

(** The directive vocabulary as the specification lists it, set against
    the handler's [orchestratorCommands]. *)
Definition directiveVocabulary : list string :=
  ["spawn"; "spawn-claude"; "spawn-hidden"; "status"; "send"; "broadcast";
   "logs"; "handoff"; "queue"; "ohelp"; "help"; "claude"; "gordon"].

End Interceptor.


(** ** The session registry

    [TerminalManager]: the maps [terminals], [terminalTimeouts] and
    [agentHandoffs], the handlers of client messages, the handlers attached
    to each pseudo-terminal ([data], [exit]) and the idle-timer callback. *)

Module Registry.

(** The window of [_resetTerminalTimeout]: [30 * 60 * 1000] ms. *)
Definition idleWindow : Z := 30 * 60 * 1000.

(** Client sockets are told apart by a number. *)
Definition ws : Type := nat.

(** The [context] argument of [handoffToAgent]. *)
Module Ctx.
Record t : Type := {
  reason : option string;
  message : option string
}.
Definition empty : t := {| reason := None; message := None |}.
End Ctx.

(** A client message: the fields the manager reads; a field a message may
    lack is an option. *)
Module Msg.
Record t : Type := {
  id : string;
  terminalId : string;
  command : string;
  data : string;
  connectionType : option string;
  agentType : option string;
  agentName : option string;
  mcpServers : option (list string);
  systemPrompt : option string;
  maxTurns : option nat;
  isOrchestrator : bool;
  directory : option string;
  project : option string;
  cwd : option string
}.
End Msg.

(** The record stored in [terminals].  The pseudo-terminal of a record is
    named by the record's key. *)
Record terminalInfo : Type := {
  terminalId : string;
  instanceNumber : nat;
  clientWs : ws;
  agentName : string;
  created : Z;
  lastActivity : Z;
  outputBuffer : list (Z * string);
  isClaudeAgent : bool
}.

(** One entry of a handoff history. *)
Record transition : Type := {
  timestamp : Z;
  fromAgent : string;
  toAgent : string;
  context : Ctx.t;
  reason : string
}.

(** The record stored in [agentHandoffs]. *)
Record handoffInfo : Type := {
  currentAgent : string;
  history : list transition
}.

(** The manager.  A timer is stored as its deadline.  A timer is replaced
    in, or dropped from, the table in the same turn that clears it, and the
    callback of a timer that expires drops its own entry together with the
    terminal's. *)
Record TerminalManager : Type := {
  terminals : gmap string terminalInfo;
  terminalTimeouts : gmap string Z;
  agentHandoffs : gmap string handoffInfo;
  maxTerminals : nat
}.

(** [new TerminalManager(claudeService, maxTerminals)] *)
Definition constructor (maxTerminals : nat) : TerminalManager :=
  {| terminals := ∅; terminalTimeouts := ∅; agentHandoffs := ∅;
     maxTerminals := maxTerminals |}.

(** What [handoffToAgent] resolves to. *)
Record handoffResult : Type := {
  hr_terminalId : string;
  previousAgent : string;
  newAgent : string;
  handoffTime : Z;
  hr_context : Ctx.t
}.

(** Calls on collaborators. *)
Inductive effect : Type :=
| Mkdir (path : string)
| MkdirThrew (path : string)
| PtySpawn (terminalId file : string) (args : list string) (cwd : string)
| PtySpawnThrew (terminalId file : string)
| PtyWrite (terminalId data : string)
| PtyWriteThrew (terminalId data : string)
| PtyResize (terminalId : string) (cols rows : nat)
| PtyKill (terminalId : string)
| PtyKillThrew (terminalId : string)
| SetTimeout (terminalId : string) (deadline : Z)
| ClearTimeout (terminalId : string)
| SendTerminalCreated (to : ws) (id : string) (success : bool)
    (terminalId : option string) (error : option string)
| SendCommandExecuted (to : ws) (id terminalId : string) (success : bool)
    (error : option string)
| SendTerminalDestroyed (to : ws) (id terminalId : string) (success : bool)
    (text : string)
| SendTerminalOutput (to : ws) (terminalId data : string)
| SendTerminalExit (to : ws) (terminalId : string) (exitCode : Z)
| ConsoleError (text : string).

Record world : Type := {
  this : TerminalManager;
  trace : list effect;
  throws : list (option string)
    (* outcomes of the coming calls that may raise (mkdirSync, spawn, write,
       kill): [Some msg] raises an error with that message; past the end of
       the script every call returns *)
}.

Definition emit (e : effect) : Eff world unit :=
  modify (fun w => {| this := this w; trace := trace w ++ [e];
                      throws := throws w |}).

Definition getThis : Eff world TerminalManager := w ← get; mret (this w).

Definition setThis (m : TerminalManager) : Eff world unit :=
  modify (fun w => {| this := m; trace := trace w; throws := throws w |}).

(** A call that may raise: [ok] is traced when it returns, [ko] when it
    raises. *)
Definition external (ok ko : effect) : Eff world unit :=
  fun w =>
    match throws w with
    | Some msg :: rest =>
        (Thrown msg, {| this := this w; trace := trace w ++ [ko];
                        throws := rest |})
    | _ =>
        (Returned tt, {| this := this w; trace := trace w ++ [ok];
                         throws := tl (throws w) |})
    end.

Definition ptyWrite (terminalId data : string) : Eff world unit :=
  external (PtyWrite terminalId data) (PtyWriteThrew terminalId data).

Definition ptyKill (terminalId : string) : Eff world unit :=
  external (PtyKill terminalId) (PtyKillThrew terminalId).

Definition mkdirSync (path : string) : Eff world unit :=
  external (Mkdir path) (MkdirThrew path).

Definition ptySpawn (terminalId file : string) (args : list string)
    (cwd : string) : Eff world unit :=
  external (PtySpawn terminalId file args cwd) (PtySpawnThrew terminalId file).

(** Updates of the three maps. *)
Definition setTerminals (f : gmap string terminalInfo -> gmap string terminalInfo)
  : Eff world unit :=
  m ← getThis;
  setThis {| terminals := f (terminals m);
             terminalTimeouts := terminalTimeouts m;
             agentHandoffs := agentHandoffs m;
             maxTerminals := maxTerminals m |}.

Definition setTimeouts (f : gmap string Z -> gmap string Z) : Eff world unit :=
  m ← getThis;
  setThis {| terminals := terminals m;
             terminalTimeouts := f (terminalTimeouts m);
             agentHandoffs := agentHandoffs m;
             maxTerminals := maxTerminals m |}.

Definition setHandoffs (f : gmap string handoffInfo -> gmap string handoffInfo)
  : Eff world unit :=
  m ← getThis;
  setThis {| terminals := terminals m;
             terminalTimeouts := terminalTimeouts m;
             agentHandoffs := f (agentHandoffs m);
             maxTerminals := maxTerminals m |}.

(** [_resetTerminalTimeout(terminalId)] at clock [now]. *)
Definition _resetTerminalTimeout (now : Z) (terminalId : string)
  : Eff world unit :=
  m ← getThis;
  when (bool_decide (is_Some (terminalTimeouts m !! terminalId)))
       (emit (ClearTimeout terminalId));;
  emit (SetTimeout terminalId (now + idleWindow));;
  setTimeouts (insert terminalId (now + idleWindow)).

(** [clearTimeout(this.terminalTimeouts.get(id)); this.terminalTimeouts.delete(id)] *)
Definition clearAndDeleteTimeout (terminalId : string) : Eff world unit :=
  m ← getThis;
  when (bool_decide (is_Some (terminalTimeouts m !! terminalId)))
       (emit (ClearTimeout terminalId));;
  setTimeouts (delete terminalId).

(** The callback armed by [_resetTerminalTimeout], run when the timer
    stored for [terminalId] expires. *)
Definition onTimeout (terminalId : string) : Eff world unit :=
  m ← getThis;
  match terminals m !! terminalId with
  | Some terminalInfo =>
      ptyKill terminalId;;
      setTerminals (delete terminalId);;
      setTimeouts (delete terminalId);;
      setHandoffs (delete terminalId)
  | None => mret tt
  end.

(** [`/workspaces/agent-${instanceNumber}`] *)
Definition agentWorkspacePath (instanceNumber : nat) : string :=
  "/workspaces/agent-" +:+ pretty instanceNumber.

(** [message.agentType === "claude" || message.mcpServers], as a truth
    value: an array, even an empty one, is truthy. *)
Definition isClaudeAgentOf (message : Msg.t) : bool :=
  match Msg.agentType message with
  | Some t => String.eqb t "claude"
  | None => false
  end || bool_decide (is_Some (Msg.mcpServers message)).

(** The arguments of the [claude] executable. *)
Definition claudeArgsOf (message : Msg.t) : list string :=
  match Msg.mcpServers message with
  | Some (s :: l) => ["--mcp-servers"; String.concat "," (s :: l)]
  | _ => []
  end ++
  (if Js.truthy (Msg.systemPrompt message)
   then ["--append-system-prompt"; Js.orElse (Msg.systemPrompt message) ""]
   else []) ++
  match Msg.maxTurns message with
  | Some (S n) => ["--max-turns"; pretty (S n)]
  | _ => []
  end.

(** The start of [_createTerminalProcess]: the branch that spawns the
    pseudo-terminal.  In the shell branch the options object of [pty.spawn]
    reads [agentWorkspace], a [const] of the agent branch's block; no such
    name is in scope there, so evaluating the options raises a
    ReferenceError before [pty.spawn] is called. *)
Definition spawnProcess (terminalId : string) (instanceNumber : nat)
    (message : Msg.t) : Eff world unit :=
  if isClaudeAgentOf message then
    let agentWorkspace := agentWorkspacePath instanceNumber in
    mkdirSync agentWorkspace;;
    ptySpawn terminalId "claude" (claudeArgsOf message) agentWorkspace
  else
    (if Msg.isOrchestrator message then mret tt
     else if Js.truthy (Msg.directory message) then mret tt
     else if Js.truthy (Msg.project message) then mret tt
     else if Js.truthy (Msg.cwd message) then mret tt
     else mkdirSync (agentWorkspacePath instanceNumber));;
    throw "agentWorkspace is not defined".

(** The working directory the shell branch selects. *)
Definition workingDirOf (message : Msg.t) (instanceNumber : nat) : string :=
  if Msg.isOrchestrator message then "/"
  else if Js.truthy (Msg.directory message)
       then Js.orElse (Msg.directory message) ""
  else if Js.truthy (Msg.project message)
       then "/projects/" +:+ Js.orElse (Msg.project message) ""
  else if Js.truthy (Msg.cwd message) then Js.orElse (Msg.cwd message) ""
  else agentWorkspacePath instanceNumber.

(** [message.agentName || (isClaudeAgent ? `claude-agent-${n}` : `agent-${n}`)] *)
Definition agentNameOf (message : Msg.t) (instanceNumber : nat) : string :=
  Js.orElse (Msg.agentName message)
    (if isClaudeAgentOf message
     then "claude-agent-" +:+ pretty instanceNumber
     else "agent-" +:+ pretty instanceNumber).

(** The five start-up lines written to a shell terminal.  The working
    directory they quote is read from the process options. *)
Definition setupLines (instanceNumber : nat) (cwd : string) : list string :=
  ["# Agent " +:+ pretty instanceNumber +:+ " Workspace: " +:+ cwd +:+ Js.CRLF;
   "# You are restricted to: " +:+ cwd +:+ Js.CRLF;
   "# Claude will not be able to access files outside this directory."
     +:+ Js.CRLF;
   "# Type 'claude' to start AI assistance." +:+ Js.CRLF;
   "# Terminal " +:+ pretty instanceNumber
     +:+ " ready. Isolated environment active." +:+ Js.CRLF +:+ Js.CRLF].

Fixpoint writeAll (terminalId : string) (lines : list string)
  : Eff world unit :=
  match lines with
  | [] => mret tt
  | l :: rest => ptyWrite terminalId l;; writeAll terminalId rest
  end.

(** [_createTerminalProcess(clientWs, terminalId, instanceNumber, message)]
    at clock [now].  [_setupTerminalEventHandlers] attaches [onData] and
    [onExit] below to the new process. *)
Definition _createTerminalProcess (now : Z) (clientWs : ws)
    (terminalId : string) (instanceNumber : nat) (message : Msg.t)
  : Eff world unit :=
  let isClaudeAgent := isClaudeAgentOf message in
  spawnProcess terminalId instanceNumber message;;
  let terminalInfo :=
    {| terminalId := terminalId;
       instanceNumber := instanceNumber;
       clientWs := clientWs;
       agentName := agentNameOf message instanceNumber;
       created := now;
       lastActivity := now;
       outputBuffer := [];
       isClaudeAgent := isClaudeAgent |} in
  setTerminals (insert terminalId terminalInfo);;
  _resetTerminalTimeout now terminalId;;
  when (negb isClaudeAgent)
       (writeAll terminalId
          (setupLines instanceNumber (workingDirOf message instanceNumber)));;
  emit (SendTerminalCreated clientWs (Msg.id message) true
          (Some terminalId) None).

(** The three refusals of [createTerminal]. *)
Definition maxReached (maxTerminals : nat) : string :=
  "Maximum number of terminals (" +:+ pretty maxTerminals +:+ ") reached".

Definition notImplemented (connectionType : string) : string :=
  "Connection type '" +:+ connectionType
    +:+ "' not implemented. Only local terminals are supported.".

(** [createTerminal(clientWs, message)] at clock [now]; [uuid] is the value
    [uuidv4()] returns. *)
Definition createTerminal (now : Z) (uuid : string) (clientWs : ws)
    (message : Msg.t) : Eff world unit :=
  m ← getThis;
  if (maxTerminals m <=? size (terminals m))%nat then
    emit (SendTerminalCreated clientWs (Msg.id message) false None
            (Some (maxReached (maxTerminals m))))
  else if Js.truthy (Msg.connectionType message)
          && negb (String.eqb (Js.orElse (Msg.connectionType message) "")
                              "local") then
    emit (SendTerminalCreated clientWs (Msg.id message) false None
            (Some (notImplemented
                     (Js.orElse (Msg.connectionType message) ""))))
  else
    let terminalId := "terminal-" +:+ uuid in
    let instanceNumber := (size (terminals m) + 1)%nat in
    tryCatch
      (_createTerminalProcess now clientWs terminalId instanceNumber message)
      (fun error =>
         emit (ConsoleError "Failed to create terminal");;
         emit (SendTerminalCreated clientWs (Msg.id message) false None
                 (Some error))).

(** [handleTerminalCommand(clientWs, message)].  The source appends the two
    characters backslash and r to the command. *)
Definition handleTerminalCommand (now : Z) (clientWs : ws) (message : Msg.t)
  : Eff world unit :=
  let terminalId := Msg.terminalId message in
  m ← getThis;
  match terminals m !! terminalId with
  | None =>
      emit (SendCommandExecuted clientWs (Msg.id message) terminalId false
              (Some "Terminal not found"))
  | Some terminalInfo =>
      tryCatch
        (ptyWrite terminalId (Msg.command message +:+ "\r");;
         emit (SendCommandExecuted clientWs (Msg.id message) terminalId true
                 None);;
         _resetTerminalTimeout now terminalId)
        (fun error =>
           emit (SendCommandExecuted clientWs (Msg.id message) terminalId
                   false (Some error)))
  end.

(** [handleTerminalInput(clientWs, message)] *)
Definition handleTerminalInput (now : Z) (clientWs : ws) (message : Msg.t)
  : Eff world unit :=
  m ← getThis;
  match terminals m !! Msg.terminalId message with
  | None => emit (ConsoleError "Terminal not found")
  | Some terminalInfo =>
      tryCatch
        (ptyWrite (Msg.terminalId message) (Msg.data message);;
         _resetTerminalTimeout now (Msg.terminalId message))
        (fun error => emit (ConsoleError "Error writing to terminal"))
  end.

(** [handleDestroyTerminal(clientWs, message)] *)
Definition handleDestroyTerminal (clientWs : ws) (message : Msg.t)
  : Eff world unit :=
  let terminalId := Msg.terminalId message in
  m ← getThis;
  match terminals m !! terminalId with
  | None =>
      emit (SendTerminalDestroyed clientWs (Msg.id message) terminalId false
              "Terminal not found")
  | Some terminalInfo =>
      tryCatch
        (ptyKill terminalId;;
         setTerminals (delete terminalId);;
         clearAndDeleteTimeout terminalId;;
         setHandoffs (delete terminalId);;
         emit (SendTerminalDestroyed clientWs (Msg.id message) terminalId true
                 "Terminal destroyed successfully"))
        (fun error =>
           emit (ConsoleError "Error destroying terminal");;
           emit (SendTerminalDestroyed clientWs (Msg.id message) terminalId
                   false error))
  end.

(** The banner lines of a handoff. *)
Definition handoffBanner (previousAgent newAgentName : string) : string :=
  Js.CRLF +:+ "🔄 Agent handoff: " +:+ previousAgent +:+ " → "
    +:+ newAgentName +:+ Js.CRLF.

Definition contextBanner (message : string) : string :=
  "📝 Context: " +:+ message +:+ Js.CRLF.

(** [handoffToAgent(terminalId, newAgentName, context)] at clock [now].  The
    function has no [await]: it runs to its end, or to the exception that
    rejects its promise, within the caller's turn. *)
Definition handoffToAgent (now : Z) (terminalId newAgentName : string)
    (context : Ctx.t) : Eff world handoffResult :=
  m ← getThis;
  match terminals m !! terminalId with
  | None => throw ("Terminal " +:+ terminalId +:+ " not found for handoff")
  | Some terminalInfo =>
      when (negb (bool_decide (is_Some (agentHandoffs m !! terminalId))))
           (setHandoffs (insert terminalId
              {| currentAgent := Js.orElse (Some (agentName terminalInfo)) "bash";
                 history := [] |}));;
      m ← getThis;
      let handoffInfo :=
        default {| currentAgent := ""; history := [] |}
                (agentHandoffs m !! terminalId) in
      (let previousAgent := currentAgent handoffInfo in
          setHandoffs (insert terminalId
            {| currentAgent := newAgentName;
               history := history handoffInfo ++
                 [{| timestamp := now;
                     fromAgent := previousAgent;
                     toAgent := newAgentName;
                     context := context;
                     reason := Js.orElse (Ctx.reason context)
                                 "Manual handoff" |}] |});;
          setTerminals (insert terminalId
            {| terminalId := Registry.terminalId terminalInfo;
               instanceNumber := instanceNumber terminalInfo;
               clientWs := clientWs terminalInfo;
               agentName := newAgentName;
               created := created terminalInfo;
               lastActivity := lastActivity terminalInfo;
               outputBuffer := outputBuffer terminalInfo;
               isClaudeAgent := isClaudeAgent terminalInfo |});;
          ptyWrite terminalId (handoffBanner previousAgent newAgentName);;
          when (Js.truthy (Ctx.message context))
               (ptyWrite terminalId
                  (contextBanner (Js.orElse (Ctx.message context) "")));;
          ptyWrite terminalId Js.CRLF;;
          mret {| hr_terminalId := terminalId;
                  previousAgent := previousAgent;
                  newAgent := newAgentName;
                  handoffTime := now;
                  hr_context := context |})
  end.

(** [getHandoffHistory(terminalId)]; [currentAgent: null] is [None]. *)
Definition getHandoffHistory (m : TerminalManager) (terminalId : string)
  : option string * list transition :=
  match agentHandoffs m !! terminalId with
  | None => (None, [])
  | Some handoffInfo => (Some (currentAgent handoffInfo), history handoffInfo)
  end.

(** *** The output monitor

    [/handoff-to:(\w+)(?:\s+(.+))?/i] applied with [String.prototype.match]:
    the leftmost match, the name as long as it can be, then the longest run
    of white space after which at least one character other than a line
    terminator follows, and that run of characters to its end. *)

(** The literal, letters compared without case; the rest of the subject
    after it. *)
Fixpoint literalCI (lit s : string) : option string :=
  match lit, s with
  | EmptyString, _ => Some s
  | String a l, String b r =>
      if Ascii.eqb (Js.lowerChar b) a then literalCI l r else None
  | String _ _, EmptyString => None
  end.

(** [(.+)] at the start of [s]. *)
Definition dotPlus (s : string) : option string :=
  match fst (Js.span (fun c => negb (Js.isLineTerminator c)) s) with
  | EmptyString => None
  | cap => Some cap
  end.

(** [\s+(.+)] at the start of [s]: the white space first tried as long as
    possible, then one character shorter, and so on. *)
Fixpoint spacesThenText (s : string) : option string :=
  match s with
  | EmptyString => None
  | String c r =>
      if Js.isWhiteSpace c then
        match spacesThenText r with
        | Some cap => Some cap
        | None => dotPlus r
        end
      else None
  end.

(** The pattern anchored at the start of [s]: captures 1 and 2. *)
Definition handoffPatternAt (s : string) : option (string * option string) :=
  match literalCI "handoff-to:" s with
  | None => None
  | Some r =>
      match Js.span Js.isWordChar r with
      | (EmptyString, _) => None
      | (name, rest) => Some (name, spacesThenText rest)
      end
  end.

(** [data.toString().match(handoffPattern)] *)
Fixpoint handoffPattern (s : string) : option (string * option string) :=
  match handoffPatternAt s with
  | Some m => Some m
  | None =>
      match s with
      | EmptyString => None
      | String _ r => handoffPattern r
      end
  end.

(** [_monitorAgentOutput(terminalId, data)] at clock [now].  A rejection of
    the handoff is logged by the [catch] attached to its promise.  The log
    files written by [_logTerminalOutput] are not traced. *)
Definition _monitorAgentOutput (now : Z) (terminalId data : string)
  : Eff world unit :=
  match handoffPattern data with
  | Some (newAgentName, text) =>
      let context :=
        {| Ctx.reason := Some "Agent requested handoff";
           Ctx.message := Some (Js.orElse text "No context provided") |} in
      tryCatch
        (handoffToAgent now terminalId newAgentName context;; mret tt)
        (fun error => emit (ConsoleError "Error in agent handoff"))
  | None => mret tt
  end.

(** [outputBuffer.push(entry)] followed by one [shift()] when the length
    has passed 1000. *)
Definition pushBounded (buf : list (Z * string)) (entry : Z * string)
  : list (Z * string) :=
  let buf' := buf ++ [entry] in
  if (1000 <? length buf')%nat then tl buf' else buf'.

(** The [data] handler of the pseudo-terminal created for [terminalId] on
    behalf of [clientWs].  The handler writes to the record it was created
    with; the model writes to the record under that key, and has nothing
    to update once the record has left the table. *)
Definition onData (now : Z) (terminalId : string) (clientWs : ws)
    (data : string) : Eff world unit :=
  _monitorAgentOutput now terminalId data;;
  emit (SendTerminalOutput clientWs terminalId data);;
  setTerminals (fun ts =>
    match ts !! terminalId with
    | Some terminalInfo =>
        <[terminalId :=
            {| terminalId := Registry.terminalId terminalInfo;
               instanceNumber := instanceNumber terminalInfo;
               clientWs := Registry.clientWs terminalInfo;
               agentName := agentName terminalInfo;
               created := created terminalInfo;
               lastActivity := now;
               outputBuffer :=
                 pushBounded (outputBuffer terminalInfo) (now, data);
               isClaudeAgent := isClaudeAgent terminalInfo |}]> ts
    | None => ts
    end).

(** The [exit] handler of the same pseudo-terminal. *)
Definition onExit (terminalId : string) (clientWs : ws) (exitCode : Z)
  : Eff world unit :=
  emit (SendTerminalExit clientWs terminalId exitCode);;
  setTerminals (delete terminalId);;
  clearAndDeleteTimeout terminalId;;
  setHandoffs (delete terminalId).

(** [handleTerminalResize(clientWs, message)]; the size is the one the
    message carries. *)
Definition handleTerminalResize (cols rows : nat) (message : Msg.t)
  : Eff world unit :=
  m ← getThis;
  match terminals m !! Msg.terminalId message with
  | None => emit (ConsoleError "Terminal not found for resize")
  | Some _ =>
      emit (PtyResize (Msg.terminalId message)
              (if (cols =? 0)%nat then 80%nat else cols)
              (if (rows =? 0)%nat then 24%nat else rows))
  end.

(** *** Turns of the event loop *)

Inductive event : Type :=
| Create (now : Z) (uuid : string) (clientWs : ws) (message : Msg.t)
| Command (now : Z) (clientWs : ws) (message : Msg.t)
| Input (now : Z) (clientWs : ws) (message : Msg.t)
| Resize (cols rows : nat) (message : Msg.t)
| Destroy (clientWs : ws) (message : Msg.t)
| Handoff (now : Z) (terminalId newAgentName : string) (context : Ctx.t)
| Data (now : Z) (terminalId : string) (clientWs : ws) (data : string)
| Exit (terminalId : string) (clientWs : ws) (exitCode : Z)
| Expire (terminalId : string).

Definition handler (ev : event) : Eff world unit :=
  match ev with
  | Create now uuid clientWs message => createTerminal now uuid clientWs message
  | Command now clientWs message => handleTerminalCommand now clientWs message
  | Input now clientWs message => handleTerminalInput now clientWs message
  | Resize cols rows message => handleTerminalResize cols rows message
  | Destroy clientWs message => handleDestroyTerminal clientWs message
  | Handoff now terminalId newAgentName context =>
      handoffToAgent now terminalId newAgentName context;; mret tt
  | Data now terminalId clientWs data => onData now terminalId clientWs data
  | Exit terminalId clientWs exitCode => onExit terminalId clientWs exitCode
  | Expire terminalId => onTimeout terminalId
  end.

(** One turn: the manager after the handler has run, with the calls the
    handler made.  An exception that leaves the handler ends the turn. *)
Definition turn (script : list (option string)) (ev : event)
    (m : TerminalManager) : TerminalManager * list effect :=
  let '(_, w) := handler ev {| this := m; trace := []; throws := script |} in
  (this w, trace w).

Definition after (script : list (option string)) (ev : event)
    (m : TerminalManager) : TerminalManager :=
  fst (turn script ev m).

(** Managers reached from a fresh one by any turns, under any outcomes of
    the calls that may raise. *)
Inductive reachable (maxTerminals : nat) : TerminalManager -> Prop :=
| reach_new : reachable maxTerminals (constructor maxTerminals)
| reach_turn script ev m :
    reachable maxTerminals m ->
    reachable maxTerminals (after script ev m).


(** The managers a turn can leave. *)
Definition removed (id : string) (m : TerminalManager) : TerminalManager :=
  {| terminals := delete id (terminals m);
     terminalTimeouts := delete id (terminalTimeouts m);
     agentHandoffs := delete id (agentHandoffs m);
     maxTerminals := maxTerminals m |}.

Definition armed (id : string) (deadline : Z) (m : TerminalManager)
  : TerminalManager :=
  {| terminals := terminals m;
     terminalTimeouts := <[id := deadline]> (terminalTimeouts m);
     agentHandoffs := agentHandoffs m;
     maxTerminals := maxTerminals m |}.

Definition registered (now : Z) (clientWs : ws) (id : string) (message : Msg.t)
    (m : TerminalManager) : TerminalManager :=
  {| terminals :=
       <[id := {| terminalId := id;
                  instanceNumber := (size (terminals m) + 1)%nat;
                  clientWs := clientWs;
                  agentName := agentNameOf message (size (terminals m) + 1)%nat;
                  created := now;
                  lastActivity := now;
                  outputBuffer := [];
                  isClaudeAgent := isClaudeAgentOf message |}]> (terminals m);
     terminalTimeouts := <[id := now + idleWindow]> (terminalTimeouts m);
     agentHandoffs := agentHandoffs m;
     maxTerminals := maxTerminals m |}.

Definition renamed (newAgentName : string) (ti : terminalInfo) : terminalInfo :=
  {| terminalId := terminalId ti;
     instanceNumber := instanceNumber ti;
     clientWs := clientWs ti;
     agentName := newAgentName;
     created := created ti;
     lastActivity := lastActivity ti;
     outputBuffer := outputBuffer ti;
     isClaudeAgent := isClaudeAgent ti |}.

Definition recordOf (m : TerminalManager) (id : string) (ti : terminalInfo)
  : handoffInfo :=
  default {| currentAgent := Js.orElse (Some (agentName ti)) "bash";
             history := [] |}
          (agentHandoffs m !! id).

Definition transitionOf (now : Z) (from to : string) (context : Ctx.t)
  : transition :=
  {| timestamp := now; fromAgent := from; toAgent := to; context := context;
     reason := Js.orElse (Ctx.reason context) "Manual handoff" |}.

Definition handedOff (now : Z) (id newAgentName : string) (context : Ctx.t)
    (ti : terminalInfo) (m : TerminalManager) : TerminalManager :=
  {| terminals := <[id := renamed newAgentName ti]> (terminals m);
     terminalTimeouts := terminalTimeouts m;
     agentHandoffs :=
       <[id := {| currentAgent := newAgentName;
                  history := history (recordOf m id ti) ++
                    [transitionOf now (currentAgent (recordOf m id ti))
                       newAgentName context] |}]> (agentHandoffs m);
     maxTerminals := maxTerminals m |}.

Definition heard (now : Z) (data : string) (ti : terminalInfo) : terminalInfo :=
  {| terminalId := terminalId ti;
     instanceNumber := instanceNumber ti;
     clientWs := clientWs ti;
     agentName := agentName ti;
     created := created ti;
     lastActivity := now;
     outputBuffer := pushBounded (outputBuffer ti) (now, data);
     isClaudeAgent := isClaudeAgent ti |}.

Definition received (now : Z) (id data : string) (m : TerminalManager)
  : TerminalManager :=
  {| terminals :=
       match terminals m !! id with
       | Some ti => <[id := heard now data ti]> (terminals m)
       | None => terminals m
       end;
     terminalTimeouts := terminalTimeouts m;
     agentHandoffs := agentHandoffs m;
     maxTerminals := maxTerminals m |}.

(** The context the monitor hands over. *)
Definition requestedContext (text : option string) : Ctx.t :=
  {| Ctx.reason := Some "Agent requested handoff";
     Ctx.message := Some (Js.orElse text "No context provided") |}.

(** [message.connectionType && message.connectionType !== "local"] *)
Definition nonLocal (message : Msg.t) : bool :=
  Js.truthy (Msg.connectionType message)
  && negb (String.eqb (Js.orElse (Msg.connectionType message) "") "local").

(** The first two calls of the script return. *)
Definition returns2 (script : list (option string)) : bool :=
  match script with
  | Some _ :: _ => false
  | _ :: Some _ :: _ => false
  | _ => true
  end.

(** What holds of every manager the service can reach. *)
Record Inv (m : TerminalManager) : Prop := {
  inv_timeouts id :
    terminals m !! id = None -> terminalTimeouts m !! id = None;
  inv_handoffs id :
    terminals m !! id = None -> agentHandoffs m !! id = None;
  inv_current id h :
    agentHandoffs m !! id = Some h ->
    toAgent <$> last (history h) = Some (currentAgent h);
  inv_size : (size (terminals m) <= maxTerminals m)%nat;
  inv_named id ti :
    terminals m !! id = Some ti -> agentHandoffs m !! id = None ->
    agentName ti <> ""
}.

(** The turns that take the terminal [id] out of the table. *)
Definition removes (ev : event) (id : string) : Prop :=
  match ev with
  | Destroy _ message => Msg.terminalId message = id
  | Exit terminalId _ _ => terminalId = id
  | Expire terminalId => terminalId = id
  | _ => False
  end.

(** The two of them the specification names. *)
Definition destroysOrExits (ev : event) (id : string) : Prop :=
  match ev with
  | Destroy _ message => Msg.terminalId message = id
  | Exit terminalId _ _ => terminalId = id
  | _ => False
  end.

(** The first call of the script returns. *)
Definition returns (script : list (option string)) : Prop :=
  match script with Some _ :: _ => False | _ => True end.


(** A request for an agent session named [name]. *)
Definition agentRequest (id name : string) : Msg.t :=
  {| Msg.id := id; Msg.terminalId := ""; Msg.command := ""; Msg.data := "";
     Msg.connectionType := None; Msg.agentType := Some "claude";
     Msg.agentName := Some name; Msg.mcpServers := None;
     Msg.systemPrompt := None; Msg.maxTurns := None;
     Msg.isOrchestrator := false; Msg.directory := None;
     Msg.project := None; Msg.cwd := None |}.


(** A message that names a terminal. *)
Definition about (id terminalId data : string) : Msg.t :=
  {| Msg.id := id; Msg.terminalId := terminalId; Msg.command := data;
     Msg.data := data;
     Msg.connectionType := None; Msg.agentType := None;
     Msg.agentName := None; Msg.mcpServers := None;
     Msg.systemPrompt := None; Msg.maxTurns := None;
     Msg.isOrchestrator := false; Msg.directory := None;
     Msg.project := None; Msg.cwd := None |}.

(** A manager of capacity 2 holding one agent session, created at clock 0. *)
Definition oneSession : TerminalManager :=
  after [] (Create 0 "u1" 7%nat (agentRequest "r1" "worker")) (constructor 2).

(** A call of [handoffToAgent] on a fixed terminal: the clock, the new
    agent, the context, and the outcomes of its writes. *)
Record handoffCall : Type := {
  at_ : Z;
  to : string;
  with_ : Ctx.t;
  outcomes : list (option string)
}.

Definition handoffsTo (id : string) (calls : list handoffCall)
    (m : TerminalManager) : TerminalManager :=
  fold_left
    (fun m c => after (outcomes c) (Handoff (at_ c) id (to c) (with_ c)) m)
    calls m.

(** The agent [handoffToAgent] takes as [previousAgent]: the current agent
    of the record, or for want of a record the name the terminal carries. *)
Definition currentAgentOf (m : TerminalManager) (id : string) : option string :=
  match agentHandoffs m !! id with
  | Some h => Some (currentAgent h)
  | None => (fun ti => Js.orElse (Some (agentName ti)) "bash") <$> terminals m !! id
  end.

(** The process of [id] emits the chunks [outs] one after another, each at
    its own clock. *)
Definition hears (id : string) (clientWs : ws) (outs : list (Z * string))
    (m : TerminalManager) : TerminalManager :=
  fold_left (fun m o => after [] (Data (fst o) id clientWs (snd o)) m) outs m.

(** The chunk of the specification's scenario. *)
Definition scenarioChunk : string :=
  "handoff-to:reviewer please check PR" +:+ Js.chr Js.LF.

(** Two calls on a session. *)
Definition twoCalls : list handoffCall :=
  [{| at_ := 10; to := "reviewer"; with_ := Ctx.empty; outcomes := [] |};
   {| at_ := 20; to := "tester"; with_ := Ctx.empty;
      outcomes := [Some "write failed"] |}].

End Registry.

(** ** The message gateway

    [MessageRouter.handleMessage] and [MessageRouter.routeMessage], with
    [sendError] and [sendRawMessage] of backend/utils/WebSocketUtils.js. *)

Module Router.

#[local] Set Warnings "-register-all".

(** The values [JSON.parse] returns.  An object is the list of its
    properties. *)
Inductive json : Type :=
| JNull
| JBool (b : bool)
| JNumber (n : Z)
| JString (s : string)
| JArray (items : list json)
| JObject (properties : list (string * json)).

(** A text frame, given by what [JSON.parse(data.toString())] makes of it:
    a SyntaxError, or a value. *)
Inductive frame : Type :=
| Malformed (text : string)
| Parsed (value : json).

(** [WebSocket.OPEN] and [WebSocket.CLOSING]. *)
Definition OPEN : nat := 1.
Definition CLOSING : nat := 2.

(** What the code registered with the router does when called, as far as
    the router and the socket see it. *)
Inductive action : Type :=
| Send (message : json)     (* a send through WebSocketUtils *)
| Close                     (* ws.close() *)
| Raise (err : string).     (* throw new Error(err) *)

(** A middleware may also await its continuation. *)
Inductive maction : Type :=
| Act (a : action)
| Next.

Abbreviation handlerFn := (json -> list action).
Abbreviation middlewareFn := (json -> list maction).

Record MessageRouter : Type := {
  handlers : gmap string handlerFn;
  middleware : list middlewareFn
}.

(** [new MessageRouter()], [registerHandler] and [addMiddleware]. *)
Definition constructor : MessageRouter :=
  {| handlers := ∅; middleware := [] |}.

Definition registerHandler (messageType : string) (handler : handlerFn)
    (r : MessageRouter) : MessageRouter :=
  {| handlers := <[messageType := handler]> (handlers r);
     middleware := middleware r |}.

Definition addMiddleware (middlewareFunction : middlewareFn)
    (r : MessageRouter) : MessageRouter :=
  {| handlers := handlers r;
     middleware := middleware r ++ [middlewareFunction] |}.

(** The socket during one call of [handleMessage], with the local
    [middlewareIndex] of that call. *)
Record world : Type := {
  readyState : nat;
  sent : list json;
  middlewareIndex : nat
}.

(** [sendRawMessage(ws, message)]: nothing is sent unless the socket is
    open. *)
Definition sendRawMessage (message : json) : Eff world unit :=
  modify (fun w =>
    if (readyState w =? OPEN)%nat
    then {| readyState := readyState w; sent := sent w ++ [message];
            middlewareIndex := middlewareIndex w |}
    else w).

(** [sendError(ws, error)]: the object [{ type: 'error', error }]. *)
Definition errorMessage (error : string) : json :=
  JObject [("type", JString "error"); ("error", JString error)].

Definition sendError (error : string) : Eff world unit :=
  sendRawMessage (errorMessage error).

Definition close : Eff world unit :=
  modify (fun w =>
    {| readyState := if (readyState w =? OPEN)%nat then CLOSING
                     else readyState w;
       sent := sent w; middlewareIndex := middlewareIndex w |}).

Definition setIndex (i : nat) : Eff world unit :=
  modify (fun w => {| readyState := readyState w; sent := sent w;
                      middlewareIndex := i |}).

(** Property lookup on a parsed object. *)
Fixpoint property (name : string) (properties : list (string * json))
  : option json :=
  match properties with
  | [] => None
  | (k, v) :: rest => if String.eqb k name then Some v else property name rest
  end.

(** [message.type] on a value other than [null]: [undefined] when the
    value has no such property. *)
Definition messageType (message : json) : option json :=
  match message with
  | JObject properties => property "type" properties
  | _ => None
  end.

(** [message.type]: a TypeError on [null]. *)
Definition typeOf (message : json) : Eff world (option json) :=
  match message with
  | JNull => throw "Cannot read properties of null (reading 'type')"
  | _ => mret (messageType message)
  end.

(** A value inside a template literal. *)
Fixpoint toString (v : json) : string :=
  match v with
  | JNull => "null"
  | JBool true => "true"
  | JBool false => "false"
  | JNumber n => pretty n
  | JString s => s
  | JArray items =>
      String.concat ","
        (map (fun x => match x with JNull => "" | _ => toString x end) items)
  | JObject _ => "[object Object]"
  end.

Definition typeString (ty : option json) : string :=
  match ty with
  | Some v => toString v
  | None => "undefined"
  end.

(** [this.handlers.get(message.type)]: the keys are strings, and a key is
    found by a value identical to it. *)
Definition handlerFor (r : MessageRouter) (ty : option json)
  : option handlerFn :=
  match ty with
  | Some (JString s) => handlers r !! s
  | _ => None
  end.

Definition act (a : action) : Eff world unit :=
  match a with
  | Send message => sendRawMessage message
  | Close => close
  | Raise err => throw err
  end.

Fixpoint acts (l : list action) : Eff world unit :=
  match l with
  | [] => mret tt
  | a :: rest => act a;; acts rest
  end.

Definition invalidFormat : string := "Invalid message format".

Definition unknownType (ty : option json) : string :=
  "Unknown message type: " +:+ typeString ty.

Definition handlerFailed (ty : option json) (error : string) : string :=
  "Error processing " +:+ typeString ty +:+ ": " +:+ error.

(** [routeMessage(ws, message)] *)
Definition routeMessage (r : MessageRouter) (message : json)
  : Eff world unit :=
  ty ← typeOf message;
  match handlerFor r ty with
  | Some handler =>
      tryCatch (acts (handler message))
               (fun error => sendError (handlerFailed ty error))
  | None => sendError (unknownType ty)
  end.

(** A middleware at work, [next] being the continuation it was given. *)
Fixpoint runMiddleware (next : Eff world unit) (l : list maction)
  : Eff world unit :=
  match l with
  | [] => mret tt
  | Act a :: rest => act a;; runMiddleware next rest
  | Next :: rest => next;; runMiddleware next rest
  end.

(** The closure [next] of [handleMessage].  Each call that finds a
    middleware left advances [middlewareIndex] before running it, so calls
    nest at most once per middleware; [fuel] bounds the nesting. *)
Fixpoint next (fuel : nat) (r : MessageRouter) (message : json)
  : Eff world unit :=
  w ← get;
  match middleware r !! middlewareIndex w with
  | Some mw =>
      match fuel with
      | O => throw "next: nesting bound passed"
      | S fuel' =>
          setIndex (S (middlewareIndex w));;
          runMiddleware (next fuel' r message) (mw message)
      end
  | None => routeMessage r message
  end.

(** The body of [handleMessage(ws, data)]. *)
Definition handleMessageBody (r : MessageRouter) (f : frame)
  : Eff world unit :=
  tryCatch
    (match f with
     | Malformed _ => throw "Unexpected token in JSON"
     | Parsed message =>
         _ ← typeOf message;
         setIndex 0;;
         next (length (middleware r)) r message
     end)
    (fun error => sendError invalidFormat).

(** One frame on a socket in state [rs]: the state of the socket afterwards
    and the messages sent on it. *)
Definition handleMessage (r : MessageRouter) (rs : nat) (f : frame)
  : nat * list json :=
  let '(_, w) := handleMessageBody r f
                   {| readyState := rs; sent := []; middlewareIndex := 0 |} in
  (readyState w, sent w).


(** Every middleware of the router hands [message] on to its continuation
    and does nothing else. *)
Definition passes (r : MessageRouter) (message : json) : Prop :=
  Forall (fun mw => mw message = [Next]) (middleware r).

Definition withIndex (i : nat) (w : world) : world :=
  {| readyState := readyState w; sent := sent w; middlewareIndex := i |}.

(** A router with one middleware that hands every message on and one
    handler, for [ping]. *)
Definition typed (t : string) : json := JObject [("type", JString t)].

Definition sampleRouter : MessageRouter :=
  addMiddleware (fun _ => [Next])
    (registerHandler "ping" (fun _ => [Send (typed "pong")]) constructor).

(** A router whose only middleware never calls its continuation. *)
Definition haltingRouter : MessageRouter :=
  addMiddleware (fun _ => []) constructor.

End Router.

(** ** More string methods *)

Module Text.

(** Every character of [s] satisfies [p]. *)
Fixpoint allChars (p : ascii -> bool) (s : string) : bool :=
  match s with
  | EmptyString => true
  | String c r => p c && allChars p r
  end.

(** [s.startsWith(prefix)] *)
Fixpoint startsWith (prefix s : string) : bool :=
  match prefix, s with
  | EmptyString, _ => true
  | String a p, String b r => Ascii.eqb a b && startsWith p r
  | String _ _, EmptyString => false
  end.

(** [s.includes(needle)] for a needle of any length. *)
Fixpoint includesString (needle s : string) : bool :=
  startsWith needle s ||
  match s with
  | EmptyString => false
  | String _ r => includesString needle r
  end.

(** A string that does not begin with white space. *)
Definition startsClean (s : string) : Prop :=
  match s with
  | EmptyString => True
  | String c _ => Js.isWhiteSpace c = false
  end.

End Text.

(** ** The registry: queries and what every turn keeps *)

Module RegistryQueries.
Import Registry.

(** The capacity of [outputBuffer]: the handler drops the oldest entry once
    the length has passed 1000. *)
Definition bufferCapacity : nat := 1000.

(** What [getStats()] returns. *)
Record stats : Type := {
  totalTerminals : nat;
  statsMaxTerminals : nat;
  activeHandoffs : nat;
  terminalsWithHandoffs : nat
}.

(** [getStats()] *)
Definition getStats (m : TerminalManager) : stats :=
  {| totalTerminals := size (terminals m);
     statsMaxTerminals := maxTerminals m;
     activeHandoffs := size (agentHandoffs m);
     terminalsWithHandoffs := length (map_to_list (agentHandoffs m)).*1 |}.

(** The terminal an event is addressed to; a create call addresses none. *)
Definition target (ev : event) : option string :=
  match ev with
  | Create _ _ _ _ => None
  | Command _ _ message => Some (Msg.terminalId message)
  | Input _ _ message => Some (Msg.terminalId message)
  | Resize _ _ message => Some (Msg.terminalId message)
  | Destroy _ message => Some (Msg.terminalId message)
  | Handoff _ terminalId _ _ => Some terminalId
  | Data _ terminalId _ _ => Some terminalId
  | Exit terminalId _ _ => Some terminalId
  | Expire terminalId => Some terminalId
  end.

(** Calls that start a process, write to one, or arm a timer. *)
Definition touchesProcess (e : effect) : bool :=
  match e with
  | PtySpawn _ _ _ _ | PtyWrite _ _ | PtyKill _ | SetTimeout _ _ => true
  | _ => false
  end.

(** What every record of the table satisfies. *)
Record Kept (m : TerminalManager) : Prop := {
  kept_id id ti : terminals m !! id = Some ti -> terminalId ti = id;
  kept_buffer id ti :
    terminals m !! id = Some ti ->
    (length (outputBuffer ti) <= bufferCapacity)%nat;
  kept_agent id ti h :
    terminals m !! id = Some ti -> agentHandoffs m !! id = Some h ->
    agentName ti = currentAgent h
}.

(** The last [n] entries of a list. *)
Definition lastN {A} (n : nat) (l : list A) : list A :=
  drop (length l - n) l.

(** A create call draws an id the table does not hold. *)
Definition freshId (ev : event) (m : TerminalManager) : Prop :=
  match ev with
  | Create _ uuid _ _ => terminals m !! ("terminal-" +:+ uuid) = None
  | _ => True
  end.

(** Managers reached when every generated id is new. *)
Inductive reachableFresh (maxTerminals : nat) : TerminalManager -> Prop :=
| fresh_new : reachableFresh maxTerminals (constructor maxTerminals)
| fresh_turn script ev m :
    reachableFresh maxTerminals m -> freshId ev m ->
    reachableFresh maxTerminals (after script ev m).


End RegistryQueries.

(** ** The message gateway: connections, callbacks and what scripts send

    [MessageRouter.handleConnection] with its connection and disconnection
    callbacks, and [sendMessage] and [sendConnectionEstablished] of
    backend/utils/WebSocketUtils.js. *)

Module Gateway.
Import Router.

(** The messages a script sends when every send goes through. *)
Definition payloads (l : list action) : list json :=
  omap (fun a => match a with Send message => Some message | _ => None end) l.

Definition isSend (a : action) : bool :=
  match a with Send _ => true | _ => false end.

(** A script that only sends. *)
Definition onlySends (l : list action) : bool := forallb isSend l.

(** The part of a script that runs: what stands before its first [throw]. *)
Fixpoint beforeRaise (l : list action) : list action :=
  match l with
  | [] => []
  | Raise _ :: _ => []
  | a :: rest => a :: beforeRaise rest
  end.

(** A script without [ws.close()]. *)
Definition neverCloses (l : list action) : bool :=
  forallb (fun a => match a with Close => false | _ => true end) l.

(** [callbacks.forEach(callback => { try { callback(ws) } catch (error) {
    console.error(...) } })] *)
Fixpoint runCallbacks (callbacks : list (list action)) : Eff world unit :=
  match callbacks with
  | [] => mret tt
  | callback :: rest =>
      tryCatch (acts callback) (fun _ => mret tt);;
      runCallbacks rest
  end.

(** The callback lists of the router. *)
Record hooks : Type := {
  onConnectionCallbacks : list (list action);
  onDisconnectionCallbacks : list (list action)
}.

(** [onConnection(callback)] and [onDisconnection(callback)] *)
Definition onConnection (callback : list action) (h : hooks) : hooks :=
  {| onConnectionCallbacks := onConnectionCallbacks h ++ [callback];
     onDisconnectionCallbacks := onDisconnectionCallbacks h |}.

Definition onDisconnection (callback : list action) (h : hooks) : hooks :=
  {| onConnectionCallbacks := onConnectionCallbacks h;
     onDisconnectionCallbacks := onDisconnectionCallbacks h ++ [callback] |}.

(** Setting a property of an object: the value is replaced where the key
    is present, and the property is added at the end where it is not. *)
Fixpoint setProperty (k : string) (v : json) (o : list (string * json))
  : list (string * json) :=
  match o with
  | [] => [(k, v)]
  | (k', v') :: rest =>
      if String.eqb k' k then (k', v) :: rest
      else (k', v') :: setProperty k v rest
  end.

(** [{ ...target, ...source }]: the properties of [source] are set on
    [target] in their order. *)
Definition spread (target source : list (string * json))
  : list (string * json) :=
  fold_left (fun o kv => setProperty (fst kv) (snd kv) o) source target.

(** ToBoolean; [None] stands for [undefined]. *)
Definition truthy (v : option json) : bool :=
  match v with
  | None | Some JNull | Some (JBool false) => false
  | Some (JNumber n) => negb (n =? 0)
  | Some (JString s) => negb (String.eqb s "")
  | Some _ => true
  end.

(** [v || d] *)
Definition orElse (v : option json) (d : json) : json :=
  match v with
  | Some x => if truthy v then x else d
  | None => d
  end.

(** The [connectionOptions] of [handleConnection], as far as it reads
    them: [capabilities] is an object or [undefined]. *)
Record connectionOptions : Type := {
  maxTerminals : option json;
  capabilities : option (list (string * json))
}.

(** [{ maxTerminals: connectionOptions.maxTerminals || 10,
       ...connectionOptions.capabilities }] *)
Definition capabilitiesOf (o : connectionOptions) : list (string * json) :=
  spread [("maxTerminals", orElse (maxTerminals o) (JNumber 10))]
         (default [] (capabilities o)).

(** The [data] of [sendConnectionEstablished(ws, capabilities)]. *)
Definition established (caps : list (string * json))
  : list (string * json) :=
  spread
    [("capabilities",
      JArray [JString "terminal-management"; JString "multi-terminal";
              JString "command-execution"; JString "real-pty"]);
     ("maxTerminals", orElse (property "maxTerminals" caps) (JNumber 10))]
    caps.

(** [sendConnectionEstablished(ws, capabilities)]: a call of
    [sendMessage], which sends the object [{ type, data }] under the guard
    of [sendRawMessage]. *)
Definition sendConnectionEstablished (caps : list (string * json))
  : Eff world unit :=
  sendRawMessage
    (JObject [("type", JString "connection-established");
              ("data", JObject (established caps))]).

(** [handleConnection(ws, connectionOptions)]; registering the listeners of
    the socket does nothing yet. *)
Definition handleConnection (h : hooks) (o : connectionOptions)
  : Eff world unit :=
  sendConnectionEstablished (capabilitiesOf o);;
  runCallbacks (onConnectionCallbacks h).

(** The [close] listener that [handleConnection] registers. *)
Definition onClose (h : hooks) : Eff world unit :=
  runCallbacks (onDisconnectionCallbacks h).

(** A socket in state [rs] on which nothing was sent yet. *)
Definition socket (rs : nat) : world :=
  {| readyState := rs; sent := []; middlewareIndex := 0 |}.

(** Nothing the router runs changes a socket that is not open. *)
Definition quiet (m : Eff world unit) : Prop :=
  forall w, readyState w <> OPEN ->
    readyState (snd (m w)) = readyState w /\ sent (snd (m w)) = sent w.

(** A handler that sends two messages, and one that raises after the
    first. *)
Definition twoSends : list action := [Send (typed "a"); Send (typed "b")].
Definition sendThenRaise : list action :=
  [Send (typed "a"); Raise "boom"; Send (typed "b")].

End Gateway.

(** ** Sending to sockets

    [sendMessage], [sendResponse], [sendRawMessage] and [broadcastMessage]
    of backend/utils/WebSocketUtils.js, over a store of sockets: a
    connection is a reference into the store, so that one socket may be
    listed more than once. *)

Module Sockets.
Import Router.

(** A socket: its state, the outcomes of the coming calls of [ws.send]
    ([true] raises; past the end of the script every call returns), and
    what was handed to [ws.send] so far. *)
Record socket : Type := {
  state : nat;
  sendThrows : list bool;
  outbox : list json
}.

Abbreviation store := (list socket).

(** A connection: [null], or the place of a socket in the store. *)
Abbreviation connection := (option nat).

(** [try { ws.send(JSON.stringify(message)); return true } catch (error) {
    return false }] *)
Definition trySend (message : json) (s : socket) : bool * socket :=
  match sendThrows s with
  | true :: rest =>
      (false, {| state := state s; sendThrows := rest; outbox := outbox s |})
  | _ =>
      (true, {| state := state s; sendThrows := tl (sendThrows s);
                outbox := outbox s ++ [message] |})
  end.

(** [sendRawMessage(ws, message)]: what it returns, and the store after. *)
Definition sendRawMessage (ws : connection) (message : json) (st : store)
  : bool * store :=
  match ws with
  | None => (false, st)
  | Some i =>
      match st !! i with
      | None => (false, st)
      | Some s =>
          if negb (state s =? OPEN)%nat then (false, st)
          else let '(ok, s') := trySend message s in (ok, <[i := s']> st)
      end
  end.

(** [sendMessage(ws, type, data)]: the same guard and the same [try], on
    the object [{ type, data }]. *)
Definition sendMessage (ws : connection) (type : string) (data : json)
    (st : store) : bool * store :=
  sendRawMessage ws (JObject [("type", JString type); ("data", data)]) st.

(** [sendResponse(ws, type, success, data, error)]: the object sent. *)
Definition response (type : string) (success : bool)
    (data : list (string * json)) (error : option string)
  : list (string * json) :=
  let r := Gateway.spread [("type", JString type); ("success", JBool success)]
             data in
  match error with
  | Some e =>
      if negb success && Js.truthy error
      then Gateway.setProperty "error" (JString e) r else r
  | None => r
  end.

Definition sendResponse (ws : connection) (type : string) (success : bool)
    (data : list (string * json)) (error : option string) (st : store)
  : bool * store :=
  sendRawMessage ws (JObject (response type success data error)) st.

(** [broadcastMessage(connections, type, data)]: the count it returns, and
    the store after. *)
Fixpoint broadcastMessage (connections : list connection) (type : string)
    (data : json) (st : store) : nat * store :=
  match connections with
  | [] => (0%nat, st)
  | ws :: rest =>
      let '(ok, st1) := sendMessage ws type data st in
      let '(n, st2) := broadcastMessage rest type data st1 in
      ((if ok then 1 else 0) + n, st2)%nat
  end.

(** The number of messages handed to the sockets of a store. *)
Definition delivered (st : store) : nat :=
  sum_list_with (fun s => length (outbox s)) st.

End Sockets.

(** ** The directive dispatcher

    [OrchestratorCommands.handleOrchestratorCommand]
    (backend/services/OrchestratorCommands.js) up to the choice of the
    handler and its arguments, with [_passCommandToTerminal],
    [_parseSpawnOptions], [_handleSendToAgent] and [_handleBroadcast]. *)

Module Dispatcher.
Import Js.

Definition backslash : ascii := ascii_of_N 92.
Definition letterS : ascii := ascii_of_N 115.

Definition startsWithS (s : string) : bool :=
  match s with
  | String c _ => Ascii.eqb c letterS
  | EmptyString => false
  end.

(** [s.split(/\\s+/)]: the separator of the source is the regular
    expression of a backslash followed by one or more letters [s].  The
    first piece and the pieces after it; [inSeparator] holds while the
    letters [s] of a separator are being passed. *)
Fixpoint splitFrom (inSeparator : bool) (s : string) : string * list string :=
  match s with
  | EmptyString => (EmptyString, [])
  | String c r =>
      if inSeparator && Ascii.eqb c letterS then splitFrom true r
      else if Ascii.eqb c backslash && startsWithS r then
        let '(p, ps) := splitFrom true r in (EmptyString, p :: ps)
      else
        let '(p, ps) := splitFrom false r in (String c p, ps)
  end.

Definition split (s : string) : list string :=
  let '(p, ps) := splitFrom false s in p :: ps.

(** The separator written out, and [pieces.join("\\s")]. *)
Definition separator : string := String backslash (String letterS EmptyString).

Definition join (pieces : list string) : string :=
  String.concat separator pieces.

(** The fields of the message that [handleOrchestratorCommand] reads;
    [None] stands for a field that is missing. *)
Record message : Type := {
  command : option string;
  action : option string;
  subtype : option string;
  data : option string;
  targets : option (list string)
}.

(** The method [handleOrchestratorCommand] hands the message to, with the
    arguments it passes. *)
Inductive call : Type :=
| HandleChatBroadcast (command : string) (targets : list string)
| HandleTerminalInput (data : string)
| NoCommand                               (* the early [return] *)
| HandleSpawn (args : list string)
| HandleSpawnClaude (args : list string)
| HandleSpawnHidden (args : list string)
| HandleStatus
| HandleSendToAgent (args : list string)
| HandleAgentToAgentComm (args : list string)
| HandleBroadcast (args : list string)
| HandleLogs (args : list string)
| HandleAgentHandoff (args : list string)
| HandleQueue (args : list string)
| SendOrchestratorHelp
| HandleClaudeCommand (args : list string)
| HandleGordonConsult (args : list string)
| PassCommandToTerminal (command : string).

(** The [switch (cmd)]; [args] is [args.slice(1)]. *)
Definition switch (cmd : string) (args : list string) (command : string)
  : call :=
  if String.eqb cmd "spawn" then HandleSpawn args
  else if String.eqb cmd "spawn-claude" then HandleSpawnClaude args
  else if String.eqb cmd "spawn-hidden" then HandleSpawnHidden args
  else if String.eqb cmd "status" then HandleStatus
  else if String.eqb cmd "send" then HandleSendToAgent args
  else if String.eqb cmd "agent-comm" then HandleAgentToAgentComm args
  else if String.eqb cmd "broadcast" then HandleBroadcast args
  else if String.eqb cmd "logs" then HandleLogs args
  else if String.eqb cmd "handoff" then HandleAgentHandoff args
  else if String.eqb cmd "queue" then HandleQueue args
  else if String.eqb cmd "ohelp" || String.eqb cmd "help"
  then SendOrchestratorHelp
  else if String.eqb cmd "claude" then HandleClaudeCommand args
  else if String.eqb cmd "gordon" || String.eqb cmd "gordon-consult"
  then HandleGordonConsult args
  else PassCommandToTerminal command.

(** [handleOrchestratorCommand(ws, message)] up to the call it makes. *)
Definition dispatch (m : message) : call :=
  if match action m with
     | Some a => String.eqb a "send-to-agents"
     | None => false
     end && bool_decide (is_Some (targets m)) && truthy (command m)
  then HandleChatBroadcast (default "" (command m)) (default [] (targets m))
  else if match subtype m with
          | Some s => String.eqb s "terminal-input"
          | None => false
          end && truthy (data m)
  then HandleTerminalInput (default "" (data m))
  else if negb (truthy (command m)) then NoCommand
  else
    let '(first, rest) := splitFrom false (trim (default "" (command m))) in
    switch (toLowerCase first) rest (default "" (command m)).

(** The arguments a call carries. *)
Definition argsOf (c : call) : list string :=
  match c with
  | HandleSpawn args | HandleSpawnClaude args | HandleSpawnHidden args
  | HandleSendToAgent args | HandleAgentToAgentComm args
  | HandleBroadcast args | HandleLogs args | HandleAgentHandoff args
  | HandleQueue args | HandleClaudeCommand args | HandleGordonConsult args =>
      args
  | _ => []
  end.

(** The message the interceptor builds for a line:
    [{ command: fullCommand, terminalId }]. *)
Definition lineMessage (fullCommand : string) : message :=
  {| command := Some fullCommand; action := None; subtype := None;
     data := None; targets := None |}.

(** The calls that the directives executed in a trace of the interceptor
    come down to. *)
Definition dispatched (tr : list Interceptor.effect) : list call :=
  omap (fun e => match e with
                 | Interceptor.HandleOrchestratorCommand c =>
                     Some (dispatch (lineMessage c))
                 | _ => None
                 end) tr.

(** *** Options of a spawn directive *)

(** The object [_parseSpawnOptions] returns. *)
Record options : Type := {
  directory : option string;
  project : option string;
  mcpServers : option string;
  systemPrompt : option string;
  maxTurns : option number
}.

Definition noOptions : options :=
  {| directory := None; project := None; mcpServers := None;
     systemPrompt := None; maxTurns := None |}.

(** The loop of [_parseSpawnOptions] from index [i], [args] being the
    arguments from [i] on. *)
Fixpoint parseFrom (args : list string) (o : options) : options :=
  match args with
  | [] => o
  | arg :: rest =>
      match rest with
      | [] => o
      | value :: rest' =>
          if String.eqb arg "--dir" then
            parseFrom rest'
              {| directory := Some value; project := project o;
                 mcpServers := mcpServers o; systemPrompt := systemPrompt o;
                 maxTurns := maxTurns o |}
          else if String.eqb arg "--project" then
            parseFrom rest'
              {| directory := directory o; project := Some value;
                 mcpServers := mcpServers o; systemPrompt := systemPrompt o;
                 maxTurns := maxTurns o |}
          else if String.eqb arg "--mcp-servers" then
            parseFrom rest'
              {| directory := directory o; project := project o;
                 mcpServers := Some value; systemPrompt := systemPrompt o;
                 maxTurns := maxTurns o |}
          else if String.eqb arg "--system-prompt" then
            parseFrom rest'
              {| directory := directory o; project := project o;
                 mcpServers := mcpServers o; systemPrompt := Some value;
                 maxTurns := maxTurns o |}
          else if String.eqb arg "--max-turns" then
            parseFrom rest'
              {| directory := directory o; project := project o;
                 mcpServers := mcpServers o; systemPrompt := systemPrompt o;
                 maxTurns := Some (parseInt value) |}
          else parseFrom rest o
      end
  end.

Definition _parseSpawnOptions (args : list string) : options :=
  parseFrom args noOptions.

(** An option written as a flag and its value. *)
Definition flag (name : string) (value : option string) : list string :=
  match value with
  | Some v => [name; v]
  | None => []
  end.

(** A number written out: [NaN], or the decimal digits of the magnitude,
    after a minus sign when the number is negative. *)
Definition numeral (x : number) : string :=
  match x with
  | NaN => "NaN"
  | Integer false m => pretty m
  | Integer true m => "-" +:+ pretty m
  end.

(** The options written out as arguments. *)
Definition render (o : options) : list string :=
  flag "--dir" (directory o) ++ flag "--project" (project o) ++
  flag "--mcp-servers" (mcpServers o) ++
  flag "--system-prompt" (systemPrompt o) ++
  flag "--max-turns" (option_map numeral (maxTurns o)).

(** Options whose turn limit, when there is one, is a Number that the
    model holds exactly: [NaN], or an integer of magnitude up to [2^53]. *)
Definition exactTurns (o : options) : Prop :=
  match maxTurns o with
  | Some (Integer _ m) => (m <= 2 ^ 53)%N
  | _ => True
  end.

(** *** Directives that write to sessions *)

(** What a handler passes to [sendOrchestratorResponse], one constructor
    for each text of the source. *)
Inductive response : Type :=
| UsageSend            (* Usage: send <agent-id> <command> *)
| UsageBroadcast       (* Usage: broadcast <command> *)
| NotRecognized (command : string)
    (* Command not recognized: "<command>". This is a specialized ... *)
| AgentNotFound (agentId : string)
    (* Agent '<agentId>' not found. Use 'status' to see active agents. *)
| SentTo (agentId command : string)       (* Sent to <agentId>: <command> *)
| SendFailed (agentId error : string)
    (* Failed to send to <agentId>: <error.message> *)
| NoAgents             (* No active agents to broadcast to. *)
| BroadcastDone (successCount size : nat) (command : string)
    (* Broadcast to <successCount>/<size> agents: <command> *)
| CannotSpawn (maxTerminals : nat)
    (* Cannot spawn agent: Maximum terminals (<maxTerminals>) reached. *)
| SpawningAgent (agentName : string)      (* Spawning agent: <agentName> *)
| FailedToSpawn (agentName error : string)
    (* Failed to spawn agent <agentName>: <error.message> *)
| UsageHandoff
    (* Usage: handoff <from-agent> <to-agent> [context-message] *)
| AgentMissing (agentId : string)         (* Agent '<agentId>' not found. *)
| HandoffCompleted (fromAgent toAgent contextMessage : string)
    (* Agent handoff completed: <fromAgent> -> <toAgent> ... Context: ... *)
| HandoffFailed (fromAgent toAgent error : string).
    (* Failed to handoff from <fromAgent> to <toAgent>: <error.message> *)

(** A response with its [success] flag. *)
Definition reply : Type := response * bool.

(** [_passCommandToTerminal(ws, command)] *)
Definition _passCommandToTerminal (command : string) : reply :=
  (NotRecognized command, false).

(** The search of [_handleSendToAgent], [_handleLogs] and
    [_handleAgentHandoff] through the entries of the table, which come in
    the order of insertion. *)
Fixpoint findTerminal (agentId : string)
    (entries : list (string * Registry.terminalInfo))
  : option (string * Registry.terminalInfo) :=
  match entries with
  | [] => None
  | (terminalId, terminal) :: rest =>
      if String.eqb (Registry.agentName terminal) agentId
         || Text.includesString agentId terminalId
      then Some (terminalId, terminal)
      else findTerminal agentId rest
  end.

(** [_handleSendToAgent(ws, args)] over the entries of the table. *)
Definition _handleSendToAgent (args : list string)
    (entries : list (string * Registry.terminalInfo))
  : Eff Registry.world reply :=
  match args with
  | agentId :: (_ :: _) as rest =>
      let command := String.concat " " rest in
      match findTerminal agentId entries with
      | None => mret (AgentNotFound agentId, false)
      | Some (terminalId, _) =>
          tryCatch
            (Registry.ptyWrite terminalId (command +:+ chr CR);;
             mret (SentTo agentId command, true))
            (fun error => mret (SendFailed agentId error, false))
      end
  | _ => mret (UsageSend, false)
  end.

(** The loop of [_handleBroadcast]: the number of writes that returned. *)
Fixpoint broadcastTo (command : string)
    (entries : list (string * Registry.terminalInfo))
  : Eff Registry.world nat :=
  match entries with
  | [] => mret 0%nat
  | (terminalId, _) :: rest =>
      n ← tryCatch
             (Registry.ptyWrite terminalId (command +:+ chr CR);; mret 1%nat)
             (fun _ =>
                Registry.emit (Registry.ConsoleError "Failed to broadcast");;
                mret 0%nat);
      k ← broadcastTo command rest;
      mret (n + k)%nat
  end.

(** [_handleBroadcast(ws, args)] over the entries of the table. *)
Definition _handleBroadcast (args : list string)
    (entries : list (string * Registry.terminalInfo))
  : Eff Registry.world reply :=
  match args with
  | [] => mret (UsageBroadcast, false)
  | _ =>
      let command := String.concat " " args in
      match entries with
      | [] => mret (NoAgents, false)
      | _ =>
          successCount ← broadcastTo command entries;
          mret (BroadcastDone successCount (length entries) command, true)
      end
  end.

(** [_spawnAgent(ws, agentName, options)] at clock [now]; [message] is the
    object it builds for [createTerminal],
    [{ id: uuidv4(), agentName, connectionType: "local", ...options }], and
    [uuid] the id that [createTerminal] draws.  The agent update sent
    between the call and the reply is left out. *)
Definition _spawnAgent (now : Z) (uuid : string) (clientWs : Registry.ws)
    (agentName : string) (message : Registry.Msg.t)
  : Eff Registry.world reply :=
  m ← Registry.getThis;
  if (Registry.maxTerminals m <=? size (Registry.terminals m))%nat then
    mret (CannotSpawn (Registry.maxTerminals m), false)
  else
    tryCatch
      (Registry.createTerminal now uuid clientWs message;;
       mret (SpawningAgent agentName, true))
      (fun error => mret (FailedToSpawn agentName error, false)).

(** The context that [_handleAgentHandoff] hands to [handoffToAgent]. *)
Definition directiveContext (contextMessage : string) : Registry.Ctx.t :=
  {| Registry.Ctx.reason := Some "Orchestrator-initiated handoff";
     Registry.Ctx.message := Some contextMessage |}.

(** [_handleAgentHandoff(ws, args)] at clock [now] over the entries of the
    table. *)
Definition _handleAgentHandoff (now : Z) (args : list string)
    (entries : list (string * Registry.terminalInfo))
  : Eff Registry.world reply :=
  match args with
  | fromAgent :: toAgent :: rest =>
      let contextMessage :=
        orElse (Some (String.concat " " rest))
               "Manual handoff via orchestrator" in
      match findTerminal fromAgent entries with
      | None => mret (AgentMissing fromAgent, false)
      | Some (targetTerminalId, _) =>
          tryCatch
            (Registry.handoffToAgent now targetTerminalId toAgent
               (directiveContext contextMessage);;
             mret (HandoffCompleted fromAgent toAgent contextMessage, true))
            (fun error => mret (HandoffFailed fromAgent toAgent error, false))
      end
  | _ => mret (UsageHandoff, false)
  end.

(** The writes a trace attempted, returned or not. *)
Definition attempted (tr : list Registry.effect) : list (string * string) :=
  omap (fun e => match e with
                 | Registry.PtyWrite id d | Registry.PtyWriteThrew id d =>
                     Some (id, d)
                 | _ => None
                 end) tr.

(** The writes of a trace that returned. *)
Definition returnedWrites (tr : list Registry.effect) : nat :=
  length (omap (fun e => match e with
                         | Registry.PtyWrite id d => Some (id, d)
                         | _ => None
                         end) tr).

(** The entries of a table, in some order. *)
Definition entriesOf (entries : list (string * Registry.terminalInfo))
    (m : Registry.TerminalManager) : Prop :=
  entries ≡ₚ map_to_list (Registry.terminals m).

(** The message of [_spawnAgent] for options that set nothing. *)
Definition plainSpawn (id agentName : string) : Registry.Msg.t :=
  {| Registry.Msg.id := id; Registry.Msg.terminalId := "";
     Registry.Msg.command := ""; Registry.Msg.data := "";
     Registry.Msg.connectionType := Some "local";
     Registry.Msg.agentType := None;
     Registry.Msg.agentName := Some agentName;
     Registry.Msg.mcpServers := None; Registry.Msg.systemPrompt := None;
     Registry.Msg.maxTurns := None; Registry.Msg.isOrchestrator := false;
     Registry.Msg.directory := None; Registry.Msg.project := None;
     Registry.Msg.cwd := None |}.

(** A table of two sessions. *)
Definition session (id name : string) : string * Registry.terminalInfo :=
  (id, {| Registry.terminalId := id; Registry.instanceNumber := 1;
          Registry.clientWs := 7%nat; Registry.agentName := name;
          Registry.created := 0; Registry.lastActivity := 0;
          Registry.outputBuffer := []; Registry.isClaudeAgent := true |}).

Definition twoSessions : list (string * Registry.terminalInfo) :=
  [session "terminal-u1" "worker"; session "terminal-u2" "helper"].

(** A registry that holds these two sessions. *)
Definition twoRegistered : Registry.TerminalManager :=
  {| Registry.terminals := list_to_map twoSessions;
     Registry.terminalTimeouts := ∅; Registry.agentHandoffs := ∅;
     Registry.maxTerminals := 4 |}.

(** The directive [send worker ls], typed with the separator of the
    source. *)
Definition sendWorkerLs : string :=
  join ["send"; "worker"; "ls"].

End Dispatcher.

(** * Properties *)

Ltac eff_unfold :=
  cbv beta iota zeta delta
    [mbind mret Eff_bind Eff_ret bind ret get modify tryCatch throw when].

(** ** Strings *)

Module JsFacts.
Import Js.

Lemma append_cons (c : ascii) (s t : string) :
  String c s +:+ t = String c (s +:+ t).
Proof. reflexivity. Qed.

Lemma append_nil_l (s : string) : "" +:+ s = s.
Proof. reflexivity. Qed.

Lemma append_nil_r (s : string) : s +:+ "" = s.
Proof.
  induction s as [|c s IH]; [reflexivity|]. by rewrite append_cons, IH.
Qed.

Lemma length_append (s t : string) :
  String.length (s +:+ t) = (String.length s + String.length t)%nat.
Proof.
  induction s as [|c s IH]; [reflexivity|].
  rewrite append_cons. simpl. by rewrite IH.
Qed.

Lemma sliceInit_snoc (s : string) (c : ascii) : sliceInit (s +:+ chr c) = s.
Proof.
  induction s as [|d s IH]; [reflexivity|].
  rewrite append_cons. simpl. rewrite IH.
  destruct s; reflexivity.
Qed.

Lemma arrayIncludes_In l x : arrayIncludes l x = true <-> In x l.
Proof.
  unfold arrayIncludes. rewrite existsb_exists. split.
  - intros (y & Hy & Heq). apply String.eqb_eq in Heq. by subst.
  - intros Hx. exists x. split; [done | apply String.eqb_refl].
Qed.

End JsFacts.

(** ** The command interceptor *)

Module InterceptorFacts.
Import Interceptor.

Ltac call_unfold :=
  unfold handleInput, progressOf, resumed, _handleTerminalInput, afterCommand,
    getBuffer, setBuffer, emit, ptyWrite;
  eff_unfold; cbn [self trace writeThrows inputBuffer orchestratorTerminal].

Lemma handleInput_terminated throws this data :
  guard this = true -> hasTerminator data = true ->
  handleInput throws this data =
    let line := Js.trim (inputBuffer this +:+ data) in
    if Js.arrayIncludes orchestratorCommands (firstWord line) then
      match throws with
      | true :: _ =>
          (cleared this, [PtyWriteThrew (line +:+ Js.CRLF); ConsoleError])
      | _ =>
          (cleared this,
           [PtyWrite (line +:+ Js.CRLF); HandleOrchestratorCommand line])
      end
    else
      match throws with
      | true :: _ => (cleared this, [PtyWriteThrew data; ConsoleError])
      | _ => (cleared this, [PtyWrite data])
      end.
Proof.
  intros Hg Ht. call_unfold. rewrite Hg, Ht. cbn [negb].
  destruct (Js.arrayIncludes _ _); destruct throws as [|[] ?]; reflexivity.
Qed.


Lemma handleInput_unterminated throws this data :
  guard this = true -> hasTerminator data = false ->
  handleInput throws this data =
    let this' := {| orchestratorTerminal := orchestratorTerminal this;
                    inputBuffer := buffered (inputBuffer this) data |} in
    match throws with
    | true :: _ => (this', [PtyWriteThrew data; ConsoleError])
    | _ => (this', [PtyWrite data])
    end.
Proof.
  intros Hg Ht. call_unfold. unfold buffered. rewrite Hg, Ht. cbn [negb].
  destruct (isBackspace data).
  - destruct (0 <? _)%nat; destruct throws as [|[] ?]; reflexivity.
  - destruct throws as [|[] ?]; reflexivity.
Qed.


Lemma handleInput_unguarded throws this data :
  guard this = false -> handleInput throws this data = (this, [ConsoleWarn]).
Proof. intros Hg. call_unfold. rewrite Hg. reflexivity. Qed.

(** The rest of a call leaves the object alone, and executes nothing. *)
Lemma resumed_object rejected throws this :
  fst (resumed rejected throws this) = this.
Proof.
  destruct this as [[[? []]|] ?], rejected; try reflexivity.
  all: destruct throws as [|[] ?]; reflexivity.
Qed.


(** With the promise fulfilled and the terminal in place, it writes the
    prompt. *)
Lemma resumed_trace throws this :
  guard this = true ->
  snd (resumed false throws this) =
    match throws with
    | true :: _ => [PtyWriteThrew prompt; ConsoleError]
    | _ => [PtyWrite prompt]
    end.
Proof.
  destruct this as [[[? []]|] ?]; try discriminate.
  intros _. destruct throws as [|[] ?]; reflexivity.
Qed.

Lemma isBackspace_chr data :
  isBackspace data = true -> data = Js.chr Js.DEL \/ data = Js.chr Js.BS.
Proof.
  unfold isBackspace. intros [H|H]%orb_true_iff; apply String.eqb_eq in H; auto.
Qed.

(** A backspace leaves the buffer as it found it. *)
Lemma buffered_backspace b data : isBackspace data = true -> buffered b data = b.
Proof.
  intros Hb. unfold buffered. rewrite Hb.
  destruct (isBackspace_chr _ Hb) as [-> | ->];
    rewrite JsFacts.length_append, Nat.add_comm;
    cbn [String.length Js.chr Nat.add Nat.ltb Nat.leb];
    apply JsFacts.sliceInit_snoc.
Qed.

Lemma guard_handleInput throws this data :
  guard (fst (handleInput throws this data)) = guard this.
Proof.
  destruct (guard this) eqn:Hg.
  - destruct (hasTerminator data) eqn:Ht.
    + rewrite handleInput_terminated by done. cbv zeta.
      destruct (Js.arrayIncludes _ _); destruct throws as [|[] ?]; exact Hg.
    + rewrite handleInput_unterminated by done. cbv zeta.
      destruct throws as [|[] ?]; exact Hg.
  - rewrite handleInput_unguarded by done. exact Hg.
Qed.

Lemma reachable_buffer this :
  reachable this -> guard this = false -> inputBuffer this = "".
Proof.
  induction 1 as [|t this Hr IH Ht|throws this data Hr IH
                  |rejected throws this Hr IH]; intros Hg.
  - reflexivity.
  - unfold guard, initWith in Hg. simpl in Hg. congruence.
  - rewrite guard_handleInput in Hg. rewrite handleInput_unguarded by done.
    simpl. auto.
  - rewrite resumed_object in *. auto.
Qed.

(** *** Runs *)



(** The object after a run is the object after its deliveries: the calls
    that go on after their [await] do not show in it. *)
Lemma run_object evs s :
  object (run evs s) =
    fold_left (fun this ev =>
                 match ev with
                 | Deliver throws data => fst (handleInput throws this data)
                 | Settle _ _ => this
                 end) evs (object s).
Proof.
  unfold run. revert s. induction evs as [|ev evs IH]; intros s; [done|].
  cbn [fold_left]. rewrite IH. f_equal.
  destruct ev as [throws data|rejected throws]; cbn [step].
  - by destruct (handleInput throws (object s) data).
  - destruct (suspended s); [done|].
    pose proof (resumed_object rejected throws (object s)) as H.
    by destruct (resumed rejected throws (object s)).
Qed.





(** Lines the specification's vocabulary and the handler's list tell apart:
    [help] and [claude] go to the process, [destroy] is taken. *)
Example help_is_forwarded :
  Js.arrayIncludes directiveVocabulary "help" = true /\
  handleInput [] (ready "") ("help" +:+ Js.chr Js.CR) =
    (ready "", [PtyWrite ("help" +:+ Js.chr Js.CR)]).
Proof. split; reflexivity. Qed.

Example claude_is_forwarded :
  handleInput [] (ready "") ("claude" +:+ Js.chr Js.CR) =
    (ready "", [PtyWrite ("claude" +:+ Js.chr Js.CR)]).
Proof. reflexivity. Qed.

Example destroy_is_taken :
  Js.arrayIncludes directiveVocabulary "destroy" = false /\
  executed (snd (handleInput [] (ready "") ("destroy worker" +:+ Js.chr Js.CR)))
    = ["destroy worker"].
Proof. split; reflexivity. Qed.

(** What the amended C1 leaves out: the echo of a directive and the prompt
    after it are written with [ptyProcess.write], which is the input of the
    process, where the handler's own description has a directive
    intercepted and not passed to the process.  A directive that arrives as
    one chunk ending in CR LF is thereby handed to the process as it was
    typed. *)
Example echo_is_a_write :
  written (snd (handleInput [] (ready "") ("status" +:+ Js.CRLF)))
    = ["status" +:+ Js.CRLF] /\
  written (snd (resumed false [] (ready ""))) = [prompt].
Proof. split; reflexivity. Qed.

(** What an unterminated chunk does to the buffer. *)
Lemma unterminated_buffer throws this data :
  guard this = true -> hasTerminator data = false ->
  inputBuffer (fst (handleInput throws this data)) =
    if isBackspace data then inputBuffer this
    else inputBuffer this +:+ data.
Proof.
  intros Hg Ht. rewrite handleInput_unterminated by done. cbv zeta.
  assert (buffered (inputBuffer this) data =
          if isBackspace data then inputBuffer this
          else inputBuffer this +:+ data) as <-.
  { destruct (isBackspace data) eqn:Hb.
    - by apply buffered_backspace.
    - unfold buffered. by rewrite Hb. }
  destruct throws as [|[] ?]; reflexivity.
Qed.

(** C8, the code at the failing input: with [ab] buffered, the delete code
    is appended first and is the character the handler then slices off, so
    the buffer is [ab] again where the claim has [a]. *)
Theorem C8_backspace_keeps_previous_character :
  handleInput [] (ready "ab") (Js.chr Js.DEL) =
    (ready "ab", [PtyWrite (Js.chr Js.DEL)]).
Proof. reflexivity. Qed.

(** *** The buffer at a terminator *)

Lemma handleInput_cleared throws this data :
  reachable this -> hasTerminator data = true ->
  inputBuffer (fst (handleInput throws this data)) = "".
Proof.
  intros Hr Ht. destruct (guard this) eqn:Hg.
  - rewrite handleInput_terminated by done. cbv zeta.
    destruct (Js.arrayIncludes _ _); destruct throws as [|[] ?]; reflexivity.
  - rewrite handleInput_unguarded by done. simpl. by apply reachable_buffer.
Qed.

(** The buffer after deliveries of chunks without terminator, whatever the
    writes do. *)
Lemma deliveries_buffer evs this :
  guard this = true ->
  Forall unterminated (delivered evs) ->
  fold_left (fun this ev =>
               match ev with
               | Deliver throws data => fst (handleInput throws this data)
               | Settle _ _ => this
               end) evs this =
    {| orchestratorTerminal := orchestratorTerminal this;
       inputBuffer := fold_left buffered (delivered evs) (inputBuffer this) |}.
Proof.
  revert this. induction evs as [|[throws data|rejected throws] evs IH];
    intros this Hg Hu; cbn [fold_left delivered omap list_omap] in *.
  - by destruct this.
  - apply Forall_cons in Hu as [Hd Hu].
    rewrite IH; [|by rewrite guard_handleInput|done].
    rewrite handleInput_unterminated by done. cbv zeta.
    by destruct throws as [|[] ?].
  - by apply IH.
Qed.

(** C10, as amended.  In every state the service can reach, whatever the
    writes to the process do, a call of the handler with a chunk that
    contains a carriage return or a line feed leaves the input buffer
    empty when it gives up control: at its end, or, for a directive, at
    the [await] of the directive.  The rest of such a call, run once the
    directive has settled, leaves the buffer as it finds it.  So no byte of
    the line reaches the next one: whatever is delivered and whatever
    settles afterwards, as long as no terminator comes, the buffer holds
    what the chunks delivered since have put there, and nothing else. *)
Theorem C10_buffer_empty_at_terminator throws this data :
  reachable this -> hasTerminator data = true ->
  inputBuffer (fst (handleInput throws this data)) = "" /\
  (forall rejected throws' this',
     inputBuffer (fst (resumed rejected throws' this')) = inputBuffer this') /\
  (forall evs n,
     Forall unterminated (delivered evs) ->
     inputBuffer
       (object (run evs (started (fst (handleInput throws this data)) n))) =
       if guard this then fold_left buffered (delivered evs) ""
       else "").
Proof.
  intros Hr Ht. pose proof (handleInput_cleared throws this data Hr Ht) as H0.
  split; [exact H0|]. split.
  { intros rejected throws' this'. by rewrite resumed_object. }
  intros evs n Hu. rewrite run_object. cbn [started object].
  destruct (guard this) eqn:Hg.
  - rewrite deliveries_buffer by (by rewrite ?guard_handleInput).
    cbn [inputBuffer]. by rewrite H0.
  - rewrite handleInput_unguarded in * by done. cbn [fst] in *.
    clear Hu. induction evs as [|[throws' d|rejected throws'] evs IH];
      cbn [fold_left]; [exact H0| |exact IH].
    by rewrite handleInput_unguarded by done.
Qed.

Lemma C10_buffer_empty_at_terminator_witness :
  inputBuffer (fst (handleInput [true] (ready "ls -l") (Js.chr Js.CR))) = "" /\
  inputBuffer
    (object (run [Deliver [] "l"; Settle true []; Deliver [true] "s"]
               (started (fst (handleInput [] (ready "")
                                ("status" +:+ Js.chr Js.CR))) 1))) = "ls".
Proof.
  assert (reachable (ready "ls -l")) as Hr1.
  { change (ready "ls -l")
      with (fst (handleInput []
                   (initWith {| terminalId := "orchestrator-1";
                                ptyProcess := true |} constructor) "ls -l")).
    apply reachable_input, reachable_init; [apply reachable_new | reflexivity]. }
  assert (reachable (ready "")) as Hr2.
  { change (ready "")
      with (initWith {| terminalId := "orchestrator-1"; ptyProcess := true |}
              constructor).
    apply reachable_init; [apply reachable_new | reflexivity]. }
  split.
  - exact (proj1 (C10_buffer_empty_at_terminator [true] (ready "ls -l")
                    (Js.chr Js.CR) Hr1 eq_refl)).
  - refine (proj2 (proj2 (C10_buffer_empty_at_terminator []
                     (ready "") ("status" +:+ Js.chr Js.CR) Hr2 eq_refl))
              [Deliver [] "l"; Settle true []; Deliver [true] "s"] 1%nat _).
    repeat constructor.
Defined.

(** C10 as stated fails: the call that takes the line [status] awaits the
    directive; a chunk [l] delivered before the directive settles is
    buffered; and when that call finishes, after the prompt is written, the
    buffer holds [l] and is not empty. *)
Lemma C10_buffer_holds_next_chunk_at_finish :
  let s1 := step (started (ready "") 0)
                 (Deliver [] ("status" +:+ Js.chr Js.CR)) in
  let s2 := step s1 (Deliver [] "l") in
  let s3 := step s2 (Settle false []) in
  hasTerminator ("status" +:+ Js.chr Js.CR) = true /\
  suspended s1 = 1%nat /\
  inputBuffer (object s1) = "" /\
  suspended s3 = 0%nat /\
  last (log s3) = Some (Settle false [], [PtyWrite prompt]) /\
  inputBuffer (object s3) = "l" /\
  inputBuffer (object s3) <> "".
Proof. vm_compute. repeat split; discriminate. Qed.

End InterceptorFacts.

(** ** The session registry *)

Module RegistryFacts.
Import Registry.

Ltac run :=
  unfold after, turn, handler, createTerminal, _createTerminalProcess,
    handleTerminalCommand, handleTerminalInput, handleTerminalResize,
    handleDestroyTerminal, handoffToAgent, onData, onExit, onTimeout,
    _monitorAgentOutput, _resetTerminalTimeout, clearAndDeleteTimeout,
    ptyWrite, ptyKill, mkdirSync, ptySpawn, external,
    setTerminals, setTimeouts, setHandoffs, getThis, setThis, emit;
  eff_unfold; cbn [this trace throws fst snd].

Lemma manager_eta m :
  {| terminals := terminals m; terminalTimeouts := terminalTimeouts m;
     agentHandoffs := agentHandoffs m; maxTerminals := maxTerminals m |} = m.
Proof. by destruct m. Qed.

Lemma destroy_absent script clientWs message m :
  terminals m !! Msg.terminalId message = None ->
  turn script (Destroy clientWs message) m =
    (m, [SendTerminalDestroyed clientWs (Msg.id message)
           (Msg.terminalId message) false "Terminal not found"]).
Proof. intros H. run. rewrite H. reflexivity. Qed.

Lemma destroy_present script clientWs message m ti :
  terminals m !! Msg.terminalId message = Some ti ->
  returns script ->
  turn script (Destroy clientWs message) m =
    (removed (Msg.terminalId message) m,
     [PtyKill (Msg.terminalId message)] ++
     (if bool_decide (is_Some (terminalTimeouts m !! Msg.terminalId message))
      then [ClearTimeout (Msg.terminalId message)] else []) ++
     [SendTerminalDestroyed clientWs (Msg.id message)
        (Msg.terminalId message) true "Terminal destroyed successfully"]).
Proof.
  intros H Hs. run. rewrite H.
  destruct script as [|[e|] script]; [|done|]; cbn [this trace throws];
    destruct (bool_decide _); reflexivity.
Qed.

Lemma destroy_raised e script clientWs message m ti :
  terminals m !! Msg.terminalId message = Some ti ->
  turn (Some e :: script) (Destroy clientWs message) m =
    (m, [PtyKillThrew (Msg.terminalId message);
         ConsoleError "Error destroying terminal";
         SendTerminalDestroyed clientWs (Msg.id message)
           (Msg.terminalId message) false e]).
Proof. intros H. run. rewrite H. reflexivity. Qed.

Lemma after_destroy script clientWs message m :
  after script (Destroy clientWs message) m = m \/
  (is_Some (terminals m !! Msg.terminalId message) /\
   after script (Destroy clientWs message) m = removed (Msg.terminalId message) m).
Proof.
  unfold after. destruct (terminals m !! Msg.terminalId message) as [ti|] eqn:H.
  - destruct script as [|[e|] script].
    + right. split; [eauto|]. by erewrite destroy_present.
    + left. by erewrite destroy_raised.
    + right. split; [eauto|]. by erewrite destroy_present.
  - left. by rewrite destroy_absent.
Qed.

Lemma after_exit script id clientWs exitCode m :
  after script (Exit id clientWs exitCode) m = removed id m.
Proof. run. destruct (bool_decide _); reflexivity. Qed.

Lemma after_timeout script id m :
  after script (Expire id) m =
    match terminals m !! id, script with
    | Some _, Some _ :: _ => m
    | Some _, _ => removed id m
    | None, _ => m
    end.
Proof.
  run. destruct (terminals m !! id); [|reflexivity].
  destruct script as [|[e|] script]; reflexivity.
Qed.

Lemma after_resize script cols rows message m :
  after script (Resize cols rows message) m = m.
Proof. run. destruct (terminals m !! _); reflexivity. Qed.

Lemma after_input script now clientWs message m :
  after script (Input now clientWs message) m =
    match terminals m !! Msg.terminalId message, script with
    | Some _, Some _ :: _ => m
    | Some _, _ => armed (Msg.terminalId message) (now + idleWindow) m
    | None, _ => m
    end.
Proof.
  run. destruct (terminals m !! _); [|reflexivity].
  destruct script as [|[e|] script]; cbn [this trace throws];
    try destruct (bool_decide _); reflexivity.
Qed.

Lemma after_command script now clientWs message m :
  after script (Command now clientWs message) m =
    match terminals m !! Msg.terminalId message, script with
    | Some _, Some _ :: _ => m
    | Some _, _ => armed (Msg.terminalId message) (now + idleWindow) m
    | None, _ => m
    end.
Proof.
  run. destruct (terminals m !! _); [|reflexivity].
  destruct script as [|[e|] script]; cbn [this trace throws];
    try destruct (bool_decide _); reflexivity.
Qed.


(** The world a handoff leaves: the maps are updated before the banner is
    written, so a write that raises does not undo them. *)
Lemma handoff_found now id name ctx w ti :
  terminals (this w) !! id = Some ti ->
  exists r tr th,
    handoffToAgent now id name ctx w =
      (r, {| this := handedOff now id name ctx ti (this w);
             trace := tr; throws := th |}).
Proof.
  intros H. destruct w as [m tr th]. cbn [this] in H. run. rewrite H.
  unfold handedOff, recordOf, renamed, transitionOf.
  destruct (agentHandoffs m !! id) as [h|] eqn:Hh.
  - rewrite bool_decide_true by eauto.
    cbn [negb this trace throws agentHandoffs terminals terminalTimeouts
         maxTerminals].
    rewrite Hh. cbn [default].
    destruct th as [|[e1|] [|[e2|] [|[e3|] th]]]; destruct (Js.truthy (Ctx.message ctx));
      cbn [this trace throws agentHandoffs terminals terminalTimeouts
           maxTerminals tail]; eauto.
  - rewrite bool_decide_false by (intros [? ?]; congruence).
    cbn [negb this trace throws agentHandoffs terminals terminalTimeouts maxTerminals].
    rewrite lookup_insert_eq. cbn [default currentAgent history].
    rewrite insert_insert_eq.
    destruct th as [|[e1|] [|[e2|] [|[e3|] th]]]; destruct (Js.truthy (Ctx.message ctx));
      cbn [this trace throws agentHandoffs terminals terminalTimeouts
           maxTerminals tail]; eauto.
Qed.

Lemma handoff_missing now id name ctx w :
  terminals (this w) !! id = None ->
  handoffToAgent now id name ctx w =
    (Thrown ("Terminal " +:+ id +:+ " not found for handoff"), w).
Proof. intros H. run. rewrite H. reflexivity. Qed.

Lemma after_handoff script now id name ctx m :
  after script (Handoff now id name ctx) m =
    match terminals m !! id with
    | Some ti => handedOff now id name ctx ti m
    | None => m
    end.
Proof.
  unfold after, turn, handler. eff_unfold.
  destruct (terminals m !! id) as [ti|] eqn:H.
  - destruct (handoff_found now id name ctx
                {| this := m; trace := []; throws := script |} ti H)
      as (r & tr & th & ->).
    destruct r; reflexivity.
  - rewrite handoff_missing by done. reflexivity.
Qed.

Lemma after_data script now id clientWs data m :
  after script (Data now id clientWs data) m =
    received now id data
      match handoffPattern data, terminals m !! id with
      | Some (name, text), Some ti =>
          handedOff now id name (requestedContext text) ti m
      | _, _ => m
      end.
Proof.
  unfold after, turn, handler, onData, _monitorAgentOutput. eff_unfold.
  destruct (handoffPattern data) as [[name text]|].
  - destruct (terminals m !! id) as [ti|] eqn:H.
    + destruct (handoff_found now id name (requestedContext text)
                  {| this := m; trace := []; throws := script |} ti H)
        as (r & tr & th & Heq).
      unfold requestedContext in Heq. rewrite Heq.
      destruct r; run; reflexivity.
    + unfold requestedContext. rewrite handoff_missing by done.
      run. reflexivity.
  - run. reflexivity.
Qed.


Lemma create_full script now uuid clientWs message m :
  (maxTerminals m <= size (terminals m))%nat ->
  turn script (Create now uuid clientWs message) m =
    (m, [SendTerminalCreated clientWs (Msg.id message) false None
           (Some (maxReached (maxTerminals m)))]).
Proof.
  intros H. run. apply Nat.leb_le in H. rewrite H. reflexivity.
Qed.

Lemma create_nonLocal script now uuid clientWs message m :
  (size (terminals m) < maxTerminals m)%nat ->
  nonLocal message = true ->
  turn script (Create now uuid clientWs message) m =
    (m, [SendTerminalCreated clientWs (Msg.id message) false None
           (Some (notImplemented
                    (Js.orElse (Msg.connectionType message) "")))]).
Proof.
  intros H Hn. run. apply Nat.leb_gt in H. rewrite H.
  unfold nonLocal in Hn. rewrite Hn. reflexivity.
Qed.

Lemma spawnProcess_shell id n message w :
  isClaudeAgentOf message = false ->
  exists tr th,
    spawnProcess id n message w =
      (Thrown "agentWorkspace is not defined",
       {| this := this w; trace := tr; throws := th |}) \/
    exists e, spawnProcess id n message w =
      (Thrown e, {| this := this w; trace := tr; throws := th |}).
Proof.
  intros H. destruct w as [m tr th]. unfold spawnProcess. rewrite H.
  run. repeat (match goal with |- context [if ?b then _ else _] => destruct b end);
    try (eexists _, _; left; reflexivity).
  destruct th as [|[e|] th]; eexists _, _; [left|right; eexists|left]; reflexivity.
Qed.

Lemma create_agent script now uuid clientWs message m :
  (size (terminals m) < maxTerminals m)%nat ->
  nonLocal message = false ->
  isClaudeAgentOf message = true ->
  returns2 script = true ->
  turn script (Create now uuid clientWs message) m =
    (registered now clientWs ("terminal-" +:+ uuid) message m,
     [Mkdir (agentWorkspacePath (size (terminals m) + 1));
      PtySpawn ("terminal-" +:+ uuid) "claude" (claudeArgsOf message)
        (agentWorkspacePath (size (terminals m) + 1))] ++
     (if bool_decide (is_Some (terminalTimeouts m !! ("terminal-" +:+ uuid)))
      then [ClearTimeout ("terminal-" +:+ uuid)] else []) ++
     [SetTimeout ("terminal-" +:+ uuid) (now + idleWindow);
      SendTerminalCreated clientWs (Msg.id message) true
        (Some ("terminal-" +:+ uuid)) None]).
Proof.
  intros H Hn Hc Hs. run. apply Nat.leb_gt in H. rewrite H.
  unfold nonLocal in Hn. rewrite Hn. unfold spawnProcess, registered.
  rewrite Hc. run.
  destruct script as [|[e|] [|[e'|] script]]; try discriminate Hs;
    cbn [tail this trace throws terminalTimeouts negb];
    destruct (bool_decide _); reflexivity.
Qed.

Lemma after_create script now uuid clientWs message m :
  after script (Create now uuid clientWs message) m =
    if (maxTerminals m <=? size (terminals m))%nat then m
    else if nonLocal message then m
    else if isClaudeAgentOf message && returns2 script
    then registered now clientWs ("terminal-" +:+ uuid) message m
    else m.
Proof.
  unfold after.
  destruct (maxTerminals m <=? size (terminals m))%nat eqn:Hfull.
  { apply Nat.leb_le in Hfull. by rewrite create_full. }
  apply Nat.leb_gt in Hfull.
  destruct (nonLocal message) eqn:Hn.
  { by rewrite create_nonLocal. }
  destruct (isClaudeAgentOf message) eqn:Hc.
  - destruct (returns2 script) eqn:Hs; cbn [andb].
    + by rewrite create_agent.
    + run. apply Nat.leb_gt in Hfull. rewrite Hfull.
      unfold nonLocal in Hn. rewrite Hn. unfold spawnProcess. rewrite Hc. run.
      destruct script as [|[e|] [|[e'|] script]]; try discriminate Hs; reflexivity.
  - cbn [andb]. run. apply Nat.leb_gt in Hfull. rewrite Hfull.
    unfold nonLocal in Hn. rewrite Hn.
    destruct (spawnProcess_shell ("terminal-" +:+ uuid) (size (terminals m) + 1)
                message {| this := m; trace := []; throws := script |} Hc)
      as (tr & th & [-> | [e ->]]); reflexivity.
Qed.


(** *** Invariants *)

Lemma orElse_nonempty o d : d <> "" -> Js.orElse o d <> "".
Proof.
  intros Hd. unfold Js.orElse. destruct o as [s|]; [|done].
  destruct (String.eqb_spec s ""); done.
Qed.

Lemma agentNameOf_nonempty message n : agentNameOf message n <> "".
Proof.
  unfold agentNameOf. apply orElse_nonempty.
  destruct (isClaudeAgentOf message); discriminate.
Qed.

Lemma Inv_new max : Inv (constructor max).
Proof.
  split; cbn [constructor terminals terminalTimeouts agentHandoffs maxTerminals];
    intros; rewrite ?lookup_empty in *; try done.
  rewrite map_size_empty. lia.
Qed.

Lemma Inv_removed id m : Inv m -> Inv (removed id m).
Proof.
  intros [I1 I2 I3 I4 I5].
  split; cbn [removed terminals terminalTimeouts agentHandoffs maxTerminals].
  - intros j. destruct (decide (id = j)) as [->|Hne];
      rewrite ?lookup_delete_eq, ?lookup_delete_ne by done; auto.
  - intros j. destruct (decide (id = j)) as [->|Hne];
      rewrite ?lookup_delete_eq, ?lookup_delete_ne by done; auto.
  - intros j h. destruct (decide (id = j)) as [->|Hne];
      rewrite ?lookup_delete_eq, ?lookup_delete_ne by done; [done|eauto].
  - pose proof (map_subseteq_size _ _ (delete_subseteq (terminals m) id)). lia.
  - intros j ti. destruct (decide (id = j)) as [->|Hne];
      rewrite ?lookup_delete_eq, ?lookup_delete_ne by done; [done|eauto].
Qed.

Lemma Inv_armed id d m : is_Some (terminals m !! id) -> Inv m -> Inv (armed id d m).
Proof.
  intros [ti Hti] [I1 I2 I3 I4 I5].
  split; cbn [armed terminals terminalTimeouts agentHandoffs maxTerminals]; auto.
  intros j Hj. destruct (decide (id = j)) as [->|Hne]; [congruence|].
  rewrite lookup_insert_ne by done. auto.
Qed.

Lemma Inv_registered now clientWs id message m :
  (size (terminals m) < maxTerminals m)%nat -> Inv m ->
  Inv (registered now clientWs id message m).
Proof.
  intros Hlt [I1 I2 I3 I4 I5].
  split; cbn [registered terminals terminalTimeouts agentHandoffs maxTerminals]; auto.
  - intros j. destruct (decide (id = j)) as [->|Hne];
      rewrite ?lookup_insert_eq, ?lookup_insert_ne by done; [done|auto].
  - intros j. destruct (decide (id = j)) as [->|Hne];
      rewrite ?lookup_insert_eq, ?lookup_insert_ne by done; [done|auto].
  - rewrite map_size_insert. destruct (terminals m !! id); simpl; lia.
  - intros j ti. destruct (decide (id = j)) as [->|Hne];
      rewrite ?lookup_insert_eq, ?lookup_insert_ne by done; [|eauto].
    intros [= <-] _. cbn [agentName]. apply agentNameOf_nonempty.
Qed.

Lemma Inv_handedOff now id name ctx ti m :
  terminals m !! id = Some ti -> Inv m -> Inv (handedOff now id name ctx ti m).
Proof.
  intros Hti [I1 I2 I3 I4 I5].
  split; cbn [handedOff terminals terminalTimeouts agentHandoffs maxTerminals].
  - intros j. destruct (decide (id = j)) as [->|Hne];
      rewrite ?lookup_insert_eq, ?lookup_insert_ne by done; [done|auto].
  - intros j. destruct (decide (id = j)) as [->|Hne];
      rewrite ?lookup_insert_eq, ?lookup_insert_ne by done; [done|auto].
  - intros j h. destruct (decide (id = j)) as [->|Hne];
      rewrite ?lookup_insert_eq, ?lookup_insert_ne by done; [|eauto].
    intros [= <-]. cbn [history currentAgent]. by rewrite last_snoc.
  - rewrite map_size_insert, Hti. simpl. lia.
  - intros j tj. destruct (decide (id = j)) as [->|Hne];
      rewrite ?lookup_insert_eq, ?lookup_insert_ne by done; [done|eauto].
Qed.

Lemma Inv_received now id data m : Inv m -> Inv (received now id data m).
Proof.
  intros [I1 I2 I3 I4 I5].
  split; cbn [received terminals terminalTimeouts agentHandoffs maxTerminals]; auto.
  - intros j. destruct (terminals m !! id) as [ti|] eqn:Hti; [|auto].
    destruct (decide (id = j)) as [->|Hne];
      rewrite ?lookup_insert_eq, ?lookup_insert_ne by done; [done|auto].
  - intros j. destruct (terminals m !! id) as [ti|] eqn:Hti; [|auto].
    destruct (decide (id = j)) as [->|Hne];
      rewrite ?lookup_insert_eq, ?lookup_insert_ne by done; [done|auto].
  - destruct (terminals m !! id) as [ti|] eqn:Hti; [|auto].
    rewrite map_size_insert, Hti. simpl. lia.
  - intros j tj. destruct (terminals m !! id) as [ti|] eqn:Hti; [|eauto].
    destruct (decide (id = j)) as [->|Hne];
      rewrite ?lookup_insert_eq, ?lookup_insert_ne by done; [|eauto].
    intros [= <-]. cbn [heard agentName]. eauto.
Qed.

Lemma Inv_after script ev m : Inv m -> Inv (after script ev m).
Proof.
  intros HI. destruct ev as [now uuid clientWs message|now clientWs message
    |now clientWs message|cols rows message|clientWs message
    |now id name ctx|now id clientWs data|id clientWs exitCode|id].
  - rewrite after_create.
    destruct (maxTerminals m <=? size (terminals m))%nat eqn:Hfull; [done|].
    destruct (nonLocal message); [done|].
    destruct (isClaudeAgentOf message && returns2 script); [|done].
    apply Inv_registered; [by apply Nat.leb_gt|done].
  - rewrite after_command.
    destruct (terminals m !! Msg.terminalId message) eqn:H; [|done].
    destruct script as [|[e|] script]; try done; apply Inv_armed; eauto.
  - rewrite after_input.
    destruct (terminals m !! Msg.terminalId message) eqn:H; [|done].
    destruct script as [|[e|] script]; try done; apply Inv_armed; eauto.
  - by rewrite after_resize.
  - destruct (after_destroy script clientWs message m) as [-> | [_ ->]];
      [done | by apply Inv_removed].
  - rewrite after_handoff.
    destruct (terminals m !! id) eqn:H; [by apply Inv_handedOff | done].
  - rewrite after_data. apply Inv_received.
    destruct (handoffPattern data) as [[name text]|]; [|done].
    destruct (terminals m !! id) eqn:H; [by apply Inv_handedOff | done].
  - rewrite after_exit. by apply Inv_removed.
  - rewrite after_timeout.
    destruct (terminals m !! id); [|done].
    destruct script as [|[e|] script]; try done; by apply Inv_removed.
Qed.

Lemma maxTerminals_after script ev m :
  maxTerminals (after script ev m) = maxTerminals m.
Proof.
  destruct ev as [now uuid clientWs message|now clientWs message
    |now clientWs message|cols rows message|clientWs message
    |now id name ctx|now id clientWs data|id clientWs exitCode|id].
  - rewrite after_create.
    repeat (match goal with |- context [if ?b then _ else _] => destruct b end);
      reflexivity.
  - rewrite after_command. destruct (terminals m !! _); [|done].
    destruct script as [|[e|] script]; reflexivity.
  - rewrite after_input. destruct (terminals m !! _); [|done].
    destruct script as [|[e|] script]; reflexivity.
  - by rewrite after_resize.
  - destruct (after_destroy script clientWs message m) as [-> | [_ ->]]; reflexivity.
  - rewrite after_handoff. destruct (terminals m !! id); reflexivity.
  - rewrite after_data. cbn [received maxTerminals].
    destruct (handoffPattern data) as [[name text]|]; [|done].
    destruct (terminals m !! id); reflexivity.
  - by rewrite after_exit.
  - rewrite after_timeout. destruct (terminals m !! id); [|done].
    destruct script as [|[e|] script]; reflexivity.
Qed.

Lemma reachable_Inv max m : reachable max m -> Inv m /\ maxTerminals m = max.
Proof.
  induction 1 as [|script ev m Hr [IH1 IH2]].
  - split; [apply Inv_new | reflexivity].
  - split; [by apply Inv_after | by rewrite maxTerminals_after].
Qed.

End RegistryFacts.

Module RegistryClaims.
Import Registry RegistryFacts.

Lemma oneSession_eq : terminalTimeouts oneSession !! "terminal-u1" = Some 1800000.
Proof. vm_compute. reflexivity. Qed.

Lemma handoffsTo_snoc id calls c m :
  handoffsTo id (calls ++ [c]) m =
    after (outcomes c) (Handoff (at_ c) id (to c) (with_ c)) (handoffsTo id calls m).
Proof. unfold handoffsTo. by rewrite fold_left_app. Qed.

Lemma handoffs_record id calls m ti :
  terminals m !! id = Some ti -> agentHandoffs m !! id = None ->
  calls <> [] ->
  is_Some (terminals (handoffsTo id calls m) !! id) /\
  exists h,
    agentHandoffs (handoffsTo id calls m) !! id = Some h /\
    toAgent <$> history h = to <$> calls /\
    fromAgent <$> head (history h) = Some (Js.orElse (Some (agentName ti)) "bash") /\
    Some (currentAgent h) = to <$> last calls.
Proof.
  intros Hti Hh. induction calls as [|c calls IH] using rev_ind; [done|].
  intros _. rewrite handoffsTo_snoc, after_handoff.
  destruct calls as [|c0 calls0].
  - cbn [handoffsTo fold_left app]. rewrite Hti.
    cbn [handedOff terminals agentHandoffs]. rewrite !lookup_insert_eq.
    split; [eauto|]. eexists. split; [reflexivity|].
    unfold recordOf. rewrite Hh.
    cbn [default history currentAgent app fmap list_fmap head transitionOf
         fromAgent toAgent last].
    done.
  - destruct IH as ([ti' Hti'] & h & Hh' & Hto & Hfrom & Hcur); [done|].
    set (calls := c0 :: calls0) in *.
    rewrite Hti'. cbn [handedOff terminals agentHandoffs]. rewrite !lookup_insert_eq.
    split; [eauto|]. eexists. split; [reflexivity|].
    unfold recordOf. rewrite Hh'. change (default _ (Some h)) with h.
    cbn [history currentAgent]. rewrite !fmap_app, Hto.
    cbn [fmap list_fmap transitionOf toAgent].
    split; [done|]. split.
    + destruct (history h) as [|t0 hs] eqn:Hhist; [|done].
      subst calls. discriminate Hto.
    + by rewrite last_snoc.
Qed.

Lemma reachable_oneSession : reachable 2 oneSession.
Proof. apply reach_turn, reach_new. Qed.




(** C3: destroying a registered session whose process accepts the kill
    removes it, and a destroy of the same id right after sends the
    not-found error and leaves the registry (sessions, timers, handoff
    records) as it was; so does every destroy of an id that has no
    session. *)
Theorem C3_destroy_twice script script' clientWs clientWs' message message' m :
  Msg.terminalId message' = Msg.terminalId message ->
  (terminals m !! Msg.terminalId message = None ->
   turn script (Destroy clientWs message) m =
     (m, [SendTerminalDestroyed clientWs (Msg.id message)
            (Msg.terminalId message) false "Terminal not found"])) /\
  (is_Some (terminals m !! Msg.terminalId message) ->
   returns script ->
   let m1 := after script (Destroy clientWs message) m in
   terminals m1 !! Msg.terminalId message = None /\
   turn script' (Destroy clientWs' message') m1 =
     (m1, [SendTerminalDestroyed clientWs' (Msg.id message')
             (Msg.terminalId message) false "Terminal not found"])).
Proof.
  intros Heq. split; [apply destroy_absent|].
  intros [ti Hti] Hs m1. subst m1. unfold after.
  erewrite destroy_present by done. cbn [fst].
  assert (terminals (removed (Msg.terminalId message) m)
            !! Msg.terminalId message = None) as Hgone
    by (cbn [removed terminals]; apply lookup_delete_eq).
  split; [exact Hgone|].
  rewrite destroy_absent by (by rewrite Heq). by rewrite Heq.
Qed.

Lemma C3_destroy_twice_witness :
  let m1 := after [] (Destroy 7%nat (about "d1" "terminal-u1" "")) oneSession in
  terminals m1 !! "terminal-u1" = None /\
  turn [] (Destroy 7%nat (about "d2" "terminal-u1" "")) m1 =
    (m1, [SendTerminalDestroyed 7%nat "d2" "terminal-u1" false
            "Terminal not found"]).
Proof.
  refine (proj2 (C3_destroy_twice [] [] 7%nat 7%nat
                   (about "d1" "terminal-u1" "")
                   (about "d2" "terminal-u1" "") oneSession _) _ _).
  - reflexivity.
  - eexists. vm_compute. reflexivity.
  - exact I.
Defined.

(** C4: in a reachable registry the current agent of every handoff record
    is the to-agent of its last transition.  A session that was never
    handed off has no record, an empty history, and its own agent name as
    the agent a handoff would start from.  After n >= 1 handoff calls its
    record holds n transitions, the current agent is the to-agent of the
    last one, which is the agent of the last call, and the first transition
    starts from the session's original agent name. *)
Theorem C4_handoff_history max m id ti calls :
  reachable max m ->
  terminals m !! id = Some ti ->
  agentHandoffs m !! id = None ->
  (forall id' h, agentHandoffs m !! id' = Some h ->
     toAgent <$> last (history h) = Some (currentAgent h)) /\
  currentAgentOf m id = Some (agentName ti) /\
  getHandoffHistory m id = (None, []) /\
  (calls <> [] ->
   exists h,
     agentHandoffs (handoffsTo id calls m) !! id = Some h /\
     length (history h) = length calls /\
     toAgent <$> last (history h) = Some (currentAgent h) /\
     Some (currentAgent h) = to <$> last calls /\
     fromAgent <$> head (history h) = Some (agentName ti) /\
     getHandoffHistory (handoffsTo id calls m) id =
       (Some (currentAgent h), history h)).
Proof.
  intros Hr Hti Hh. destruct (reachable_Inv _ _ Hr) as [HI _].
  assert (Js.orElse (Some (agentName ti)) "bash" = agentName ti) as Hname.
  { pose proof (inv_named _ HI id ti Hti Hh) as Hne.
    unfold Js.orElse. by destruct (String.eqb_spec (agentName ti) ""). }
  split; [apply HI|]. split; [|split].
  - unfold currentAgentOf. rewrite Hh, Hti.
    cbn [fmap option_fmap option_map]. by rewrite Hname.
  - unfold getHandoffHistory. by rewrite Hh.
  - intros Hne.
    destruct (handoffs_record id calls m ti Hti Hh Hne)
      as (_ & h & Hrec & Hto & Hfrom & Hcur).
    exists h. split; [done|]. split; [|split; [|split; [|split]]].
    + rewrite <- (length_fmap toAgent), Hto. apply length_fmap.
    + rewrite <- fmap_last, Hto, fmap_last. done.
    + done.
    + by rewrite Hfrom, Hname.
    + unfold getHandoffHistory. by rewrite Hrec.
Qed.


Lemma C4_handoff_history_witness :
  exists h,
    agentHandoffs (handoffsTo "terminal-u1" twoCalls oneSession)
      !! "terminal-u1" = Some h /\
    length (history h) = 2%nat /\
    toAgent <$> last (history h) = Some (currentAgent h) /\
    Some (currentAgent h) = Some "tester" /\
    fromAgent <$> head (history h) = Some "worker".
Proof.
  assert (exists ti, terminals oneSession !! "terminal-u1" = Some ti
                     /\ agentName ti = "worker") as (ti & Hti & Hname)
    by (eexists; split; vm_compute; reflexivity).
  destruct (C4_handoff_history 2 oneSession "terminal-u1" ti twoCalls
              reachable_oneSession Hti) as (_ & _ & _ & H).
  { vm_compute. reflexivity. }
  destruct H as (h & H1 & H2 & H3 & H4 & H5 & _); [discriminate|].
  exists h. rewrite <- Hname. auto.
Defined.

(** *** The idle timer *)

Lemma hears_keeps id clientWs outs m :
  is_Some (terminals m !! id) ->
  terminalTimeouts (hears id clientWs outs m) = terminalTimeouts m /\
  is_Some (terminals (hears id clientWs outs m) !! id).
Proof.
  revert m. induction outs as [|[now data] outs IH]; intros m [ti Hti].
  - split; [reflexivity | eauto].
  - cbn [hears fold_left fst snd].
    set (m1 := after [] (Data now id clientWs data) m).
    assert (terminalTimeouts m1 = terminalTimeouts m
            /\ is_Some (terminals m1 !! id)) as [Ht Hs].
    { subst m1. rewrite after_data.
      destruct (handoffPattern data) as [[name text]|]; rewrite ?Hti;
        cbn [received handedOff terminals terminalTimeouts];
        rewrite ?lookup_insert_eq, ?Hti; rewrite ?lookup_insert_eq; eauto. }
    destruct (IH m1 Hs) as [IH1 IH2]. fold (hears id clientWs outs m1).
    split; [by rewrite IH1 | exact IH2].
Qed.

(** C5, as amended.  A write to a registered session's process made by the
    terminal-input or the terminal-command handler, when it returns, arms
    the session's timer for the full 30 minutes from that moment.  Output
    received from the process refreshes the session's last-activity time
    and leaves every timer as it was: however much output has arrived, the
    callback of the timer still removes the session when it runs. *)
Theorem C5_idle_timer script now clientWs message m ti :
  terminals m !! Msg.terminalId message = Some ti ->
  returns script ->
  terminalTimeouts (after script (Input now clientWs message) m)
    !! Msg.terminalId message = Some (now + idleWindow) /\
  terminalTimeouts (after script (Command now clientWs message) m)
    !! Msg.terminalId message = Some (now + idleWindow) /\
  (forall script' data,
     let m' :=
       after script' (Data now (Msg.terminalId message) clientWs data) m in
     terminalTimeouts m' = terminalTimeouts m /\
     lastActivity <$> terminals m' !! Msg.terminalId message = Some now) /\
  (forall outs,
     let m' := hears (Msg.terminalId message) clientWs outs m in
     terminalTimeouts m' = terminalTimeouts m /\
     terminals (after [] (Expire (Msg.terminalId message)) m')
       !! Msg.terminalId message = None).
Proof.
  intros Hti Hs. split; [|split; [|split]]; cycle 3.
  { intros outs m'. subst m'.
    destruct (hears_keeps (Msg.terminalId message) clientWs outs m)
      as [Ht [tj Htj]]; [eauto|].
    split; [exact Ht|]. rewrite after_timeout, Htj.
    cbn [removed terminals]. apply lookup_delete_eq. }
  - rewrite after_input, Hti.
    destruct script as [|[e|] script]; try done;
      cbn [armed terminalTimeouts]; apply lookup_insert_eq.
  - rewrite after_command, Hti.
    destruct script as [|[e|] script]; try done;
      cbn [armed terminalTimeouts]; apply lookup_insert_eq.
  - intros script' data m'. subst m'. rewrite after_data.
    destruct (handoffPattern data) as [[name text]|]; rewrite ?Hti;
      cbn [received handedOff terminals terminalTimeouts];
      rewrite ?lookup_insert_eq, ?Hti; rewrite ?lookup_insert_eq; done.
Qed.

Lemma C5_idle_timer_witness :
  terminalTimeouts
    (after [] (Input 1000 7%nat (about "i1" "terminal-u1" "ls")) oneSession)
    !! "terminal-u1" = Some (1000 + idleWindow) /\
  terminalTimeouts
    (after [] (Data 1000 "terminal-u1" 7%nat "total 0") oneSession) =
  terminalTimeouts oneSession.
Proof.
  assert (exists ti, terminals oneSession !! "terminal-u1" = Some ti)
    as [ti Hti] by (eexists; vm_compute; reflexivity).
  destruct (C5_idle_timer [] 1000 7%nat (about "i1" "terminal-u1" "ls")
              oneSession ti Hti I) as (H1 & _ & H3 & _).
  split; [exact H1|]. exact (proj1 (H3 [] "total 0")).
Defined.

(** C5 as stated fails: output at 1 799 999 ms leaves the deadline of the
    timer armed at creation, 1 800 000 ms, and the callback that runs at
    that deadline removes the session. *)
Lemma C5_output_leaves_deadline :
  let m1 := after [] (Data 1799999 "terminal-u1" 7%nat "building...") oneSession in
  terminalTimeouts m1 !! "terminal-u1" = Some 1800000 /\
  terminalTimeouts m1 !! "terminal-u1" <> Some (1799999 + idleWindow) /\
  terminals (after [] (Expire "terminal-u1") m1) !! "terminal-u1" = None.
Proof. vm_compute. repeat split; congruence. Qed.

(** *** Removal *)

(** C7, as amended.  In a reachable registry no timer and no handoff
    record is kept for an id that has no session.  A session leaves the
    registry only in a destroy request for its id, in the exit handler of
    its process, or in the callback of its idle timer; in each case its
    timer entry and its handoff record are gone afterwards, and the destroy
    and exit paths clear a timer that was armed. *)
Theorem C7_removal max m :
  reachable max m ->
  (forall id, terminals m !! id = None ->
     terminalTimeouts m !! id = None /\ agentHandoffs m !! id = None) /\
  (forall script ev id,
     is_Some (terminals m !! id) ->
     terminals (after script ev m) !! id = None ->
     removes ev id /\
     terminalTimeouts (after script ev m) !! id = None /\
     agentHandoffs (after script ev m) !! id = None /\
     (is_Some (terminalTimeouts m !! id) -> destroysOrExits ev id ->
      In (ClearTimeout id) (snd (turn script ev m)))).
Proof.
  intros Hr. destruct (reachable_Inv _ _ Hr) as [HI _]. split.
  { intros id Hid. split; [by apply HI | by apply HI]. }
  intros script ev id [ti Hti] Hgone.
  assert (Inv (after script ev m)) as HI' by by apply Inv_after.
  assert (removes ev id) as Hrem.
  { destruct ev as [now uuid clientWs message|now clientWs message
      |now clientWs message|cols rows message|clientWs message
      |now tid name ctx|now tid clientWs data|tid clientWs exitCode|tid];
      cbn [removes].
    - rewrite after_create in Hgone.
      repeat (match type of Hgone with
              | context [if ?b then _ else _] => destruct b end);
        try congruence.
      cbn [registered terminals] in Hgone.
      apply lookup_insert_None in Hgone as [? _]. congruence.
    - rewrite after_command in Hgone.
      destruct (terminals m !! Msg.terminalId message); [|congruence].
      destruct script as [|[e|] script]; cbn [armed terminals] in Hgone; congruence.
    - rewrite after_input in Hgone.
      destruct (terminals m !! Msg.terminalId message); [|congruence].
      destruct script as [|[e|] script]; cbn [armed terminals] in Hgone; congruence.
    - rewrite after_resize in Hgone. congruence.
    - destruct (after_destroy script clientWs message m) as [Heq | [_ Heq]];
        rewrite Heq in Hgone; [congruence|].
      cbn [removed terminals] in Hgone.
      destruct (decide (Msg.terminalId message = id)); [done|].
      rewrite lookup_delete_ne in Hgone by done. congruence.
    - rewrite after_handoff in Hgone.
      destruct (terminals m !! tid); [|congruence].
      cbn [handedOff terminals] in Hgone.
      apply lookup_insert_None in Hgone as [? _]. congruence.
    - rewrite after_data in Hgone. cbn [received terminals] in Hgone.
      destruct (handoffPattern data) as [[name text]|];
        [destruct (terminals m !! tid) as [tj|] eqn:Htj|].
      + cbn [handedOff terminals] in Hgone. rewrite lookup_insert_eq in Hgone.
        apply lookup_insert_None in Hgone as [Hgone _].
        apply lookup_insert_None in Hgone as [? _]. congruence.
      + rewrite Htj in Hgone. congruence.
      + destruct (terminals m !! tid); [|congruence].
        apply lookup_insert_None in Hgone as [? _]. congruence.
    - rewrite after_exit in Hgone. cbn [removed terminals] in Hgone.
      destruct (decide (tid = id)); [done|].
      rewrite lookup_delete_ne in Hgone by done. congruence.
    - rewrite after_timeout in Hgone.
      destruct (decide (tid = id)); [done|].
      destruct (terminals m !! tid); [|congruence].
      destruct script as [|[e|] script]; try congruence;
        cbn [removed terminals] in Hgone;
        rewrite lookup_delete_ne in Hgone by done; congruence. }
  split; [exact Hrem|]. split; [by apply HI'|]. split; [by apply HI'|].
  intros [d Hd] Hde.
  destruct ev as [| | | |clientWs message| | |tid clientWs exitCode|];
    cbn [destroysOrExits] in Hde; try done; subst id.
  - destruct script as [|[e|] script].
    + erewrite destroy_present by done. rewrite bool_decide_true by eauto.
      cbn. auto.
    + unfold after in Hgone. erewrite destroy_raised in Hgone by done.
      cbn [fst] in Hgone. congruence.
    + erewrite destroy_present by done. rewrite bool_decide_true by eauto.
      cbn. auto.
  - run. rewrite bool_decide_true by eauto. cbn. auto.
Qed.

Lemma C7_removal_witness :
  removes (Expire "terminal-u1") "terminal-u1" /\
  terminalTimeouts (after [] (Expire "terminal-u1") oneSession)
    !! "terminal-u1" = None /\
  agentHandoffs (after [] (Expire "terminal-u1") oneSession)
    !! "terminal-u1" = None.
Proof.
  destruct (C7_removal 2 oneSession reachable_oneSession) as [_ H].
  destruct (H [] (Expire "terminal-u1") "terminal-u1") as (H1 & H2 & H3 & _).
  - eexists. vm_compute. reflexivity.
  - vm_compute. reflexivity.
  - auto.
Defined.

(** C7 as stated fails: the callback of the idle timer removes a session,
    and it is neither a destroy request nor the exit of the process. *)
Lemma C7_idle_timeout_removes :
  ~ (forall script ev m id,
       reachable 2 m ->
       is_Some (terminals m !! id) ->
       terminals (after script ev m) !! id = None ->
       destroysOrExits ev id).
Proof.
  intros H.
  apply (H [] (Expire "terminal-u1") oneSession "terminal-u1").
  - apply reachable_oneSession.
  - eexists. vm_compute. reflexivity.
  - vm_compute. reflexivity.
Qed.


(** *** The output monitor *)

Lemma dotPlus_nonempty s t : dotPlus s = Some t -> t <> "".
Proof.
  unfold dotPlus. destruct (fst _); [done|]. by intros [= <-].
Qed.

Lemma spacesThenText_nonempty s t : spacesThenText s = Some t -> t <> "".
Proof.
  induction s as [|c s IH]; cbn [spacesThenText]; [done|].
  destruct (Js.isWhiteSpace c); [|done].
  destruct (spacesThenText s) as [t'|].
  - intros [= <-]. by apply IH.
  - apply dotPlus_nonempty.
Qed.

(** The message the monitor hands over is the captured text, or the
    sentence of the source when nothing was captured. *)
Lemma requested_message s name text :
  handoffPattern s = Some (name, text) ->
  Ctx.message (requestedContext text) =
    Some (default "No context provided" text).
Proof.
  intros H. unfold requestedContext. cbn [Ctx.message]. f_equal.
  destruct text as [t|]; [|reflexivity].
  cbn [default from_option]. unfold Js.orElse. change (Datatypes.id t) with t.
  destruct (String.eqb_spec t ""); [|reflexivity]. subst t. exfalso.
  revert H. induction s as [|c s IH].
  - cbn. done.
  - cbn [handoffPattern].
    destruct (handoffPatternAt (String c s)) as [[n' t']|] eqn:Hat; [|exact IH].
    intros [= -> ->]. unfold handoffPatternAt in Hat.
    destruct (literalCI _ _) as [r|]; [|done].
    destruct (Js.span Js.isWordChar r) as [[|a nm] rest]; [done|].
    injection Hat as _ Ht. by apply spacesThenText_nonempty in Ht.
Qed.

Lemma handoffPatternAt_literal c rest :
  Js.isWordChar c = true ->
  exists name text,
    handoffPatternAt ("handoff-to:" +:+ String c rest) = Some (name, text).
Proof.
  intros Hc. unfold handoffPatternAt.
  change (literalCI "handoff-to:" ("handoff-to:" +:+ String c rest))
    with (Some (String c rest)).
  cbn [Js.span]. rewrite Hc. destruct (Js.span Js.isWordChar rest). eauto.
Qed.

Lemma handoffPattern_unfold s :
  handoffPattern s =
    match handoffPatternAt s with
    | Some m => Some m
    | None => match s with
              | EmptyString => None
              | String _ r => handoffPattern r
              end
    end.
Proof. destruct s; reflexivity. Qed.

(** A chunk that contains the literal followed by a word character has a
    match. *)
Lemma handoffPattern_complete pre c rest :
  Js.isWordChar c = true ->
  exists name text,
    handoffPattern (pre +:+ "handoff-to:" +:+ String c rest) = Some (name, text).
Proof.
  intros Hc. induction pre as [|a pre IH].
  - change ("" +:+ ?s) with s.
    destruct (handoffPatternAt_literal c rest Hc) as (name & text & H).
    exists name, text. by rewrite handoffPattern_unfold, H.
  - change (String a pre +:+ ?s) with (String a (pre +:+ s)).
    rewrite handoffPattern_unfold.
    destruct (handoffPatternAt _) as [[n t]|]; eauto.
Qed.

(** C6, as amended.  For every chunk of output of a registered session that
    contains [handoff-to:] followed by a word character, the pattern has a
    match and the chunk adds exactly one transition to the session's
    history: its to-agent is the name captured by the leftmost match, it
    starts from the session's current agent, and its context message is the
    captured text, or [No context provided] when no text was captured. *)
Theorem C6_output_handoff script now id clientWs m ti pre c rest :
  terminals m !! id = Some ti ->
  Js.isWordChar c = true ->
  let data := pre +:+ "handoff-to:" +:+ String c rest in
  exists name text h tr,
    handoffPattern data = Some (name, text) /\
    agentHandoffs (after script (Data now id clientWs data) m) !! id = Some h /\
    history h = history (recordOf m id ti) ++ [tr] /\
    currentAgent h = name /\
    fromAgent tr = currentAgent (recordOf m id ti) /\
    toAgent tr = name /\
    Ctx.message (context tr) = Some (default "No context provided" text).
Proof.
  intros Hti Hc data.
  destruct (handoffPattern_complete pre c rest Hc) as (name & text & Hm).
  fold data in Hm. exists name, text.
  eexists _, (transitionOf now (currentAgent (recordOf m id ti)) name
                (requestedContext text)).
  split; [exact Hm|].
  rewrite after_data, Hm, Hti.
  cbn [received handedOff agentHandoffs]. rewrite lookup_insert_eq.
  split; [reflexivity|].
  cbn [history currentAgent transitionOf fromAgent toAgent context].
  repeat split. by eapply requested_message.
Qed.

Lemma C6_output_handoff_witness :
  exists h tr,
    handoffPattern scenarioChunk = Some ("reviewer", Some "please check PR") /\
    agentHandoffs (after [] (Data 5 "terminal-u1" 7%nat scenarioChunk) oneSession)
      !! "terminal-u1" = Some h /\
    history h = [tr] /\
    toAgent tr = "reviewer" /\
    Ctx.message (context tr) = Some "please check PR".
Proof.
  assert (exists ti, terminals oneSession !! "terminal-u1" = Some ti
                     /\ agentHandoffs oneSession !! "terminal-u1" = None)
    as (ti & Hti & Hnone) by (eexists; split; vm_compute; reflexivity).
  destruct (C6_output_handoff [] 5 "terminal-u1" 7%nat oneSession ti
              "" "r" ("eviewer please check PR" +:+ Js.chr Js.LF) Hti eq_refl)
    as (name & text & h & tr & Hm & Hh & Hhist & _ & _ & Hto & Hmsg).
  change ("" +:+ "handoff-to:" +:+ String "r" _) with scenarioChunk in *.
  assert (handoffPattern scenarioChunk = Some ("reviewer", Some "please check PR"))
    as Hs by (vm_compute; reflexivity).
  rewrite Hs in Hm. injection Hm as <- <-.
  exists h, tr. unfold recordOf in Hhist. rewrite Hnone in Hhist.
  repeat split; assumption.
Defined.

(** C6 as stated fails: when no text follows the name the message is
    [No context provided], with a capital, and a chunk that holds another
    request before the bytes of the scenario is handed to that request's
    agent. *)
Lemma C6_default_text_and_first_match :
  (exists h tr,
     agentHandoffs
       (after [] (Data 5 "terminal-u1" 7%nat ("handoff-to:reviewer" +:+ Js.chr Js.LF))
          oneSession) !! "terminal-u1" = Some h /\
     history h = [tr] /\
     Ctx.message (context tr) = Some "No context provided" /\
     Ctx.message (context tr) <> Some "no context provided") /\
  (exists h tr,
     agentHandoffs
       (after [] (Data 5 "terminal-u1" 7%nat
                    ("handoff-to:planner first" +:+ Js.chr Js.LF +:+ scenarioChunk))
          oneSession) !! "terminal-u1" = Some h /\
     history h = [tr] /\
     toAgent tr = "planner" /\
     Ctx.message (context tr) = Some "first").
Proof.
  split; eexists _, _; vm_compute; repeat split; congruence.
Qed.

End RegistryClaims.

(** ** The message gateway *)

Module RouterFacts.
Import Router.

Lemma withIndex_same w : withIndex (middlewareIndex w) w = w.
Proof. by destruct w. Qed.

Lemma bind_unit {W} (m : Eff W unit) w : (m;; mret tt) w = m w.
Proof. eff_unfold. destruct (m w) as [[[]|e] w']; reflexivity. Qed.

Lemma typeOf_value message w :
  message <> JNull -> typeOf message w = (Returned (messageType message), w).
Proof. intros H. destruct message; try done. Qed.

(** Routing leaves [middlewareIndex] alone. *)
Lemma act_index a w : middlewareIndex (snd (act a w)) = middlewareIndex w.
Proof.
  destruct a; cbn [act]; unfold sendRawMessage, close; eff_unfold; cbn [snd];
    try destruct (readyState w =? OPEN)%nat; reflexivity.
Qed.

Lemma acts_index l w : middlewareIndex (snd (acts l w)) = middlewareIndex w.
Proof.
  revert w. induction l as [|a l IH]; intros w; [reflexivity|].
  cbn [acts]. eff_unfold. pose proof (act_index a w) as Ha.
  destruct (act a w) as [[[]|e] w']; cbn [snd] in *; [|done].
  by rewrite IH.
Qed.

Lemma sendError_index e w :
  middlewareIndex (snd (sendError e w)) = middlewareIndex w.
Proof.
  unfold sendError, sendRawMessage. eff_unfold. cbn [snd].
  destruct (readyState w =? OPEN)%nat; reflexivity.
Qed.

Lemma routeMessage_index r message w :
  middlewareIndex (snd (routeMessage r message w)) = middlewareIndex w.
Proof.
  unfold routeMessage.
  assert (message = JNull \/ message <> JNull) as [->|Hn]
    by (destruct message; auto; right; discriminate).
  - reflexivity.
  - eff_unfold. rewrite typeOf_value by done.
    destruct (handlerFor r (messageType message)) as [h|].
    + pose proof (acts_index (h message) w) as Ha.
      destruct (acts (h message) w) as [[[]|e] w']; cbn [snd] in *; [done|].
      by rewrite sendError_index.
    + apply sendError_index.
Qed.

Lemma runMiddleware_index k l n :
  (forall w, n <= middlewareIndex w -> n <= middlewareIndex (snd (k w)))%nat ->
  forall w, (n <= middlewareIndex w ->
             n <= middlewareIndex (snd (runMiddleware k l w)))%nat.
Proof.
  intros Hk. induction l as [|[a|] l IH]; intros w Hw; cbn [runMiddleware].
  - exact Hw.
  - eff_unfold. pose proof (act_index a w) as Ha.
    destruct (act a w) as [[[]|e] w']; cbn [snd] in *; [|lia].
    apply IH. lia.
  - eff_unfold. pose proof (Hk w Hw) as Hk'.
    destruct (k w) as [[[]|e] w']; cbn [snd] in *; [|lia].
    by apply IH.
Qed.

Lemma next_index fuel r message n w :
  (n <= middlewareIndex w ->
   n <= middlewareIndex (snd (next fuel r message w)))%nat.
Proof.
  revert n w. induction fuel as [|fuel IH]; intros n w Hw; cbn [next]; eff_unfold.
  - destruct (middleware r !! middlewareIndex w); [exact Hw|].
    by rewrite routeMessage_index.
  - destruct (middleware r !! middlewareIndex w) as [mw|];
      [|by rewrite routeMessage_index].
    unfold setIndex. eff_unfold.
    apply runMiddleware_index; [intros; by apply IH|].
    cbn [middlewareIndex]. lia.
Qed.

Lemma runMiddleware_ext k k' l n :
  (forall w, n <= middlewareIndex w -> k w = k' w)%nat ->
  (forall w, n <= middlewareIndex w -> n <= middlewareIndex (snd (k w)))%nat ->
  forall w, (n <= middlewareIndex w)%nat ->
            runMiddleware k l w = runMiddleware k' l w.
Proof.
  intros Hk Hmono. induction l as [|[a|] l IH]; intros w Hw; cbn [runMiddleware].
  - reflexivity.
  - eff_unfold. pose proof (act_index a w) as Ha.
    destruct (act a w) as [[[]|e] w']; cbn [snd] in *; [|done].
    apply IH. lia.
  - eff_unfold. rewrite <- (Hk w Hw). pose proof (Hmono w Hw) as Hm.
    destruct (k w) as [[[]|e] w']; cbn [snd] in *; [|done].
    by apply IH.
Qed.

(** Past the number of middlewares still to run, fuel makes no difference:
    the bound of [next] is never met. *)
Lemma next_fuel r message fuel fuel' w :
  (length (middleware r) <= fuel + middlewareIndex w)%nat ->
  (length (middleware r) <= fuel' + middlewareIndex w)%nat ->
  next fuel r message w = next fuel' r message w.
Proof.
  revert fuel' w. induction fuel as [|fuel IH]; intros fuel' w Hf Hf'.
  - destruct fuel'; cbn [next]; eff_unfold; [reflexivity|].
    destruct (middleware r !! middlewareIndex w) as [mw|] eqn:Hmw;
      [|reflexivity].
    apply lookup_lt_Some in Hmw. lia.
  - cbn [next]. eff_unfold.
    destruct (middleware r !! middlewareIndex w) as [mw|] eqn:Hmw.
    + pose proof Hmw as Hlt. apply lookup_lt_Some in Hlt.
      destruct fuel' as [|fuel']; [lia|]. cbn [next]. eff_unfold.
      rewrite Hmw.
      unfold setIndex. eff_unfold.
      apply (runMiddleware_ext _ _ _ (S (middlewareIndex w))).
      * intros w' Hw'. apply IH; lia.
      * intros w' Hw'. by apply next_index.
      * cbn [middlewareIndex]. lia.
    + destruct fuel'; cbn [next]; eff_unfold; rewrite Hmw; reflexivity.
Qed.



(** When every middleware hands on, [next] comes down to the routing, with
    the index at the end of the chain. *)
Lemma next_passes r message fuel w :
  passes r message ->
  (length (middleware r) <= fuel + middlewareIndex w)%nat ->
  next fuel r message w =
    routeMessage r message
      (withIndex (Nat.max (middlewareIndex w) (length (middleware r))) w).
Proof.
  intros Hp. revert w. induction fuel as [|fuel IH]; intros w Hf.
  - cbn [next]. eff_unfold.
    rewrite lookup_ge_None_2 by lia.
    rewrite Nat.max_l by lia. by rewrite withIndex_same.
  - cbn [next]. eff_unfold.
    destruct (middleware r !! middlewareIndex w) as [mw|] eqn:Hmw.
    + pose proof (lookup_lt_Some _ _ _ Hmw) as Hlt.
      unfold passes in Hp. rewrite Forall_lookup in Hp.
      rewrite (Hp _ _ Hmw). unfold setIndex. eff_unfold.
      cbn [runMiddleware].
      rewrite (bind_unit (next fuel r message)).
      rewrite IH by (cbn [middlewareIndex]; lia).
      cbn [middlewareIndex]. unfold withIndex. cbn [readyState sent].
      rewrite !Nat.max_r by lia. reflexivity.
    + apply lookup_ge_None in Hmw.
      rewrite Nat.max_l by lia. by rewrite withIndex_same.
Qed.







(** A middleware that does not call its continuation ends the handling of
    the message: nothing is sent. *)
Example halting_middleware_sends_nothing :
  handleMessage haltingRouter OPEN (Parsed (typed "nope")) = (OPEN, []).
Proof. reflexivity. Qed.

End RouterFacts.

(** ** More on strings and on the registry *)

Module TextFacts.
Import Js Text.

Lemma append_assoc (a b c : string) : (a +:+ b) +:+ c = a +:+ (b +:+ c).
Proof.
  induction a as [|x a IH]; [reflexivity|].
  by rewrite !JsFacts.append_cons, IH.
Qed.


Lemma allChars_append p a b :
  allChars p (a +:+ b) = allChars p a && allChars p b.
Proof.
  induction a as [|x a IH]; [reflexivity|].
  rewrite JsFacts.append_cons. cbn [allChars]. by rewrite IH, andb_assoc.
Qed.

End TextFacts.

Module RegistryExtra.
Import Registry RegistryFacts RegistryQueries.

(** *** Shell requests *)

(** X1.  A create request for a plain shell (neither [agentType: "claude"] nor
    [mcpServers]) never registers a session: whatever the collaborators
    do, the registry is left as it was, no process is spawned, written or
    killed, no timer is armed, and the last thing sent is a
    [terminal-created] response with [success: false]. *)
Theorem shell_create_never_registers script now uuid clientWs message m :
  isClaudeAgentOf message = false ->
  exists tr reply,
    turn script (Create now uuid clientWs message) m = (m, tr ++ [reply]) /\
    (exists error,
       reply = SendTerminalCreated clientWs (Msg.id message) false None
                 (Some error)) /\
    Forall (fun e => touchesProcess e = false) (tr ++ [reply]).
Proof.
  intros Hc.
  destruct (maxTerminals m <=? size (terminals m))%nat eqn:Hfull.
  { apply Nat.leb_le in Hfull. rewrite create_full by done.
    exists [], (SendTerminalCreated clientWs (Msg.id message) false None
                  (Some (maxReached (maxTerminals m)))).
    split; [reflexivity|]. split; [eauto|]. repeat constructor. }
  apply Nat.leb_gt in Hfull.
  destruct (nonLocal message) eqn:Hn.
  { rewrite create_nonLocal by done.
    eexists [], _. split; [reflexivity|]. split; [eauto|]. repeat constructor. }
  run. apply Nat.leb_gt in Hfull. rewrite Hfull.
  unfold nonLocal in Hn. rewrite Hn. unfold spawnProcess. rewrite Hc. run.
  repeat (match goal with
          | |- context [if ?b then _ else _] => destruct b
          end);
    try (destruct script as [|[e|] script]);
    cbn [this trace throws tail app];
    first
      [ eexists [_], _;
        split; [reflexivity|]; split; [eauto|]; by repeat constructor
      | eexists [_; _], _;
        split; [reflexivity|]; split; [eauto|]; by repeat constructor ].
Qed.

Lemma shell_create_never_registers_witness :
  exists tr reply,
    turn [] (Create 0 "u2" 7%nat (about "r9" "" "")) oneSession
      = (oneSession, tr ++ [reply]) /\
    (exists error,
       reply = SendTerminalCreated 7%nat "r9" false None (Some error)) /\
    Forall (fun e => touchesProcess e = false) (tr ++ [reply]).
Proof.
  apply (shell_create_never_registers [] 0 "u2" 7%nat (about "r9" "" "")).
  reflexivity.
Defined.


(** *** What every record keeps *)

Lemma reachableFresh_reachable max m : reachableFresh max m -> reachable max m.
Proof. induction 1; [apply reach_new | by apply reach_turn]. Qed.

Lemma pushBounded_length buf e :
  (length buf <= bufferCapacity)%nat ->
  (length (pushBounded buf e) <= bufferCapacity)%nat.
Proof.
  unfold pushBounded, bufferCapacity. intros H.
  destruct (1000 <? length (buf ++ [e]))%nat eqn:Hlt.
  - destruct buf as [|b buf]; cbn in *; [lia|]. rewrite length_app. cbn. lia.
  - apply Nat.ltb_ge in Hlt. exact Hlt.
Qed.

Lemma Kept_new max : Kept (constructor max).
Proof.
  split; cbn [constructor terminals agentHandoffs]; intros *;
    rewrite lookup_empty; done.
Qed.

Lemma Kept_removed id m : Kept m -> Kept (removed id m).
Proof.
  intros [K1 K2 K3]. split; cbn [removed terminals agentHandoffs].
  - intros j tj Hj. apply lookup_delete_Some in Hj as [_ Hj]. eauto.
  - intros j tj Hj. apply lookup_delete_Some in Hj as [_ Hj]. eauto.
  - intros j tj h Hj Hh. apply lookup_delete_Some in Hj as [_ Hj].
    apply lookup_delete_Some in Hh as [_ Hh]. eauto.
Qed.

Lemma Kept_armed id d m : Kept m -> Kept (armed id d m).
Proof. intros [K1 K2 K3]. split; cbn [armed terminals agentHandoffs]; eauto. Qed.

Lemma Kept_registered now clientWs id message m :
  agentHandoffs m !! id = None -> Kept m ->
  Kept (registered now clientWs id message m).
Proof.
  intros Hfresh [K1 K2 K3].
  split; cbn [registered terminals agentHandoffs]; intros j tj.
  - intros [[<- <-]|[_ Hj]]%lookup_insert_Some; [reflexivity | eauto].
  - intros [[<- <-]|[_ Hj]]%lookup_insert_Some; [cbn; lia | eauto].
  - intros h [[<- <-]|[_ Hj]]%lookup_insert_Some Hh; [congruence | eauto].
Qed.

Lemma Kept_handedOff now id name ctx ti m :
  terminals m !! id = Some ti -> Kept m ->
  Kept (handedOff now id name ctx ti m).
Proof.
  intros Hti [K1 K2 K3].
  split; cbn [handedOff terminals agentHandoffs]; intros j tj.
  - intros [[<- <-]|[_ Hj]]%lookup_insert_Some; [cbn; eauto | eauto].
  - intros [[<- <-]|[_ Hj]]%lookup_insert_Some; [cbn; eauto | eauto].
  - intros h [[<- <-]|[Hne Hj]]%lookup_insert_Some.
    + rewrite lookup_insert_eq. by intros [= <-].
    + rewrite lookup_insert_ne by done. eauto.
Qed.

Lemma Kept_received now id data m : Kept m -> Kept (received now id data m).
Proof.
  intros [K1 K2 K3].
  split; cbn [received terminals agentHandoffs]; intros j tj;
    destruct (terminals m !! id) as [ti|] eqn:Hti; eauto.
  - intros [[<- <-]|[_ Hj]]%lookup_insert_Some; [cbn; eauto | eauto].
  - intros [[<- <-]|[_ Hj]]%lookup_insert_Some; [|eauto].
    cbn [heard outputBuffer]. apply pushBounded_length. eauto.
  - intros h [[<- <-]|[_ Hj]]%lookup_insert_Some; [cbn; eauto | eauto].
Qed.

Lemma Kept_after script ev m :
  Inv m -> freshId ev m -> Kept m -> Kept (after script ev m).
Proof.
  intros HI Hf HK. destruct ev as [now uuid clientWs message|now clientWs message
    |now clientWs message|cols rows message|clientWs message
    |now id name ctx|now id clientWs data|id clientWs exitCode|id].
  - rewrite after_create.
    repeat (match goal with
            | |- context [if ?b then _ else _] => destruct b
            end); try done.
    apply Kept_registered; [|done]. by apply HI.
  - rewrite after_command. destruct (terminals m !! _); [|done].
    destruct script as [|[e|] script]; try done; by apply Kept_armed.
  - rewrite after_input. destruct (terminals m !! _); [|done].
    destruct script as [|[e|] script]; try done; by apply Kept_armed.
  - by rewrite after_resize.
  - destruct (after_destroy script clientWs message m) as [-> | [_ ->]];
      [done | by apply Kept_removed].
  - rewrite after_handoff.
    destruct (terminals m !! id) eqn:H; [by apply Kept_handedOff | done].
  - rewrite after_data. apply Kept_received.
    destruct (handoffPattern data) as [[name text]|]; [|done].
    destruct (terminals m !! id) eqn:H; [by apply Kept_handedOff | done].
  - rewrite after_exit. by apply Kept_removed.
  - rewrite after_timeout. destruct (terminals m !! id); [|done].
    destruct script as [|[e|] script]; try done; by apply Kept_removed.
Qed.

(** X2.  In every registry reached with new ids, a record is stored under its own
    [terminalId], its output history holds at most 1000 entries, and once a
    handoff record exists the record's current agent is the name the
    session carries. *)
Theorem records_kept max m :
  reachableFresh max m -> Kept m.
Proof.
  induction 1 as [|script ev m Hr IH Hf]; [apply Kept_new|].
  apply Kept_after; [|done|done].
  by apply (reachable_Inv max), reachableFresh_reachable.
Qed.

Lemma records_kept_witness : Kept oneSession.
Proof.
  apply (records_kept 2). unfold oneSession.
  apply fresh_turn; [apply fresh_new|]. vm_compute. reflexivity.
Defined.

(** *** The output history *)

Lemma lastN_all {A} n (l : list A) : (length l <= n)%nat -> lastN n l = l.
Proof. intros H. unfold lastN. by replace (length l - n)%nat with 0%nat by lia. Qed.

Lemma lastN_snoc {A} n (l : list A) e :
  (0 < n)%nat -> lastN n (lastN n l ++ [e]) = lastN n (l ++ [e]).
Proof.
  intros Hn. unfold lastN.
  destruct (decide (length l <= n)%nat) as [Hle|Hgt].
  - by replace (length l - n)%nat with 0%nat by lia.
  - rewrite !length_app, length_drop. cbn [length].
    rewrite !drop_app_le by (rewrite ?length_drop; lia).
    rewrite drop_drop. do 2 f_equal. lia.
Qed.

Lemma lastN_length {A} n (l : list A) : (length (lastN n l) <= n)%nat.
Proof. unfold lastN. rewrite length_drop. lia. Qed.

Lemma lastN_app {A} n (l k : list A) :
  (0 < n)%nat -> lastN n (lastN n l ++ k) = lastN n (l ++ k).
Proof.
  intros Hn. induction k as [|x k IH] using rev_ind.
  - rewrite !app_nil_r. apply lastN_all, lastN_length.
  - rewrite !app_assoc.
    rewrite <- (lastN_snoc n (lastN n l ++ k)) by done.
    rewrite IH. by apply lastN_snoc.
Qed.

Lemma pushBounded_lastN buf e :
  (length buf <= bufferCapacity)%nat ->
  pushBounded buf e = lastN bufferCapacity (buf ++ [e]).
Proof.
  unfold pushBounded, lastN, bufferCapacity. intros H.
  destruct (1000 <? length (buf ++ [e]))%nat eqn:Hlt.
  - apply Nat.ltb_lt in Hlt. rewrite length_app in *. cbn [length] in *.
    replace (length buf + 1 - 1000)%nat with 1%nat by lia.
    by destruct (buf ++ [e]).
  - apply Nat.ltb_ge in Hlt.
    by replace (length (buf ++ [e]) - 1000)%nat with 0%nat by lia.
Qed.

(** X3.  The output history is a window on the output: after the process of a
    registered session has emitted the chunks [outs], the history holds the
    last 1000 entries of what it held before followed by [outs], in
    order. *)
Theorem history_is_last_1000 id clientWs outs m ti :
  terminals m !! id = Some ti ->
  (length (outputBuffer ti) <= bufferCapacity)%nat ->
  exists ti',
    terminals (hears id clientWs outs m) !! id = Some ti' /\
    outputBuffer ti' = lastN bufferCapacity (outputBuffer ti ++ outs).
Proof.
  revert m ti. induction outs as [|[now data] outs IH]; intros m ti Hti Hlen.
  - exists ti. split; [done|]. rewrite app_nil_r. by rewrite lastN_all.
  - cbn [hears fold_left fst snd].
    set (m1 := after [] (Data now id clientWs data) m).
    assert (exists t1, terminals m1 !! id = Some t1 /\
              outputBuffer t1 = pushBounded (outputBuffer ti) (now, data))
      as (t1 & Ht1 & Hb1).
    { subst m1. rewrite after_data.
      destruct (handoffPattern data) as [[name text]|]; rewrite ?Hti;
        cbn [received handedOff terminals];
        rewrite ?lookup_insert_eq, ?Hti; rewrite ?lookup_insert_eq;
        eexists; (split; [reflexivity|]); reflexivity. }
    destruct (IH m1 t1 Ht1) as (ti' & Hti' & Hb).
    { rewrite Hb1. by apply pushBounded_length. }
    fold (hears id clientWs outs m1). exists ti'. split; [done|].
    rewrite Hb, Hb1, pushBounded_lastN by done.
    rewrite lastN_app by (unfold bufferCapacity; lia).
    by rewrite <- app_assoc.
Qed.

Lemma history_is_last_1000_witness :
  exists ti',
    terminals (hears "terminal-u1" 7%nat [(1, "a"); (2, "b")] oneSession)
      !! "terminal-u1" = Some ti' /\
    outputBuffer ti' = [(1, "a"); (2, "b")].
Proof.
  assert (exists ti, terminals oneSession !! "terminal-u1" = Some ti
                     /\ outputBuffer ti = []) as (ti & Hti & Hbuf)
    by (eexists; split; vm_compute; reflexivity).
  destruct (history_is_last_1000 "terminal-u1" 7%nat [(1, "a"); (2, "b")]
              oneSession ti Hti) as (ti' & H1 & H2).
  { rewrite Hbuf. unfold bufferCapacity. cbn [length]. lia. }
  exists ti'. split; [exact H1|]. rewrite H2, Hbuf. reflexivity.
Defined.


(** *** Statistics *)

(** X4.  The counts of [getStats] in a reachable registry: the sessions with a
    handoff record are counted twice under two names, and they are no more
    than the sessions, which are no more than the maximum. *)
Theorem stats_ordered max m :
  reachable max m ->
  terminalsWithHandoffs (getStats m) = activeHandoffs (getStats m) /\
  (activeHandoffs (getStats m) <= totalTerminals (getStats m))%nat /\
  (totalTerminals (getStats m) <= statsMaxTerminals (getStats m))%nat /\
  statsMaxTerminals (getStats m) = max.
Proof.
  intros Hr. destruct (reachable_Inv _ _ Hr) as [HI Hmax].
  cbn [getStats terminalsWithHandoffs activeHandoffs totalTerminals
       statsMaxTerminals].
  split; [|split; [|split]].
  - by rewrite length_fmap, length_map_to_list.
  - rewrite <- (size_dom (D := gset string) (agentHandoffs m)).
    rewrite <- (size_dom (D := gset string) (terminals m)).
    apply subseteq_size. intros i Hi.
    apply elem_of_dom. apply elem_of_dom in Hi.
    destruct (terminals m !! i) eqn:Hti; [eauto|].
    rewrite (inv_handoffs _ HI i Hti) in Hi. by destruct Hi.
  - apply HI.
  - exact Hmax.
Qed.

Lemma stats_ordered_witness :
  terminalsWithHandoffs (getStats oneSession)
    = activeHandoffs (getStats oneSession) /\
  (activeHandoffs (getStats oneSession)
     <= totalTerminals (getStats oneSession))%nat /\
  (totalTerminals (getStats oneSession)
     <= statsMaxTerminals (getStats oneSession))%nat /\
  statsMaxTerminals (getStats oneSession) = 2%nat.
Proof.
  apply stats_ordered. apply RegistryClaims.reachable_oneSession.
Defined.

(** *** Events for a terminal that is not there *)

Lemma removed_absent id m :
  Inv m -> terminals m !! id = None -> removed id m = m.
Proof.
  intros HI Hid. destruct m as [ts tos hs mx]. unfold removed.
  cbn [terminals terminalTimeouts agentHandoffs maxTerminals] in *.
  pose proof (inv_timeouts _ HI id Hid) as H1.
  pose proof (inv_handoffs _ HI id Hid) as H2.
  cbn in H1, H2. by rewrite !delete_id.
Qed.

(** X5.  Once a session is gone, whatever still arrives for its id changes
    nothing in a reachable registry: a late exit or timer callback, late
    output, input, a command, a resize, a destroy or a handoff. *)
Theorem late_events_change_nothing max m script ev id :
  reachable max m ->
  terminals m !! id = None ->
  target ev = Some id ->
  after script ev m = m.
Proof.
  intros Hr Hid Ht. destruct (reachable_Inv _ _ Hr) as [HI _].
  destruct ev as [now uuid clientWs message|now clientWs message
    |now clientWs message|cols rows message|clientWs message
    |now tid name ctx|now tid clientWs data|tid clientWs exitCode|tid];
    cbn [target] in Ht; try discriminate; injection Ht as <-.
  - by rewrite after_command, Hid.
  - by rewrite after_input, Hid.
  - by rewrite after_resize.
  - unfold after. by rewrite destroy_absent.
  - by rewrite after_handoff, Hid.
  - rewrite after_data.
    destruct (handoffPattern data) as [[? ?]|]; rewrite ?Hid;
      unfold received; rewrite Hid; apply manager_eta.
  - rewrite after_exit. by apply removed_absent.
  - by rewrite after_timeout, Hid.
Qed.

Lemma late_events_change_nothing_witness :
  after [] (Exit "terminal-u1" 7%nat 0)
        (after [] (Destroy 7%nat (about "d1" "terminal-u1" "")) oneSession) =
  after [] (Destroy 7%nat (about "d1" "terminal-u1" "")) oneSession.
Proof.
  apply (late_events_change_nothing 2 _ [] _ "terminal-u1").
  - apply reach_turn, reach_turn, reach_new.
  - vm_compute. reflexivity.
  - reflexivity.
Defined.

(** *** Commands *)

(** X6.  [handleTerminalCommand]: for an id without session the only thing done
    is the [Terminal not found] response; when the write raises, the
    response carries the error's message and the registry, its timer
    included, is left as it was; when the write returns, what was written
    is the command followed by the two characters backslash and r, and the
    timer is armed anew. *)
Theorem command_outcomes script now clientWs message m :
  let id := Msg.terminalId message in
  (terminals m !! id = None ->
   turn script (Command now clientWs message) m =
     (m, [SendCommandExecuted clientWs (Msg.id message) id false
            (Some "Terminal not found")])) /\
  (is_Some (terminals m !! id) ->
   forall e rest, script = Some e :: rest ->
   turn script (Command now clientWs message) m =
     (m, [PtyWriteThrew id (Msg.command message +:+ "\r");
          SendCommandExecuted clientWs (Msg.id message) id false (Some e)])) /\
  (is_Some (terminals m !! id) ->
   returns script ->
   turn script (Command now clientWs message) m =
     (armed id (now + idleWindow) m,
      [PtyWrite id (Msg.command message +:+ "\r");
       SendCommandExecuted clientWs (Msg.id message) id true None] ++
      (if bool_decide (is_Some (terminalTimeouts m !! id))
       then [ClearTimeout id] else []) ++
      [SetTimeout id (now + idleWindow)])).
Proof.
  intros id. subst id. split; [|split].
  - intros H. run. rewrite H. reflexivity.
  - intros [ti H] e rest ->. run. rewrite H. reflexivity.
  - intros [ti H] Hs. run. rewrite H.
    destruct script as [|[e|] script]; [|done|];
      cbn [this trace throws tail terminalTimeouts];
      destruct (bool_decide _); reflexivity.
Qed.

Lemma command_outcomes_witness :
  turn [Some "EIO"] (Command 9 7%nat (about "c1" "terminal-u1" "ls")) oneSession =
    (oneSession,
     [PtyWriteThrew "terminal-u1" ("ls" +:+ "\r");
      SendCommandExecuted 7%nat "c1" "terminal-u1" false (Some "EIO")]).
Proof.
  refine (proj1 (proj2 (command_outcomes [Some "EIO"] 9 7%nat
                          (about "c1" "terminal-u1" "ls") oneSession))
            _ "EIO" [] eq_refl).
  eexists. vm_compute. reflexivity.
Defined.

(** X7.  [handleDestroyTerminal] when the kill raises: nothing is removed, and
    the response carries [success: false] and the error's message. *)
Theorem destroy_kill_raises e script clientWs message m :
  is_Some (terminals m !! Msg.terminalId message) ->
  turn (Some e :: script) (Destroy clientWs message) m =
    (m, [PtyKillThrew (Msg.terminalId message);
         ConsoleError "Error destroying terminal";
         SendTerminalDestroyed clientWs (Msg.id message)
           (Msg.terminalId message) false e]).
Proof. intros [ti H]. by eapply destroy_raised. Qed.

Lemma destroy_kill_raises_witness :
  turn [Some "EPERM"] (Destroy 7%nat (about "d1" "terminal-u1" "")) oneSession =
    (oneSession,
     [PtyKillThrew "terminal-u1"; ConsoleError "Error destroying terminal";
      SendTerminalDestroyed 7%nat "d1" "terminal-u1" false "EPERM"]).
Proof.
  apply (destroy_kill_raises "EPERM" [] 7%nat (about "d1" "terminal-u1" "")).
  eexists. vm_compute. reflexivity.
Defined.

(** *** Handoffs *)

(** X8.  A handoff whose banner cannot be written is recorded all the same: the
    promise is rejected with the error of the write, and the registry
    already holds the new transition and the new agent name. *)
Theorem handoff_recorded_though_rejected now id name ctx w ti e rest :
  terminals (this w) !! id = Some ti ->
  throws w = Some e :: rest ->
  handoffToAgent now id name ctx w =
    (Thrown e,
     {| this := handedOff now id name ctx ti (this w);
        trace := trace w ++
          [PtyWriteThrew id
             (handoffBanner (currentAgent (recordOf (this w) id ti)) name)];
        throws := rest |}).
Proof.
  intros H Ht. destruct w as [m tr th]. cbn [this throws trace] in *. subst th.
  run. rewrite H. unfold handedOff, recordOf, renamed, transitionOf.
  destruct (agentHandoffs m !! id) as [h|] eqn:Hh.
  - rewrite bool_decide_true by eauto.
    cbn [negb this trace throws agentHandoffs terminals terminalTimeouts
         maxTerminals].
    rewrite Hh. reflexivity.
  - rewrite bool_decide_false by (intros [? ?]; congruence).
    cbn [negb this trace throws agentHandoffs terminals terminalTimeouts
         maxTerminals].
    rewrite lookup_insert_eq. cbn [default currentAgent history].
    rewrite insert_insert_eq. reflexivity.
Qed.

Lemma handoff_recorded_though_rejected_witness :
  exists w',
    handoffToAgent 10 "terminal-u1" "reviewer" Ctx.empty
      {| this := oneSession; trace := []; throws := [Some "EIO"] |} =
      (Thrown "EIO", w') /\
    currentAgent <$> agentHandoffs (this w') !! "terminal-u1" = Some "reviewer".
Proof.
  assert (exists ti, terminals oneSession !! "terminal-u1" = Some ti)
    as [ti Hti] by (eexists; vm_compute; reflexivity).
  eexists. split.
  - exact (handoff_recorded_though_rejected 10 "terminal-u1" "reviewer"
             Ctx.empty {| this := oneSession; trace := [];
                          throws := [Some "EIO"] |} ti "EIO" [] Hti eq_refl).
  - cbn [this handedOff agentHandoffs]. by rewrite lookup_insert_eq.
Defined.

(** X9.  A handoff on a registered session touches neither a timer nor the set
    of sessions; a handoff on an id without session raises and changes
    nothing at all. *)
Theorem handoff_scope script now id name ctx m :
  (is_Some (terminals m !! id) ->
   terminalTimeouts (after script (Handoff now id name ctx) m)
     = terminalTimeouts m /\
   dom (terminals (after script (Handoff now id name ctx) m))
     = dom (terminals m)) /\
  (terminals m !! id = None ->
   forall w, this w = m ->
     handoffToAgent now id name ctx w =
       (Thrown ("Terminal " +:+ id +:+ " not found for handoff"), w)).
Proof.
  split.
  - intros [ti Hti]. rewrite after_handoff, Hti.
    cbn [handedOff terminalTimeouts terminals]. split; [reflexivity|].
    rewrite dom_insert_L. apply elem_of_dom_2 in Hti.
    apply subseteq_union_1_L. by apply singleton_subseteq_l.
  - intros Hid w <-. by apply handoff_missing.
Qed.

Lemma handoff_scope_witness :
  terminalTimeouts
    (after [] (Handoff 10 "terminal-u1" "reviewer" Ctx.empty) oneSession)
  = terminalTimeouts oneSession.
Proof.
  refine (proj1 (proj1 (handoff_scope [] 10 "terminal-u1" "reviewer"
                          Ctx.empty oneSession) _)).
  eexists. vm_compute. reflexivity.
Defined.


(** *** The pattern of the output monitor *)








End RegistryExtra.

(** ** More on the message gateway *)

Module GatewayFacts.
Import Router RouterFacts Gateway.

(** *** A socket that is not open *)

Lemma quiet_send message : quiet (sendRawMessage message).
Proof.
  intros w Hw. unfold sendRawMessage. eff_unfold. cbn [snd].
  destruct (Nat.eqb_spec (readyState w) OPEN); done.
Qed.

Lemma quiet_act a : quiet (act a).
Proof.
  destruct a; cbn [act]; [apply quiet_send| |done].
  intros w Hw. unfold close. eff_unfold. cbn [snd readyState sent].
  destruct (Nat.eqb_spec (readyState w) OPEN); done.
Qed.

Lemma quiet_bind (m k : Eff world unit) : quiet m -> quiet k -> quiet (m;; k).
Proof.
  intros Hm Hk w Hw. eff_unfold. destruct (Hm w Hw) as [H1 H2].
  destruct (m w) as [[[]|e] w1]; cbn [snd] in *; [|done].
  destruct (Hk w1) as [H3 H4]; [congruence|]. split; congruence.
Qed.

Lemma quiet_catch (m : Eff world unit) k :
  quiet m -> (forall e, quiet (k e)) -> quiet (tryCatch m k).
Proof.
  intros Hm Hk w Hw. eff_unfold. destruct (Hm w Hw) as [H1 H2].
  destruct (m w) as [[[]|e] w1]; cbn [snd] in *; [done|].
  destruct (Hk e w1) as [H3 H4]; [congruence|]. split; congruence.
Qed.

Lemma quiet_acts l : quiet (acts l).
Proof.
  induction l as [|a l IH]; [done|]. cbn [acts].
  apply quiet_bind; [apply quiet_act|done].
Qed.

Lemma quiet_routeMessage r message : quiet (routeMessage r message).
Proof.
  intros w Hw. unfold routeMessage.
  assert (message = JNull \/ message <> JNull) as [->|Hn]
    by (destruct message; auto; right; discriminate); [done|].
  eff_unfold. rewrite typeOf_value by done.
  destruct (handlerFor r (messageType message)) as [h|];
    [|by apply quiet_send].
  by apply (quiet_catch (acts (h message))
              (fun error => sendError (handlerFailed (messageType message) error)));
    [apply quiet_acts|intros e; apply quiet_send|].
Qed.

Lemma quiet_runMiddleware k l : quiet k -> quiet (runMiddleware k l).
Proof.
  intros Hk. induction l as [|[a|] l IH]; cbn [runMiddleware]; [done| |].
  - apply quiet_bind; [apply quiet_act|done].
  - by apply quiet_bind.
Qed.

Lemma quiet_setIndex i : quiet (setIndex i).
Proof. done. Qed.

Lemma quiet_next fuel r message : quiet (next fuel r message).
Proof.
  induction fuel as [|fuel IH]; intros w Hw; cbn [next]; eff_unfold.
  - destruct (middleware r !! middlewareIndex w); [done|].
    by apply quiet_routeMessage.
  - destruct (middleware r !! middlewareIndex w) as [mw|];
      [|by apply quiet_routeMessage].
    by apply (quiet_bind (setIndex (S (middlewareIndex w)))
                (runMiddleware (next fuel r message) (mw message)));
      [apply quiet_setIndex|apply quiet_runMiddleware|].
Qed.

(** X11.  On a socket that is not open no frame is answered, whatever the frame,
    the middleware and the handlers: nothing is sent. *)
Theorem closed_socket_sends_nothing r rs f :
  rs <> OPEN -> snd (handleMessage r rs f) = [].
Proof.
  intros Hrs. unfold handleMessage.
  assert (quiet (handleMessageBody r f)) as Hq.
  { unfold handleMessageBody. apply quiet_catch; [|intros e; apply quiet_send].
    destruct f as [text|message]; [done|].
    assert (message = JNull \/ message <> JNull) as [->|Hn]
      by (destruct message; auto; right; discriminate); [done|].
    intros w Hw. eff_unfold. rewrite typeOf_value by done.
    by apply (quiet_bind (setIndex 0) (next (length (middleware r)) r message));
      [apply quiet_setIndex|apply quiet_next|]. }
  destruct (Hq (socket rs) Hrs) as [H1 H2]. unfold socket in *.
  destruct (handleMessageBody r f _) as [res w]. cbn [snd] in *.
  cbn [readyState sent] in *. exact H2.
Qed.

Lemma closed_socket_sends_nothing_witness :
  snd (handleMessage sampleRouter CLOSING (Parsed (typed "ping"))) = [].
Proof.
  apply closed_socket_sends_nothing. discriminate.
Defined.

(** *** Handlers *)

Lemma acts_sends l w :
  onlySends l = true -> readyState w = OPEN ->
  acts l w =
    (Returned tt,
     {| readyState := OPEN; sent := sent w ++ payloads l;
        middlewareIndex := middlewareIndex w |}).
Proof.
  revert w. induction l as [|[message| |e] l IH]; intros w Hl Ho; try done.
  - cbn [acts payloads omap]. eff_unfold. rewrite app_nil_r.
    destruct w; cbn in *; by subst.
  - cbn [acts act]. unfold sendRawMessage. eff_unfold. rewrite Ho.
    cbn [Nat.eqb OPEN]. rewrite IH by done.
    cbn [sent middlewareIndex payloads omap]. by rewrite <- app_assoc.
Qed.

Lemma acts_raises pre e post w :
  onlySends pre = true -> readyState w = OPEN ->
  acts (pre ++ Raise e :: post) w =
    (Thrown e,
     {| readyState := OPEN; sent := sent w ++ payloads pre;
        middlewareIndex := middlewareIndex w |}).
Proof.
  revert w. induction pre as [|[message| |e'] l IH]; intros w Hl Ho; try done.
  - cbn [app acts act payloads omap]. eff_unfold. rewrite app_nil_r.
    destruct w; cbn in *; by subst.
  - cbn [app acts act]. unfold sendRawMessage. eff_unfold. rewrite Ho.
    cbn [Nat.eqb OPEN]. rewrite IH by done.
    cbn [sent middlewareIndex payloads omap]. by rewrite <- app_assoc.
Qed.

(** X12.  An exception of a handler goes no further than [routeMessage]: when
    the handler registered for the type of a message sends some messages
    and then raises, the client receives those messages followed by one
    error response that names the type and carries the text of the
    exception; what the handler would have done after the [throw] is not
    done, and the connection stays open. *)
Theorem handler_exception_reported r message h pre e post :
  message <> JNull ->
  passes r message ->
  handlerFor r (messageType message) = Some h ->
  h message = pre ++ Raise e :: post ->
  onlySends pre = true ->
  handleMessage r OPEN (Parsed message) =
    (OPEN,
     payloads pre ++ [errorMessage (handlerFailed (messageType message) e)]).
Proof.
  intros Hn Hp Hh Hs Hpre. unfold handleMessage, handleMessageBody. eff_unfold.
  rewrite typeOf_value by done. unfold setIndex. eff_unfold.
  rewrite next_passes by (done || cbn [middlewareIndex]; lia).
  unfold routeMessage. eff_unfold. rewrite typeOf_value by done.
  rewrite Hh, Hs, acts_raises by done.
  unfold sendError, sendRawMessage. eff_unfold. reflexivity.
Qed.

Lemma handler_exception_reported_witness :
  handleMessage (registerHandler "job" (fun _ => sendThenRaise) sampleRouter)
    OPEN (Parsed (typed "job")) =
    (OPEN, [typed "a"; errorMessage "Error processing job: boom"]).
Proof.
  apply (handler_exception_reported
           (registerHandler "job" (fun _ => sendThenRaise) sampleRouter)
           (typed "job") (fun _ => sendThenRaise)
           [Send (typed "a")] "boom" [Send (typed "b")]).
  - discriminate.
  - repeat constructor.
  - reflexivity.
  - reflexivity.
  - reflexivity.
Defined.

(** *** Middleware *)

(** The chain up to a middleware, when those before it hand on. *)
Lemma next_handed_on r message before mw rest fuel w :
  middleware r = before ++ mw :: rest ->
  Forall (fun m => m message = [Next]) before ->
  (middlewareIndex w <= length before)%nat ->
  (length (middleware r) <= fuel + middlewareIndex w)%nat ->
  exists fuel',
    (length rest <= fuel')%nat /\
    next fuel r message w =
      runMiddleware (next fuel' r message) (mw message)
        (withIndex (S (length before)) w).
Proof.
  intros Hm Hb. revert w.
  induction fuel as [|fuel IH]; intros w Hi Hf.
  { rewrite Hm, length_app in Hf. cbn [length] in Hf. lia. }
  cbn [next]. eff_unfold.
  destruct (decide (middlewareIndex w = length before)) as [Heq|Hne].
  - rewrite Hm, Heq, list_lookup_middle by done.
    unfold setIndex. eff_unfold. exists fuel. split.
    + rewrite Hm, length_app in Hf. cbn [length] in Hf. lia.
    + reflexivity.
  - assert (middlewareIndex w < length before)%nat as Hlt by lia.
    destruct (lookup_lt_is_Some_2 before _ Hlt) as [m Hmw].
    rewrite Hm, lookup_app_l, Hmw by done.
    rewrite Forall_lookup in Hb. rewrite (Hb _ _ Hmw).
    unfold setIndex. eff_unfold. cbn [runMiddleware].
    rewrite (bind_unit (next fuel r message)).
    destruct (IH {| readyState := readyState w; sent := sent w;
                    middlewareIndex := S (middlewareIndex w) |})
      as (fuel' & Hf' & ->); cbn [middlewareIndex]; [lia|lia|].
    exists fuel'. split; [done|]. reflexivity.
Qed.

Lemma runMiddleware_raises k pre e post w :
  onlySends pre = true -> readyState w = OPEN ->
  runMiddleware k (map Act pre ++ Act (Raise e) :: post) w =
    (Thrown e,
     {| readyState := OPEN; sent := sent w ++ payloads pre;
        middlewareIndex := middlewareIndex w |}).
Proof.
  revert w. induction pre as [|[message| |e'] l IH]; intros w Hl Ho; try done.
  - cbn [map app runMiddleware act payloads omap]. eff_unfold.
    rewrite app_nil_r. destruct w; cbn in *; by subst.
  - cbn [map app runMiddleware act]. unfold sendRawMessage. eff_unfold.
    rewrite Ho. cbn [Nat.eqb OPEN]. rewrite IH by done.
    cbn [sent middlewareIndex payloads omap]. by rewrite <- app_assoc.
Qed.

(** X13.  An exception of a middleware is answered as if the frame had not been
    JSON: when the middlewares before it hand the message on and it sends
    some messages and then raises before calling [next], the client
    receives those messages followed by [Invalid message format]; no
    handler runs and the connection stays open. *)
Theorem middleware_exception_reported_as_invalid_format
    r message before mw rest pre e post :
  message <> JNull ->
  middleware r = before ++ mw :: rest ->
  Forall (fun m => m message = [Next]) before ->
  mw message = map Act pre ++ Act (Raise e) :: post ->
  onlySends pre = true ->
  handleMessage r OPEN (Parsed message) =
    (OPEN, payloads pre ++ [errorMessage invalidFormat]).
Proof.
  intros Hn Hm Hb Hmw Hpre. unfold handleMessage, handleMessageBody.
  eff_unfold. rewrite typeOf_value by done. unfold setIndex. eff_unfold.
  cbn [readyState sent].
  destruct (next_handed_on r message before mw rest (length (middleware r))
              {| readyState := OPEN; sent := []; middlewareIndex := 0 |}
              Hm Hb) as (fuel' & _ & ->); cbn [middlewareIndex]; [lia|lia|].
  rewrite Hmw, runMiddleware_raises by done.
  unfold sendError, sendRawMessage. eff_unfold. reflexivity.
Qed.

Lemma middleware_exception_reported_as_invalid_format_witness :
  handleMessage
    (addMiddleware (fun _ => [Act (Send (typed "seen")); Act (Raise "denied")])
       sampleRouter)
    OPEN (Parsed (typed "ping")) =
    (OPEN, [typed "seen"; errorMessage "Invalid message format"]).
Proof.
  apply (middleware_exception_reported_as_invalid_format
           (addMiddleware
              (fun _ => [Act (Send (typed "seen")); Act (Raise "denied")])
              sampleRouter)
           (typed "ping") [fun _ => [Next]]
           (fun _ => [Act (Send (typed "seen")); Act (Raise "denied")]) []
           [Send (typed "seen")] "denied" []).
  - discriminate.
  - reflexivity.
  - repeat constructor.
  - reflexivity.
  - reflexivity.
Defined.

Lemma routeMessage_sends r message h w :
  message <> JNull ->
  handlerFor r (messageType message) = Some h ->
  onlySends (h message) = true ->
  readyState w = OPEN ->
  routeMessage r message w =
    (Returned tt,
     {| readyState := OPEN; sent := sent w ++ payloads (h message);
        middlewareIndex := middlewareIndex w |}).
Proof.
  intros Hn Hh Hs Ho. unfold routeMessage. eff_unfold.
  rewrite typeOf_value by done. by rewrite Hh, acts_sends.
Qed.

Lemma next_end fuel r message w :
  (length (middleware r) <= middlewareIndex w)%nat ->
  next fuel r message w = routeMessage r message w.
Proof.
  intros Hi. destruct fuel; cbn [next]; eff_unfold;
    by rewrite lookup_ge_None_2.
Qed.

Lemma runMiddleware_nexts fuel r message h n w :
  message <> JNull ->
  handlerFor r (messageType message) = Some h ->
  onlySends (h message) = true ->
  readyState w = OPEN ->
  (length (middleware r) <= middlewareIndex w)%nat ->
  runMiddleware (next fuel r message) (replicate n Next) w =
    (Returned tt,
     {| readyState := OPEN;
        sent := sent w ++ concat (replicate n (payloads (h message)));
        middlewareIndex := middlewareIndex w |}).
Proof.
  intros Hn Hh Hs. revert w. induction n as [|n IH]; intros w Ho Hi.
  - cbn [replicate runMiddleware concat]. eff_unfold. rewrite app_nil_r.
    destruct w; cbn in *; by subst.
  - cbn [replicate runMiddleware concat]. eff_unfold.
    rewrite next_end by done.
    rewrite (routeMessage_sends r message h) by done.
    rewrite IH by done. cbn [sent middlewareIndex].
    by rewrite <- app_assoc.
Qed.

(** X14.  The message is routed once for every call of [next] made at the end of
    the chain: when the only middleware of the router calls [next] [n]
    times, the handler of the message runs [n] times, and the client
    receives what the handler sends [n] times over. *)
Theorem routed_once_per_call_of_next r message mw h n :
  message <> JNull ->
  middleware r = [mw] ->
  mw message = replicate n Next ->
  handlerFor r (messageType message) = Some h ->
  onlySends (h message) = true ->
  handleMessage r OPEN (Parsed message) =
    (OPEN, concat (replicate n (payloads (h message)))).
Proof.
  intros Hn Hm Hmw Hh Hs. unfold handleMessage, handleMessageBody.
  eff_unfold. rewrite typeOf_value by done. unfold setIndex. eff_unfold.
  cbn [readyState sent].
  destruct (next_handed_on r message [] mw [] (length (middleware r))
              {| readyState := OPEN; sent := []; middlewareIndex := 0 |}
              Hm) as (fuel' & _ & ->); cbn [middlewareIndex length];
    [done|lia|lia|].
  rewrite Hmw.
  rewrite (runMiddleware_nexts fuel' r message h) by
    (done || rewrite Hm; cbn [withIndex middlewareIndex length]; lia).
  reflexivity.
Qed.

Lemma routed_once_per_call_of_next_witness :
  handleMessage
    (addMiddleware (fun _ => [Next; Next])
       (registerHandler "ping" (fun _ => [Send (typed "pong")]) constructor))
    OPEN (Parsed (typed "ping")) =
    (OPEN, [typed "pong"; typed "pong"]).
Proof.
  apply (routed_once_per_call_of_next
           (addMiddleware (fun _ => [Next; Next])
              (registerHandler "ping" (fun _ => [Send (typed "pong")])
                 constructor))
           (typed "ping") (fun _ => [Next; Next])
           (fun _ => [Send (typed "pong")]) 2).
  - discriminate.
  - reflexivity.
  - reflexivity.
  - reflexivity.
  - reflexivity.
Defined.

(** *** Registration *)

Lemma runMiddleware_same k k' l w :
  (forall w, k w = k' w) -> runMiddleware k l w = runMiddleware k' l w.
Proof.
  intros Hk. revert w. induction l as [|[a|] l IH]; intros w;
    cbn [runMiddleware]; [done| |]; eff_unfold.
  - destruct (act a w) as [[[]|e] w']; [apply IH|done].
  - rewrite Hk. destruct (k' w) as [[[]|e] w']; [apply IH|done].
Qed.

Lemma next_registerHandler t h r message fuel w :
  messageType message <> Some (JString t) ->
  next fuel (registerHandler t h r) message w = next fuel r message w.
Proof.
  intros Ht.
  assert (forall w, routeMessage (registerHandler t h r) message w
                    = routeMessage r message w) as Hroute.
  { intros w'. unfold routeMessage.
    assert (message = JNull \/ message <> JNull) as [->|Hn]
      by (destruct message; auto; right; discriminate); [done|].
    eff_unfold. rewrite typeOf_value by done.
    destruct (messageType message) as [[| | |s| |]|] eqn:Hty; try done.
    cbn [handlerFor registerHandler handlers].
    rewrite lookup_insert_ne by congruence. done. }
  revert w. induction fuel as [|fuel IH]; intros w; cbn [next]; eff_unfold;
    cbn [registerHandler middleware];
    destruct (middleware r !! middlewareIndex w) as [mw|]; try done.
  unfold setIndex. eff_unfold. by apply runMiddleware_same.
Qed.

(** X15.  Registering a handler changes the answers to the messages of its type
    only: a frame that is not JSON, and a frame whose [type] is not the
    registered one, is handled as before, on a socket in any state and
    with any middleware. *)
Theorem registerHandler_other_types t h r rs f :
  (forall message, f = Parsed message ->
                   messageType message <> Some (JString t)) ->
  handleMessage (registerHandler t h r) rs f = handleMessage r rs f.
Proof.
  intros Hf. unfold handleMessage, handleMessageBody.
  destruct f as [text|message]; [done|].
  eff_unfold. destruct (typeOf message _) as [[ty|e] w]; [|done].
  unfold setIndex. eff_unfold. cbn [registerHandler middleware].
  by rewrite next_registerHandler by by apply Hf.
Qed.

Lemma registerHandler_other_types_witness :
  handleMessage (registerHandler "job" (fun _ => twoSends) sampleRouter)
    OPEN (Parsed (typed "ping")) =
  handleMessage sampleRouter OPEN (Parsed (typed "ping")).
Proof.
  apply registerHandler_other_types.
  intros message [= <-]. discriminate.
Defined.

(** *** Callbacks *)


Lemma acts_beforeRaise l w :
  neverCloses l = true -> readyState w = OPEN ->
  snd (acts l w) =
    {| readyState := OPEN; sent := sent w ++ payloads (beforeRaise l);
       middlewareIndex := middlewareIndex w |}.
Proof.
  revert w. induction l as [|[message| |e] l IH]; intros w Hl Ho; try done.
  - cbn [acts beforeRaise payloads omap snd]. eff_unfold. cbn [snd].
    rewrite app_nil_r. destruct w; cbn in *; by subst.
  - cbn [acts act beforeRaise]. unfold sendRawMessage. eff_unfold. rewrite Ho.
    cbn [Nat.eqb OPEN]. rewrite IH by done.
    cbn [sent middlewareIndex payloads omap]. by rewrite <- app_assoc.
  - cbn [acts act beforeRaise payloads omap]. eff_unfold. cbn [snd].
    rewrite app_nil_r. destruct w; cbn in *; by subst.
Qed.

Lemma runCallbacks_sends callbacks w :
  forallb neverCloses callbacks = true -> readyState w = OPEN ->
  runCallbacks callbacks w =
    (Returned tt,
     {| readyState := OPEN;
        sent := sent w ++ concat (map (fun cb => payloads (beforeRaise cb))
                                      callbacks);
        middlewareIndex := middlewareIndex w |}).
Proof.
  revert w. induction callbacks as [|cb rest IH]; intros w Hl Ho.
  - cbn [runCallbacks map concat]. eff_unfold. rewrite app_nil_r.
    destruct w; cbn in *; by subst.
  - cbn [forallb] in Hl. apply andb_true_iff in Hl as [Hcb Hrest].
    cbn [runCallbacks map concat]. eff_unfold.
    pose proof (acts_beforeRaise cb w Hcb Ho) as Hs.
    destruct (acts cb w) as [[[]|e] w']; cbn [snd] in Hs; subst w';
      rewrite IH by done; cbn [sent middlewareIndex];
      by rewrite <- app_assoc.
Qed.

(** X16.  A callback that raises does not keep the others from running: when a
    connection closes, every disconnection callback is called in the order
    of registration, each does what it does up to its first [throw], and
    the listener itself returns. *)
Theorem every_disconnection_callback_runs h :
  forallb neverCloses (onDisconnectionCallbacks h) = true ->
  onClose h (socket OPEN) =
    (Returned tt,
     {| readyState := OPEN;
        sent := concat (map (fun cb => payloads (beforeRaise cb))
                            (onDisconnectionCallbacks h));
        middlewareIndex := 0 |}).
Proof.
  intros Hh. unfold onClose. by rewrite runCallbacks_sends.
Qed.

Lemma every_disconnection_callback_runs_witness :
  onClose
    (onDisconnection twoSends
       (onDisconnection sendThenRaise
          {| onConnectionCallbacks := []; onDisconnectionCallbacks := [] |}))
    (socket OPEN) =
    (Returned tt,
     {| readyState := OPEN; sent := [typed "a"; typed "a"; typed "b"];
        middlewareIndex := 0 |}).
Proof.
  apply (every_disconnection_callback_runs
           (onDisconnection twoSends
              (onDisconnection sendThenRaise
                 {| onConnectionCallbacks := [];
                    onDisconnectionCallbacks := [] |}))).
  reflexivity.
Defined.

(** *** The greeting *)

Lemma property_setProperty_eq k v o :
  property k (setProperty k v o) = Some v.
Proof.
  induction o as [|[k' v'] o IH]; cbn [setProperty property].
  - by rewrite String.eqb_refl.
  - destruct (String.eqb k' k) eqn:Hk; cbn [property]; by rewrite Hk.
Qed.

Lemma property_setProperty_ne k k' v o :
  k' <> k -> property k (setProperty k' v o) = property k o.
Proof.
  intros Hne. induction o as [|[k1 v1] o IH]; cbn [setProperty property].
  - by rewrite (proj2 (String.eqb_neq k' k)).
  - destruct (String.eqb_spec k1 k') as [->|Hk1]; cbn [property].
    + by rewrite (proj2 (String.eqb_neq k' k)).
    + by rewrite IH.
Qed.

Lemma property_spread k target source :
  NoDup source.*1 ->
  property k (spread target source) =
    match property k source with
    | Some v => Some v
    | None => property k target
    end.
Proof.
  unfold spread. revert target.
  induction source as [|[k1 v1] source IH]; intros target Hnd; [done|].
  cbn [fmap list_fmap fst] in Hnd. apply NoDup_cons in Hnd as [Hk1 Hnd].
  cbn [fold_left fst snd property]. rewrite IH by done.
  destruct (String.eqb_spec k1 k) as [->|Hne].
  - assert (property k source = None) as ->.
    { clear -Hk1. induction source as [|[k2 v2] source IH]; [done|].
      cbn [property]. cbn [fmap list_fmap fst] in Hk1.
      apply not_elem_of_cons in Hk1 as [Hne Hk1].
      rewrite (proj2 (String.eqb_neq k2 k)) by done. by apply IH. }
    apply property_setProperty_eq.
  - destruct (property k source); [done|].
    by apply property_setProperty_ne.
Qed.

Lemma setProperty_keys k v o :
  (setProperty k v o).*1 = if decide (k ∈ o.*1) then o.*1 else o.*1 ++ [k].
Proof.
  induction o as [|[k' v'] o IH]; cbn [setProperty fmap list_fmap fst].
  - by rewrite decide_False by apply not_elem_of_nil.
  - destruct (String.eqb_spec k' k) as [->|Hne]; cbn [fmap list_fmap fst].
    + by rewrite decide_True by apply list_elem_of_here.
    + fold (fmap (M := list) (@fst string json)). rewrite IH.
      destruct (decide (k ∈ o.*1)) as [Hin|Hin].
      * by rewrite decide_True by by apply list_elem_of_further.
      * rewrite decide_False; [done|].
        intros [?|?]%elem_of_cons; congruence.
Qed.

Lemma NoDup_setProperty k v o : NoDup o.*1 -> NoDup (setProperty k v o).*1.
Proof.
  intros Hnd. rewrite setProperty_keys.
  destruct (decide (k ∈ o.*1)); [done|].
  apply NoDup_app. split; [done|]. split; [|apply NoDup_singleton].
  intros x Hx ->%list_elem_of_singleton. done.
Qed.

Lemma NoDup_spread target source :
  NoDup target.*1 -> NoDup (spread target source).*1.
Proof.
  unfold spread. revert target.
  induction source as [|[k v] source IH]; intros target Hnd; [done|].
  cbn [fold_left]. apply IH. by apply NoDup_setProperty.
Qed.

Lemma acts_extends l w : exists rest, sent (snd (acts l w)) = sent w ++ rest.
Proof.
  revert w. induction l as [|a l IH]; intros w.
  - exists []. by rewrite app_nil_r.
  - cbn [acts]. eff_unfold.
    assert (exists r1, sent (snd (act a w)) = sent w ++ r1) as [r1 H1].
    { destruct a; cbn [act]; unfold sendRawMessage, close; eff_unfold;
        cbn [snd sent].
      - destruct (readyState w =? OPEN)%nat; cbn [sent];
          [by eexists|exists []; by rewrite app_nil_r].
      - exists []. by rewrite app_nil_r.
      - exists []. by rewrite app_nil_r. }
    destruct (act a w) as [[[]|e] w1]; cbn [snd] in *; [|by eexists].
    destruct (IH w1) as [r2 H2]. exists (r1 ++ r2).
    by rewrite H2, H1, app_assoc.
Qed.

Lemma runCallbacks_extends callbacks w :
  exists rest, sent (snd (runCallbacks callbacks w)) = sent w ++ rest.
Proof.
  revert w. induction callbacks as [|cb l IH]; intros w.
  - exists []. by rewrite app_nil_r.
  - cbn [runCallbacks]. eff_unfold. destruct (acts_extends cb w) as [r1 H1].
    destruct (acts cb w) as [[[]|e] w1]; cbn [snd] in *;
      destruct (IH w1) as [r2 H2]; exists (r1 ++ r2);
      by rewrite H2, H1, app_assoc.
Qed.

(** X17.  The maximum the greeting advertises: [handleConnection] sends
    [connection-established] before any callback runs, and its
    [maxTerminals] is the one of the [capabilities] option where that
    object has the property, whatever its value, and otherwise the
    [maxTerminals] option, or 10 where that is missing or falsy. *)
Theorem greeting_maxTerminals h o :
  NoDup (default [] (capabilities o)).*1 ->
  exists data rest,
    sent (snd (handleConnection h o (socket OPEN))) =
      JObject [("type", JString "connection-established");
               ("data", JObject data)] :: rest /\
    property "maxTerminals" data =
      Some (match capabilities o ≫= property "maxTerminals" with
            | Some v => v
            | None => orElse (maxTerminals o) (JNumber 10)
            end).
Proof.
  intros Hnd. exists (established (capabilitiesOf o)).
  unfold handleConnection, sendConnectionEstablished, sendRawMessage. eff_unfold. cbn [socket readyState sent Nat.eqb OPEN app].
  match goal with
  | |- context [runCallbacks ?l ?w] =>
      destruct (runCallbacks_extends l w) as [rest Hrest]
  end.
  exists rest. split; [by rewrite Hrest|].
  assert (property "maxTerminals" (capabilitiesOf o) =
          Some (match capabilities o ≫= property "maxTerminals" with
                | Some v => v
                | None => orElse (maxTerminals o) (JNumber 10)
                end)) as Hcaps.
  { unfold capabilitiesOf. rewrite property_spread by done.
    destruct (capabilities o) as [caps|]; cbn [default mbind option_bind];
      [|done].
    change (id caps) with caps. by destruct (property "maxTerminals" caps). }
  unfold established. rewrite property_spread.
  - by rewrite Hcaps.
  - unfold capabilitiesOf. apply NoDup_spread. apply NoDup_singleton.
Qed.

Lemma greeting_maxTerminals_witness :
  exists data rest,
    sent (snd (handleConnection
                 {| onConnectionCallbacks := [twoSends];
                    onDisconnectionCallbacks := [] |}
                 {| maxTerminals := Some (JNumber 4);
                    capabilities := Some [("maxTerminals", JNumber 0)] |}
                 (socket OPEN))) =
      JObject [("type", JString "connection-established");
               ("data", JObject data)] :: rest /\
    property "maxTerminals" data = Some (JNumber 0).
Proof.
  apply (greeting_maxTerminals
           {| onConnectionCallbacks := [twoSends];
              onDisconnectionCallbacks := [] |}
           {| maxTerminals := Some (JNumber 4);
              capabilities := Some [("maxTerminals", JNumber 0)] |}).
  apply NoDup_singleton.
Defined.

End GatewayFacts.

(** ** Sockets *)

Module SocketsFacts.
Import Router Sockets.

Lemma delivered_insert st i s s' :
  st !! i = Some s ->
  (delivered (<[i := s']> st) + length (outbox s) =
     delivered st + length (outbox s'))%nat.
Proof.
  unfold delivered.
  revert i. induction st as [|x st IH]; intros [|i]; try done.
  - intros [= ->]. cbn [insert list_insert sum_list_with]. lia.
  - intros H. specialize (IH i H).
    change (<[S i := s']> (x :: st)) with (x :: <[i := s']> st).
    cbn [sum_list_with]. lia.
Qed.

Lemma sendRawMessage_delivered ws message st :
  delivered (snd (sendRawMessage ws message st)) =
    (delivered st + if fst (sendRawMessage ws message st) then 1 else 0)%nat /\
  length (snd (sendRawMessage ws message st)) = length st.
Proof.
  unfold sendRawMessage. destruct ws as [i|]; [|cbn [fst snd]; lia].
  destruct (st !! i) as [s|] eqn:Hs; [|cbn [fst snd]; lia].
  destruct (state s =? OPEN)%nat; cbn [negb]; [|cbn [fst snd]; lia].
  unfold trySend.
  destruct (sendThrows s) as [|[] rest]; cbn [fst snd];
    rewrite length_insert; (split; [|done]);
    match goal with
    | |- context [<[i := ?s']> st] =>
        pose proof (delivered_insert st i s s' Hs) as H
    end; cbn [outbox] in H; rewrite ?length_app in H; cbn [length] in H; lia.
Qed.

(** X18.  The count of a broadcast is the number of messages delivered: over a
    store of sockets, some of them listed more than once or not at all,
    [broadcastMessage] hands to the sockets as many messages as it returns,
    no more than there are connections, and the store keeps its sockets. *)
Theorem broadcast_count connections type data st :
  delivered (snd (broadcastMessage connections type data st)) =
    (delivered st + fst (broadcastMessage connections type data st))%nat /\
  (fst (broadcastMessage connections type data st) <= length connections)%nat /\
  length (snd (broadcastMessage connections type data st)) = length st.
Proof.
  revert st. induction connections as [|ws rest IH]; intros st.
  - cbn [broadcastMessage fst snd length]. lia.
  - cbn [broadcastMessage]. unfold sendMessage.
    destruct (sendRawMessage_delivered ws
                (JObject [("type", JString type); ("data", data)]) st)
      as [H1 H2].
    destruct (sendRawMessage ws _ st) as [ok st1]. cbn [fst snd] in *.
    destruct (IH st1) as (H3 & H4 & H5).
    destruct (broadcastMessage rest type data st1) as [n st2].
    cbn [fst snd length] in *. destruct ok; lia.
Qed.

(** *** Responses *)

(** X19.  The [error] of a response: for data with distinct keys, the object
    that [sendResponse] sends has the [error] given to it exactly when
    [success] is false and the error is a non-empty text; otherwise it has
    the [error] property of the data, if any. *)
Theorem response_error type success data error :
  NoDup data.*1 ->
  property "error" (response type success data error) =
    if negb success && Js.truthy error
    then JString <$> error
    else property "error" data.
Proof.
  intros Hnd. unfold response.
  assert (property "error"
            (Gateway.spread
               [("type", JString type); ("success", JBool success)] data)
          = property "error" data) as Hspread.
  { rewrite GatewayFacts.property_spread by done.
    by destruct (property "error" data). }
  destruct error as [e|]; [|by rewrite andb_false_r].
  destruct (negb success && Js.truthy (Some e)); [|done].
  apply GatewayFacts.property_setProperty_eq.
Qed.

Lemma response_error_witness :
  property "error"
    (response "terminal-destroyed" true
       [("id", JString "d1"); ("terminalId", JString "terminal-u1")]
       (Some "Terminal not found")) = None.
Proof.
  apply (response_error "terminal-destroyed" true
           [("id", JString "d1"); ("terminalId", JString "terminal-u1")]
           (Some "Terminal not found")).
  apply NoDup_cons. split; [|apply NoDup_singleton].
  by intros [=]%list_elem_of_singleton.
Defined.

End SocketsFacts.

(** ** The directive dispatcher and the handlers behind it *)

Module DispatcherFacts.
Import Js Text Dispatcher.

(** *** Characters of a string *)

Lemma includes_append c a b :
  includes c (a +:+ b) = includes c a || includes c b.
Proof.
  induction a as [|x a IH]; [reflexivity|].
  rewrite JsFacts.append_cons. cbn [includes]. by destruct (Ascii.eqb x c).
Qed.

Lemma includes_rev_app c a b :
  includes c (String.rev_app a b) = includes c a || includes c b.
Proof.
  revert b. induction a as [|x a IH]; intros b; [reflexivity|].
  cbn [String.rev_app]. rewrite IH. cbn [includes].
  destruct (Ascii.eqb x c); [by rewrite orb_true_r|reflexivity].
Qed.

Lemma includes_trimStart c s :
  includes c s = false -> includes c (trimStart s) = false.
Proof.
  induction s as [|x s IH]; [done|]. cbn [trimStart].
  destruct (isWhiteSpace x); [|done]. cbn [includes].
  destruct (Ascii.eqb x c); [done|exact IH].
Qed.

Lemma includes_trim c s : includes c s = false -> includes c (trim s) = false.
Proof.
  intros H. unfold trim, trimEnd, String.rev.
  rewrite includes_rev_app, orb_false_r. apply includes_trimStart.
  rewrite includes_rev_app, orb_false_r. by apply includes_trimStart.
Qed.

Lemma includes_toLowerCase s : includes SP s = true ->
  includes SP (toLowerCase s) = true.
Proof.
  induction s as [|x s IH]; [done|]. cbn [includes toLowerCase].
  destruct (Ascii.eqb_spec x SP) as [->|Hne]; [intros _; reflexivity|].
  intros H. rewrite (IH H). by destruct (Ascii.eqb _ _).
Qed.

Lemma splitHead_all c s : includes c s = false -> splitHead c s = s.
Proof.
  induction s as [|x s IH]; [done|]. cbn [includes splitHead].
  destruct (Ascii.eqb x c); [done|]. intros H. by rewrite IH.
Qed.

(** *** Splitting *)

Lemma splitFrom_plain s :
  includes backslash s = false -> splitFrom false s = (s, []).
Proof.
  induction s as [|c s IH]; [done|]. cbn [includes splitFrom andb].
  destruct (Ascii.eqb c backslash); [done|]. intros H. cbn [andb].
  by rewrite IH.
Qed.

Lemma splitFrom_piece b p :
  includes backslash p = false -> (b = true -> startsWithS p = false) ->
  splitFrom b p = (p, []).
Proof.
  intros Hp Hb. destruct p as [|c p]; [done|].
  cbn [includes] in Hp. cbn [splitFrom].
  destruct (Ascii.eqb c backslash) eqn:Hc; [done|]. cbn [andb].
  assert (b && Ascii.eqb c letterS = false) as ->.
  { destruct b; [|done]. by apply Hb. }
  by rewrite splitFrom_plain.
Qed.

Lemma splitFrom_at_separator b t :
  splitFrom b (separator +:+ t) =
    (EmptyString, fst (splitFrom true t) :: snd (splitFrom true t)).
Proof.
  change (separator +:+ t) with (String backslash (String letterS t)).
  cbn [splitFrom startsWithS]. rewrite !Ascii.eqb_refl.
  change (Ascii.eqb backslash letterS) with false.
  rewrite andb_false_r. cbn [andb]. by destruct (splitFrom true t).
Qed.

Lemma splitFrom_separator b p t :
  includes backslash p = false -> (b = true -> startsWithS p = false) ->
  splitFrom b (p +:+ separator +:+ t) =
    (p, fst (splitFrom true t) :: snd (splitFrom true t)).
Proof.
  intros Hp Hb.
  assert (forall q, includes backslash q = false ->
            splitFrom false (q +:+ separator +:+ t) =
              (q, fst (splitFrom true t) :: snd (splitFrom true t))) as Hplain.
  { induction q as [|c q IH].
    - intros _. rewrite JsFacts.append_nil_l. apply splitFrom_at_separator.
    - cbn [includes]. destruct (Ascii.eqb c backslash) eqn:Hc; [done|].
      intros Hq. rewrite JsFacts.append_cons. cbn [splitFrom andb].
      rewrite Hc. cbn [andb]. by rewrite IH. }
  destruct p as [|c p].
  - rewrite JsFacts.append_nil_l. apply splitFrom_at_separator.
  - cbn [includes] in Hp. rewrite JsFacts.append_cons. cbn [splitFrom].
    destruct (Ascii.eqb c backslash) eqn:Hc; [done|]. cbn [andb].
    assert (b && Ascii.eqb c letterS = false) as ->.
    { destruct b; [|done]. by apply Hb. }
    by rewrite Hplain.
Qed.

Lemma join_cons p q ps :
  join (p :: q :: ps) = p +:+ separator +:+ join (q :: ps).
Proof. reflexivity. Qed.

Lemma splitFrom_join b p ps :
  includes backslash p = false -> (b = true -> startsWithS p = false) ->
  Forall (fun q => includes backslash q = false /\ startsWithS q = false) ps ->
  splitFrom b (join (p :: ps)) = (p, ps).
Proof.
  intros Hp Hb Hps. revert b p Hp Hb.
  induction Hps as [|q ps [Hq Hs] Hps IH]; intros b p Hp Hb.
  - by apply splitFrom_piece.
  - rewrite join_cons, splitFrom_separator by done. by rewrite IH.
Qed.

(** X20.  Splitting undoes joining with the separator of the source: pieces
    that hold no backslash, and of which none after the first begins with
    the letter [s], joined by a backslash and an [s], are the pieces that
    [split] returns. *)
Theorem split_join p ps :
  includes backslash p = false ->
  Forall (fun q => includes backslash q = false /\ startsWithS q = false) ps ->
  split (join (p :: ps)) = p :: ps.
Proof.
  intros Hp Hps. unfold split. by rewrite splitFrom_join.
Qed.

Lemma split_join_witness :
  split sendWorkerLs = ["send"; "worker"; "ls"].
Proof.
  apply (split_join "send" ["worker"; "ls"]).
  - reflexivity.
  - repeat constructor.
Defined.

(** *** The choice of the handler *)

Lemma switch_no_args cmd command : argsOf (switch cmd [] command) = [].
Proof.
  unfold switch.
  repeat (match goal with
          | |- context [if ?b then _ else _] => destruct b; [reflexivity|]
          end).
  reflexivity.
Qed.

(** X21.  Without a backslash no handler is given an argument: whatever the
    message, when its command holds no backslash the command is taken as
    one word, and the handler chosen is called with the empty list of
    arguments. *)
Theorem arguments_need_backslash m :
  includes backslash (default "" (command m)) = false ->
  argsOf (dispatch m) = [].
Proof.
  intros Hb. unfold dispatch.
  repeat (match goal with
          | |- context [if ?b then _ else _] => destruct b; [reflexivity|]
          end).
  rewrite splitFrom_plain by by apply includes_trim.
  apply switch_no_args.
Qed.

Lemma arguments_need_backslash_witness :
  argsOf (dispatch (lineMessage "send worker ls")) = [].
Proof.
  apply (arguments_need_backslash (lineMessage "send worker ls")).
  reflexivity.
Defined.

Lemma switch_spaced cmd args command :
  includes SP cmd = true -> switch cmd args command = PassCommandToTerminal command.
Proof.
  intros Hsp. unfold switch.
  repeat (match goal with
          | |- context [String.eqb cmd ?l] =>
              destruct (String.eqb_spec cmd l) as [->|_];
              [discriminate Hsp|]
          end).
  reflexivity.
Qed.

(** Trimming twice is trimming once. *)
Lemma rev_app_rev_app a b c :
  String.rev_app (String.rev_app a b) c = String.rev_app b (a +:+ c).
Proof.
  revert b c. induction a as [|x a IH]; intros b c; [reflexivity|].
  cbn [String.rev_app]. rewrite IH. reflexivity.
Qed.

Lemma rev_rev s : String.rev (String.rev s) = s.
Proof.
  unfold String.rev. rewrite rev_app_rev_app. cbn [String.rev_app].
  apply JsFacts.append_nil_r.
Qed.

Lemma trimStart_startsClean s : startsClean (trimStart s).
Proof.
  induction s as [|c s IH]; [done|]. cbn [trimStart].
  by destruct (isWhiteSpace c) eqn:Hc.
Qed.

Lemma trimStart_clean s : startsClean s -> trimStart s = s.
Proof. destruct s as [|c s]; [done|]. cbn. by intros ->. Qed.

Lemma trimStart_suffix s :
  exists w, s = w +:+ trimStart s.
Proof.
  induction s as [|c s [w IH]]; [by exists ""|]. cbn [trimStart].
  destruct (isWhiteSpace c); [|by exists ""].
  exists (String c w). by rewrite JsFacts.append_cons, <- IH.
Qed.

Lemma rev_app_append a b c :
  String.rev_app (a +:+ b) c = String.rev_app b (String.rev_app a c).
Proof.
  revert c. induction a as [|x a IH]; intros c; [reflexivity|].
  rewrite JsFacts.append_cons. cbn [String.rev_app]. by rewrite IH.
Qed.

Lemma rev_app_spec a c : String.rev_app a c = String.rev a +:+ c.
Proof.
  unfold String.rev. revert c. induction a as [|x a IH]; intros c;
    [reflexivity|].
  cbn [String.rev_app]. rewrite IH, (IH (String x "")).
  by rewrite TextFacts.append_assoc.
Qed.

Lemma startsClean_prefix a b :
  a <> "" -> startsClean (a +:+ b) -> startsClean a.
Proof. by destruct a. Qed.

Lemma trim_startsClean s : startsClean (trim s).
Proof.
  unfold trim, trimEnd.
  set (t := trimStart s). set (u := trimStart (String.rev t)).
  destruct (trimStart_suffix (String.rev t)) as [w Hw]. fold u in Hw.
  assert (t = String.rev u +:+ String.rev w) as Ht.
  { rewrite <- (rev_rev t), Hw. unfold String.rev at 1.
    rewrite rev_app_append, rev_app_spec. reflexivity. }
  destruct (String.rev u) as [|c r] eqn:Hu; [done|].
  apply (startsClean_prefix _ (String.rev w)); [done|].
  rewrite <- Ht. apply trimStart_startsClean.
Qed.

Lemma trim_trim s : trim (trim s) = trim s.
Proof.
  unfold trim at 1. rewrite (trimStart_clean (trim s))
    by apply trim_startsClean.
  unfold trim, trimEnd. rewrite rev_rev.
  by rewrite (trimStart_clean (trimStart _)) by apply trimStart_startsClean.
Qed.

Lemma dispatch_spaced line :
  includes SP (trim line) = true -> includes backslash line = false ->
  dispatch (lineMessage line) = PassCommandToTerminal line.
Proof.
  intros Hsp Hb. unfold dispatch, lineMessage.
  cbn [action subtype command data targets andb default truthy].
  destruct (String.eqb_spec line "") as [->|_]; [discriminate Hsp|].
  cbn [negb]. change (id line) with line.
  rewrite splitFrom_plain by by apply includes_trim.
  by apply switch_spaced, includes_toLowerCase.
Qed.

Lemma dispatch_destroy line :
  Interceptor.firstWord (trim line) = "destroy" ->
  includes backslash line = false ->
  dispatch (lineMessage line) = PassCommandToTerminal line.
Proof.
  intros Hd Hb. destruct (includes SP (trim line)) eqn:Hsp;
    [by apply dispatch_spaced|].
  unfold Interceptor.firstWord in Hd. rewrite splitHead_all in Hd by done.
  unfold dispatch, lineMessage.
  cbn [action subtype command data targets andb default truthy].
  destruct (String.eqb_spec line "") as [->|_]; [discriminate Hd|].
  cbn [negb]. change (id line) with line.
  rewrite splitFrom_plain by by apply includes_trim.
  rewrite Hd. reflexivity.
Qed.

(** X22.  A directive typed with arguments never reaches its handler: when the
    interceptor takes a line that holds no backslash, and the line holds a
    space or begins with [destroy], the one call the dispatcher makes for
    it is [_passCommandToTerminal], which answers that the command is not
    recognized; when the echo of the line raises, no call is made. *)
Theorem intercepted_line_not_recognized throws this data :
  Interceptor.guard this = true ->
  Interceptor.hasTerminator data = true ->
  let line := trim (Interceptor.inputBuffer this +:+ data) in
  arrayIncludes Interceptor.orchestratorCommands (Interceptor.firstWord line)
    = true ->
  includes SP line = true \/ Interceptor.firstWord line = "destroy" ->
  includes backslash line = false ->
  dispatched (snd (Interceptor.handleInput throws this data)) =
    match throws with
    | true :: _ => []
    | _ => [PassCommandToTerminal line]
    end.
Proof.
  intros Hg Ht line Hin Hcase Hb.
  rewrite InterceptorFacts.handleInput_terminated by done.
  cbv zeta. fold line. rewrite Hin.
  assert (dispatch (lineMessage line) = PassCommandToTerminal line) as Hd.
  { destruct Hcase as [Hsp|Hd].
    - apply dispatch_spaced; [|done]. unfold line. by rewrite trim_trim.
    - apply dispatch_destroy; [|done]. unfold line. by rewrite trim_trim. }
  unfold dispatched.
  destruct throws as [|[] [|[] ?]]; cbn [snd tail omap list_omap];
    by rewrite ?Hd.
Qed.

Lemma intercepted_line_not_recognized_witness :
  dispatched
    (snd (Interceptor.handleInput [] (Interceptor.ready "spawn te")
            ("st" +:+ chr CR))) =
    [PassCommandToTerminal "spawn test"].
Proof.
  apply (intercepted_line_not_recognized [] (Interceptor.ready "spawn te")
           ("st" +:+ chr CR)).
  - reflexivity.
  - reflexivity.
  - reflexivity.
  - left. reflexivity.
  - reflexivity.
Defined.

(** *** Options *)

(** The value after [--max-turns] is stored as [parseInt] reads it: text
    without a leading digit gives [NaN], also when it is the next flag,
    which is then skipped; digits are read up to the first other
    character. *)
Example max_turns_is_parsed :
  maxTurns (_parseSpawnOptions ["--max-turns"; "abc"]) = Some NaN /\
  maxTurns (_parseSpawnOptions ["--max-turns"; "7.5"])
    = Some (Integer false 7) /\
  _parseSpawnOptions ["--max-turns"; "--dir"; "src"]
    = {| directory := None; project := None; mcpServers := None;
         systemPrompt := None; maxTurns := Some NaN |} /\
  parseInt " -0x1F" = Integer true 31 /\
  parseInt "-0" = Integer true 0 /\
  parseInt "0x" = NaN.
Proof. repeat split; reflexivity. Qed.

Lemma readDigits_digit d s acc seen :
  (d < 10)%N ->
  readDigits 10 (String (pretty_N_char d) s) acc seen =
    readDigits 10 s (acc * 10 + d)%N true.
Proof.
  intros Hd.
  assert (d = 0 \/ d = 1 \/ d = 2 \/ d = 3 \/ d = 4 \/ d = 5 \/ d = 6 \/
          d = 7 \/ d = 8 \/ d = 9)%N as H by lia.
  repeat destruct H as [-> | H]; try subst d; reflexivity.
Qed.

(** Reading the digits that [pretty] printed gives the number back. *)
Lemma readDigits_pretty m s seen :
  (0 < m)%N ->
  readDigits 10 (pretty_N_go m s) 0 seen = readDigits 10 s m true.
Proof.
  revert s seen. induction (N.lt_wf_0 m) as [m _ IH]; intros s seen Hm.
  rewrite pretty_N_go_step by done.
  assert (m `mod` 10 < 10)%N as Hd by (by apply N.mod_lt).
  destruct (decide (m `div` 10 = 0)%N) as [H0|H0].
  - rewrite H0, pretty_N_go_0, readDigits_digit by done. f_equal.
    pose proof (N.div_mod m 10 ltac:(done)) as H. rewrite H0 in H.
    clear -H. lia.
  - assert (0 < m `div` 10)%N as Hq by (by apply N.neq_0_lt_0).
    assert (m `div` 10 < m)%N as Hlt by (apply N.div_lt; [done|reflexivity]).
    rewrite (IH _ Hlt _ _ Hq).
    rewrite readDigits_digit by done. f_equal.
    pose proof (N.div_mod m 10 ltac:(done)) as H. clear -H. lia.
Qed.

(** A positive number is printed with a first digit other than 0. *)
Lemma pretty_go_head m s :
  (0 < m)%N ->
  exists d r, (0 < d < 10)%N /\ pretty_N_go m s = String (pretty_N_char d) r.
Proof.
  revert s. induction (N.lt_wf_0 m) as [m _ IH]; intros s Hm.
  rewrite pretty_N_go_step by done.
  destruct (decide (m `div` 10 = 0)%N) as [H0|H0].
  - rewrite H0, pretty_N_go_0. exists (m `mod` 10)%N, s. split; [|done].
    pose proof (N.div_mod m 10 ltac:(done)) as H. rewrite H0 in H.
    pose proof (N.mod_lt m 10 ltac:(done)). lia.
  - assert (0 < m `div` 10)%N as Hq by (by apply N.neq_0_lt_0).
    assert (m `div` 10 < m)%N as Hlt by (apply N.div_lt; [done|reflexivity]).
    exact (IH _ Hlt _ Hq).
Qed.

(** Before such a digit there is no white space, no sign and no prefix. *)
Lemma parseInt_digit_head d r :
  (0 < d < 10)%N ->
  let s := String (pretty_N_char d) r in
  trimStart s = s /\ signOf s = (false, s) /\ radixOf s = (10%N, s).
Proof.
  intros Hd.
  assert (d = 1 \/ d = 2 \/ d = 3 \/ d = 4 \/ d = 5 \/ d = 6 \/
          d = 7 \/ d = 8 \/ d = 9)%N as H by lia.
  repeat destruct H as [-> | H]; try subst d; cbv zeta;
    (split; [reflexivity|split; [reflexivity|]]); by destruct r.
Qed.

Lemma parseInt_minus s :
  parseInt (String "-" s) =
    let '(radix, s2) := radixOf s in
    match readDigits radix s2 0 false with
    | Some m => Integer true m
    | None => NaN
    end.
Proof. reflexivity. Qed.

Lemma parseInt_numeral x : parseInt (numeral x) = x.
Proof.
  destruct x as [|negative m]; [reflexivity|].
  unfold numeral, pretty, pretty_N.
  destruct (decide (m = 0)%N) as [->|Hm]; [by destruct negative|].
  assert (0 < m)%N as Hpos by (by apply N.neq_0_lt_0).
  destruct (pretty_go_head m "" Hpos) as (d & r & Hd & Hs).
  destruct (parseInt_digit_head d r Hd) as (Ht & Hsg & Hr).
  pose proof (readDigits_pretty m "" false Hpos) as Hread.
  rewrite Hs in *. change (readDigits 10 "" m true) with (Some m) in Hread.
  destruct negative.
  - change ("-" +:+ String (pretty_N_char d) r)
      with (String "-" (String (pretty_N_char d) r)).
    by rewrite parseInt_minus, Hr, Hread.
  - unfold parseInt. by rewrite Ht, Hsg, Hr, Hread.
Qed.

(** X23.  Reading back what was written: every set of options whose turn
    limit, when there is one, is [NaN] or an integer of magnitude up to
    [2^53], written out as flags with their values, the limit in decimal
    digits, is what [_parseSpawnOptions] returns for those arguments.  The
    other values may be any text, a text that reads like a flag included;
    the limit is stored as the Number that [parseInt] reads, not as its
    text. *)
Theorem parse_render o : exactTurns o -> _parseSpawnOptions (render o) = o.
Proof.
  intros _. destruct o as [d p m s [t|]];
    [|destruct d, p, m, s; reflexivity].
  transitivity {| directory := d; project := p; mcpServers := m;
                  systemPrompt := s;
                  maxTurns := Some (parseInt (numeral t)) |}.
  - destruct d, p, m, s; reflexivity.
  - by rewrite parseInt_numeral.
Qed.

Lemma parse_render_witness :
  _parseSpawnOptions ["--dir"; "--project"; "--max-turns"; "25"] =
    {| directory := Some "--project"; project := None; mcpServers := None;
       systemPrompt := None; maxTurns := Some (Integer false 25) |}.
Proof.
  apply (parse_render
           {| directory := Some "--project"; project := None;
              mcpServers := None; systemPrompt := None;
              maxTurns := Some (Integer false 25) |}).
  vm_compute. discriminate.
Defined.

(** *** Writing to sessions *)

Lemma startsWith_append p s t :
  Text.startsWith p s = true -> Text.startsWith p (s +:+ t) = true.
Proof.
  revert s. induction p as [|a p IH]; intros s; [done|].
  destruct s as [|b s]; [done|]. rewrite JsFacts.append_cons.
  cbn [Text.startsWith]. intros [-> H]%andb_true_iff. by rewrite IH.
Qed.

Lemma includesString_append a s t :
  Text.includesString a s = true -> Text.includesString a (s +:+ t) = true.
Proof.
  induction s as [|b s IH].
  - cbn [Text.includesString]. rewrite orb_false_r. intros H.
    destruct a; [|done]. by destruct t.
  - rewrite JsFacts.append_cons. cbn [Text.includesString].
    intros [H|H]%orb_true_iff.
    + pose proof (startsWith_append a (String b s) t H) as H'.
      rewrite JsFacts.append_cons in H'. by rewrite H'.
    + rewrite (IH H). apply orb_true_r.
Qed.

Lemma startsWith_split p s :
  Text.startsWith p s = true -> exists t, s = p +:+ t.
Proof.
  revert s. induction p as [|a p IH]; intros s; [by exists s|].
  destruct s as [|b s]; [done|]. cbn [Text.startsWith].
  intros [->%Ascii.eqb_eq [t ->]%IH]%andb_true_iff. by exists t.
Qed.

Lemma includesString_prefix a p s :
  Text.includesString a p = true -> Text.startsWith p s = true ->
  Text.includesString a s = true.
Proof.
  intros Ha [t ->]%startsWith_split. by apply includesString_append.
Qed.

(** The keys of a reachable registry are the ones [createTerminal] makes. *)
Lemma keys_after script ev m id :
  is_Some (Registry.terminals (Registry.after script ev m) !! id) ->
  is_Some (Registry.terminals m !! id) \/
  Text.startsWith "terminal-" id = true.
Proof.
  destruct ev as [now uuid clientWs message|now clientWs message
    |now clientWs message|cols rows message|clientWs message
    |now tid name ctx|now tid clientWs data|tid clientWs exitCode|tid].
  - rewrite RegistryFacts.after_create.
    repeat (match goal with
            | |- context [if ?b then _ else _] => destruct b
            end); auto.
    cbn [Registry.registered Registry.terminals].
    destruct (decide (id = "terminal-" +:+ uuid)) as [->|Hne].
    + intros _. right. reflexivity.
    + rewrite lookup_insert_ne by done. auto.
  - rewrite RegistryFacts.after_command.
    destruct (Registry.terminals m !! _); [|auto].
    destruct script as [|[e|] script]; auto.
  - rewrite RegistryFacts.after_input.
    destruct (Registry.terminals m !! _); [|auto].
    destruct script as [|[e|] script]; auto.
  - rewrite RegistryFacts.after_resize. auto.
  - destruct (RegistryFacts.after_destroy script clientWs message m)
      as [-> | [_ ->]]; [auto|].
    cbn [Registry.removed Registry.terminals].
    intros [x [_ Hx]%lookup_delete_Some]. eauto.
  - rewrite RegistryFacts.after_handoff.
    destruct (Registry.terminals m !! tid) as [ti|] eqn:Hti; [|auto].
    cbn [Registry.handedOff Registry.terminals].
    destruct (decide (id = tid)) as [->|Hne]; [rewrite Hti; eauto|].
    rewrite lookup_insert_ne by done. auto.
  - rewrite RegistryFacts.after_data.
    assert (forall m', (is_Some (Registry.terminals m' !! id) ->
                        is_Some (Registry.terminals m !! id)) ->
              is_Some (Registry.terminals (Registry.received now tid data m')
                         !! id) ->
              is_Some (Registry.terminals m !! id)) as Hrec.
    { intros m' Hm'. cbn [Registry.received Registry.terminals].
      destruct (Registry.terminals m' !! tid) as [ti|] eqn:Hti; [|done].
      destruct (decide (id = tid)) as [->|Hne].
      - intros _. apply Hm'. by rewrite Hti.
      - by rewrite lookup_insert_ne by done. }
    intros H. left. revert H.
    destruct (Registry.handoffPattern data) as [[name text]|];
      [|by apply Hrec].
    destruct (Registry.terminals m !! tid) as [ti|] eqn:Hti;
      [|by apply Hrec].
    apply Hrec. cbn [Registry.handedOff Registry.terminals].
    destruct (decide (id = tid)) as [->|Hne]; [rewrite Hti; eauto|].
    by rewrite lookup_insert_ne by done.
  - rewrite RegistryFacts.after_exit.
    cbn [Registry.removed Registry.terminals].
    intros [x [_ Hx]%lookup_delete_Some]. eauto.
  - rewrite RegistryFacts.after_timeout.
    destruct (Registry.terminals m !! tid); [|auto].
    destruct script as [|[e|] script]; auto;
      cbn [Registry.removed Registry.terminals];
      intros [x [_ Hx]%lookup_delete_Some]; eauto.
Qed.

Lemma keys_prefixed max m id :
  Registry.reachable max m ->
  is_Some (Registry.terminals m !! id) ->
  Text.startsWith "terminal-" id = true.
Proof.
  induction 1 as [|script ev m Hr IH].
  - cbn. rewrite lookup_empty. by intros [x Hx].
  - intros [H|H]%keys_after; auto.
Qed.

(** X24.  The search by agent finds a session by a part of its id before it
    finds one by its name: in every reachable registry, a text that occurs
    in [terminal-] selects the first session of the table, whatever the
    names of the sessions are. *)
Theorem part_of_prefix_finds_first_session max m entries agentId :
  Registry.reachable max m ->
  entriesOf entries m ->
  Text.includesString agentId "terminal-" = true ->
  findTerminal agentId entries = head entries.
Proof.
  intros Hr He Ha. destruct entries as [|[id ti] rest]; [done|].
  cbn [findTerminal head].
  assert (Text.startsWith "terminal-" id = true) as Hid.
  { apply (keys_prefixed max m); [done|]. exists ti.
    apply elem_of_map_to_list. unfold entriesOf in He. rewrite <- He.
    apply list_elem_of_here. }
  by rewrite (includesString_prefix agentId "terminal-" id), orb_true_r.
Qed.


Lemma part_of_prefix_finds_first_session_witness :
  findTerminal "term" (map_to_list (Registry.terminals Registry.oneSession)) =
  head (map_to_list (Registry.terminals Registry.oneSession)).
Proof.
  apply (part_of_prefix_finds_first_session 2 Registry.oneSession).
  - apply RegistryClaims.reachable_oneSession.
  - unfold entriesOf. reflexivity.
  - reflexivity.
Defined.

(** *** Spawning *)

Lemma createTerminal_shell now uuid clientWs message w :
  Registry.isClaudeAgentOf message = false ->
  exists tr th,
    Registry.createTerminal now uuid clientWs message w =
      (Returned tt,
       {| Registry.this := Registry.this w;
          Registry.trace := Registry.trace w ++ tr;
          Registry.throws := th |}) /\
    Forall (fun e => RegistryQueries.touchesProcess e = false) tr.
Proof.
  intros Hc. destruct w as [m tr0 th0].
  unfold Registry.createTerminal, Registry._createTerminalProcess,
    Registry.spawnProcess, Registry.mkdirSync, Registry.external,
    Registry.getThis, Registry.emit.
  rewrite Hc. eff_unfold.
  cbn [Registry.this Registry.trace Registry.throws].
  repeat (match goal with
          | |- context [if ?b then _ else _] => destruct b
          end);
    try (destruct th0 as [|[e|] th0]);
    cbn [Registry.this Registry.trace Registry.throws tail];
    rewrite <- ?app_assoc;
    eexists _, _; (split; [reflexivity|]); by repeat constructor.
Qed.

(** X25.  A spawn that creates nothing is reported as a success: when the
    message that [_spawnAgent] hands to [createTerminal] asks for a plain
    shell (no [agentType: "claude"], no [mcpServers]) and the registry is
    below its maximum, the registry is left as it was, no process is
    spawned, written or killed and no timer is armed, and yet the reply is
    the one for a spawned agent, with [success: true]. *)
Theorem spawn_reports_success_without_session
    now uuid clientWs agentName message w :
  Registry.isClaudeAgentOf message = false ->
  (size (Registry.terminals (Registry.this w))
     < Registry.maxTerminals (Registry.this w))%nat ->
  exists tr th,
    _spawnAgent now uuid clientWs agentName message w =
      (Returned (SpawningAgent agentName, true),
       {| Registry.this := Registry.this w;
          Registry.trace := Registry.trace w ++ tr;
          Registry.throws := th |}) /\
    Forall (fun e => RegistryQueries.touchesProcess e = false) tr.
Proof.
  intros Hc Hsize.
  destruct (createTerminal_shell now uuid clientWs message w Hc)
    as (tr & th & Hcreate & Htr).
  exists tr, th. split; [|exact Htr].
  unfold _spawnAgent, Registry.getThis. eff_unfold.
  apply Nat.leb_gt in Hsize. rewrite Hsize, Hcreate. reflexivity.
Qed.

Lemma spawn_reports_success_without_session_witness :
  exists tr th,
    _spawnAgent 5 "u2" 7%nat "builder"
      (plainSpawn "r9" "builder")
      {| Registry.this := Registry.oneSession; Registry.trace := [];
         Registry.throws := [] |} =
      (Returned (SpawningAgent "builder", true),
       {| Registry.this := Registry.oneSession; Registry.trace := tr;
          Registry.throws := th |}) /\
    Forall (fun e => RegistryQueries.touchesProcess e = false) tr.
Proof.
  apply (spawn_reports_success_without_session 5 "u2" 7%nat "builder"
           (plainSpawn "r9" "builder")
           {| Registry.this := Registry.oneSession; Registry.trace := [];
              Registry.throws := [] |}).
  - reflexivity.
  - vm_compute. lia.
Defined.

(** *** Handoff by directive *)

(** X28.  The agent a handoff directive names as its source serves to find the
    session and nothing else: once the search has found a session of the
    table, the registry records the handoff whatever the writes of the
    banner do and whatever the reply says; the session's new current agent
    is the target, and the transition recorded starts from the agent the
    session had, which need not be the one the directive named, and
    carries the reason of the orchestrator. *)
Theorem handoff_directive_records_current_agent
    now fromAgent toAgent rest entries id ti w :
  entriesOf entries (Registry.this w) ->
  findTerminal fromAgent entries = Some (id, ti) ->
  let context :=
    directiveContext (orElse (Some (String.concat " " rest))
                             "Manual handoff via orchestrator") in
  exists r tr th h,
    _handleAgentHandoff now (fromAgent :: toAgent :: rest) entries w =
      (Returned r,
       {| Registry.this :=
            Registry.handedOff now id toAgent context ti (Registry.this w);
          Registry.trace := tr; Registry.throws := th |}) /\
    Registry.agentHandoffs
      (Registry.handedOff now id toAgent context ti (Registry.this w)) !! id
      = Some h /\
    Registry.currentAgent h = toAgent /\
    last (Registry.history h) =
      Some {| Registry.timestamp := now;
              Registry.fromAgent :=
                Registry.currentAgent
                  (Registry.recordOf (Registry.this w) id ti);
              Registry.toAgent := toAgent;
              Registry.context := context;
              Registry.reason := "Orchestrator-initiated handoff" |}.
Proof.
  intros He Hfind context.
  assert (Registry.terminals (Registry.this w) !! id = Some ti) as Hti.
  { apply elem_of_map_to_list. unfold entriesOf in He. rewrite <- He.
    clear -Hfind. induction entries as [|[id' ti'] entries IH]; [done|].
    cbn [findTerminal] in Hfind.
    destruct (_ || _); [injection Hfind as -> ->; apply list_elem_of_here|].
    apply list_elem_of_further. by apply IH. }
  destruct (RegistryFacts.handoff_found now id toAgent context w ti Hti)
    as (r & tr & th & Hrun).
  unfold _handleAgentHandoff. rewrite Hfind. fold context. eff_unfold.
  rewrite Hrun.
  destruct r as [a|e]; eexists _, tr, th, _; (split; [reflexivity|]);
    cbn [Registry.handedOff Registry.agentHandoffs];
    rewrite lookup_insert_eq;
    (split; [reflexivity|]); (split; [reflexivity|]);
    cbn [Registry.history]; by rewrite last_snoc.
Qed.

Lemma handoff_directive_records_current_agent_witness :
  exists r tr th h,
    _handleAgentHandoff 9 ["term"; "reviewer"] twoSessions
      {| Registry.this := twoRegistered; Registry.trace := [];
         Registry.throws := [] |} =
      (Returned r,
       {| Registry.this :=
            Registry.handedOff 9 "terminal-u1" "reviewer"
              (directiveContext "Manual handoff via orchestrator")
              (snd (session "terminal-u1" "worker")) twoRegistered;
          Registry.trace := tr; Registry.throws := th |}) /\
    Registry.agentHandoffs
      (Registry.handedOff 9 "terminal-u1" "reviewer"
         (directiveContext "Manual handoff via orchestrator")
         (snd (session "terminal-u1" "worker")) twoRegistered)
      !! "terminal-u1" = Some h /\
    Registry.currentAgent h = "reviewer" /\
    last (Registry.history h) =
      Some {| Registry.timestamp := 9;
              Registry.fromAgent := "worker";
              Registry.toAgent := "reviewer";
              Registry.context :=
                directiveContext "Manual handoff via orchestrator";
              Registry.reason := "Orchestrator-initiated handoff" |}.
Proof.
  apply (handoff_directive_records_current_agent 9 "term" "reviewer" []
           twoSessions "terminal-u1" (snd (session "terminal-u1" "worker"))
           {| Registry.this := twoRegistered; Registry.trace := [];
              Registry.throws := [] |}).
  - unfold entriesOf, twoRegistered. cbn [Registry.this Registry.terminals].
    symmetry. apply map_to_list_to_map.
    apply NoDup_cons. split; [|apply NoDup_singleton].
    by intros [=]%list_elem_of_singleton.
  - reflexivity.
Defined.

(** X26.  The reply of [send] is true to what was done: the handler leaves the
    registry (and so every idle timer) as it was and attempts at most one
    write; [success: true] is sent only after a write of the command and a
    carriage return to the session that the search found has returned, and
    with [success: false] no write has returned. *)
Theorem send_reply_sound args entries w :
  exists r tr th,
    _handleSendToAgent args entries w =
      (Returned r,
       {| Registry.this := Registry.this w;
          Registry.trace := Registry.trace w ++ tr;
          Registry.throws := th |}) /\
    (length (attempted tr) <= 1)%nat /\
    (snd r = true ->
     exists agentId rest id ti,
       args = agentId :: rest /\
       findTerminal agentId entries = Some (id, ti) /\
       tr = [Registry.PtyWrite id (String.concat " " rest +:+ chr CR)]) /\
    (snd r = false -> returnedWrites tr = 0%nat).
Proof.
  assert (forall r : reply,
            snd r = false ->
            exists r' tr th,
              (Returned r, w) =
                (Returned r',
                 {| Registry.this := Registry.this w;
                    Registry.trace := Registry.trace w ++ tr;
                    Registry.throws := th |}) /\
              (length (attempted tr) <= 1)%nat /\
              (snd r' = true ->
               exists agentId rest id ti,
                 args = agentId :: rest /\
                 findTerminal agentId entries = Some (id, ti) /\
                 tr = [Registry.PtyWrite id
                         (String.concat " " rest +:+ chr CR)]) /\
              (snd r' = false -> returnedWrites tr = 0%nat)) as Hquiet.
  { intros r Hr. exists r, [], (Registry.throws w). rewrite app_nil_r.
    split; [by destruct w|]. split; [cbn; lia|]. split; [congruence|done]. }
  unfold _handleSendToAgent.
  destruct args as [|agentId [|a rest]]; [by apply Hquiet..|].
  destruct (findTerminal agentId entries) as [[id ti]|] eqn:Hfind;
    [|by apply Hquiet].
  unfold Registry.ptyWrite, Registry.external. eff_unfold.
  destruct (Registry.throws w) as [|[e|] script] eqn:Hth;
    cbn [Registry.this Registry.trace Registry.throws tail].
  - eexists _, [_], _. split; [reflexivity|]. split; [cbn; lia|].
    split; [|done]. intros _. by exists agentId, (a :: rest), id, ti.
  - eexists _, [_], _. split; [reflexivity|]. split; [cbn; lia|].
    split; [done|]. reflexivity.
  - eexists _, [_], _. split; [reflexivity|]. split; [cbn; lia|].
    split; [|done]. intros _. by exists agentId, (a :: rest), id, ti.
Qed.

Lemma broadcastTo_spec command entries w :
  exists tr,
    broadcastTo command entries w =
      (Returned (returnedWrites tr),
       {| Registry.this := Registry.this w;
          Registry.trace := Registry.trace w ++ tr;
          Registry.throws := drop (length entries) (Registry.throws w) |}) /\
    attempted tr = map (fun e => (fst e, command +:+ chr CR)) entries.
Proof.
  revert w. induction entries as [|[id ti] entries IH]; intros w.
  - exists []. cbn [broadcastTo]. eff_unfold. rewrite app_nil_r.
    destruct w; done.
  - cbn [broadcastTo]. unfold Registry.ptyWrite, Registry.external,
      Registry.emit. eff_unfold.
    destruct (Registry.throws w) as [|[e|] script] eqn:Hth;
      cbn [Registry.this Registry.trace Registry.throws tail].
    + destruct (IH {| Registry.this := Registry.this w;
                      Registry.trace :=
                        Registry.trace w ++
                          [Registry.PtyWrite id (command +:+ chr CR)];
                      Registry.throws := [] |}) as (tr & -> & Htr).
      exists (Registry.PtyWrite id (command +:+ chr CR) :: tr).
      cbn [Registry.this Registry.trace Registry.throws].
      rewrite <- app_assoc, !drop_nil. split; [reflexivity|].
      cbn [attempted omap list_omap map fst]. by rewrite <- Htr.
    + destruct (IH {| Registry.this := Registry.this w;
                      Registry.trace :=
                        (Registry.trace w ++
                           [Registry.PtyWriteThrew id (command +:+ chr CR)])
                        ++ [Registry.ConsoleError "Failed to broadcast"];
                      Registry.throws := script |}) as (tr & -> & Htr).
      exists (Registry.PtyWriteThrew id (command +:+ chr CR)
              :: Registry.ConsoleError "Failed to broadcast" :: tr).
      cbn [Registry.this Registry.trace Registry.throws].
      rewrite <- !app_assoc. split; [reflexivity|].
      cbn [attempted omap list_omap map fst]. by rewrite <- Htr.
    + destruct (IH {| Registry.this := Registry.this w;
                      Registry.trace :=
                        Registry.trace w ++
                          [Registry.PtyWrite id (command +:+ chr CR)];
                      Registry.throws := script |}) as (tr & -> & Htr).
      exists (Registry.PtyWrite id (command +:+ chr CR) :: tr).
      cbn [Registry.this Registry.trace Registry.throws].
      rewrite <- app_assoc. split; [reflexivity|].
      cbn [attempted omap list_omap map fst]. by rewrite <- Htr.
Qed.

(** X27.  A broadcast writes to every session, whatever the earlier writes did:
    with a command and a table that is not empty, the handler attempts one
    write of the command and a carriage return for each session, in the
    order of the table; it leaves the registry (and so every idle timer)
    as it was; and its reply counts the writes that returned out of the
    number of sessions and carries [success: true], even when the count
    is 0. *)
Theorem broadcast_attempts_every_session args entries w :
  args <> [] -> entries <> [] ->
  exists tr,
    _handleBroadcast args entries w =
      (Returned (BroadcastDone (returnedWrites tr) (length entries)
                   (String.concat " " args), true),
       {| Registry.this := Registry.this w;
          Registry.trace := Registry.trace w ++ tr;
          Registry.throws := drop (length entries) (Registry.throws w) |}) /\
    attempted tr =
      map (fun e => (fst e, String.concat " " args +:+ chr CR)) entries /\
    (returnedWrites tr <= length entries)%nat.
Proof.
  intros Ha He. destruct args as [|a args]; [done|].
  destruct entries as [|e entries]; [done|].
  unfold _handleBroadcast.
  destruct (broadcastTo_spec (String.concat " " (a :: args)) (e :: entries) w)
    as (tr & Htr & Hatt).
  exists tr. split; [|split; [exact Hatt|]].
  - eff_unfold. by rewrite Htr.
  - assert (length (attempted tr) = length (e :: entries)) as <-
      by by rewrite Hatt, length_map.
    clear. unfold returnedWrites, attempted.
    induction tr as [|x tr IH]; [done|].
    destruct x; cbn [omap list_omap length]; lia.
Qed.

Lemma broadcast_attempts_every_session_witness :
  exists tr,
    _handleBroadcast ["ls"; "-l"] twoSessions
      {| Registry.this := Registry.oneSession; Registry.trace := [];
         Registry.throws := [Some "EPIPE"] |} =
      (Returned (BroadcastDone (returnedWrites tr) 2 "ls -l", true),
       {| Registry.this := Registry.oneSession; Registry.trace := tr;
          Registry.throws := [] |}) /\
    attempted tr = [("terminal-u1", "ls -l" +:+ chr CR);
                    ("terminal-u2", "ls -l" +:+ chr CR)] /\
    (returnedWrites tr <= 2)%nat.
Proof.
  apply (broadcast_attempts_every_session ["ls"; "-l"] twoSessions
           {| Registry.this := Registry.oneSession; Registry.trace := [];
              Registry.throws := [Some "EPIPE"] |}); discriminate.
Defined.

End DispatcherFacts.
